(** * GameEventsService: scoreboard normalisation, change detection and polling

    A shallow embedding of [src/browser/services/gep.service.ts].

    The service receives loosely typed data (TypeScript [any]) from two
    sources, the local live-client endpoint (the result of [JSON.parse]) and
    the game event provider, turns it into a scoreboard with
    [mapLeaguePlayer] and [normalizeStat], compares scoreboards through
    [JSON.stringify], and polls on an interval timer.  The embedding has
    three layers:

    - the JavaScript values the code handles and the built-ins it calls on
      them ([Number], [Number.isFinite], [Math.round], [Array.isArray],
      [?.], [??], truthiness, [JSON.stringify]);
    - the two pure methods [normalizeStat] and [mapLeaguePlayer];
    - the service object: its fields, the timer and the pending requests of
      the runtime, and one handler per callback the class registers. *)

From Stdlib Require Import ZArith QArith Qabs List String Ascii Bool Lia DecimalString.
Import ListNotations.

Local Open Scope string_scope.
Local Open Scope list_scope.
Local Open Scope Z_scope.

(* ================================================================== *)
(** * JavaScript numbers *)
(* ================================================================== *)

(** A Number is NaN, an infinity, or a finite binary64 value.  A finite
    binary64 value is a dyadic rational, kept here in lowest terms so that
    equal numbers are equal terms: either an integer [z], or the
    non-integral [(2h+1) / 2^k] with [k >= 1].  The type has every dyadic
    rational, the binary64 ones among them.  The two zeros are one value:
    [===] and [JSON.stringify] do not tell them apart either. *)
Inductive number : Type :=
| NaN
| Infinity (negative : bool)
| Int (z : Z)
| Frac (h : Z) (k : positive).

(** The rational a finite number denotes. *)
Definition value (x : number) : option Q :=
  match x with
  | Int z => Some (inject_Z z)
  | Frac h k => Some (Qmake (2 * h + 1) (2 ^ k))
  | _ => None
  end.

(** [Number.isFinite(num)] *)
Definition Number_isFinite (x : number) : bool :=
  match x with
  | Int _ | Frac _ _ => true
  | NaN | Infinity _ => false
  end.

(** [Math.round(x)]: the integer nearest to [x], the larger one of two
    equally near; an integral [x], NaN and the infinities are returned
    unchanged. *)
Definition Math_round (x : number) : number :=
  match x with
  | Frac h k => Int ((2 * h + 1 + 2 ^ (Zpos k - 1)) / 2 ^ Zpos k)
  | _ => x
  end.

(** [m / 2^k] in lowest terms. *)
Fixpoint lowest_terms (m : Z) (k : nat) : number :=
  match k with
  | O => Int m
  | S k' => if Z.even m then lowest_terms (m / 2) k'
            else Frac (m / 2) (Pos.of_succ_nat k')
  end.

(** [m * 2^e] *)
Definition dyadic (m e : Z) : number :=
  if 0 <=? e then Int (m * 2 ^ e) else lowest_terms m (Z.to_nat (- e)).

(** ** Rounding a rational to binary64

    [binary64 neg n d] is the binary64 value nearest to [n / d] ([0 <= n],
    [0 < d]), ties to the even significand, with the sign [neg]: 53 bits of
    significand, the least exponent of a unit in the last place [-1074],
    and infinity from [2^1024] on. *)

Definition scaled (n d e : Z) : Z * Z :=
  if 0 <=? e then (n, d * 2 ^ e) else (n * 2 ^ (- e), d).

Definition nearest_even (n d : Z) : Z :=
  let q := n / d in
  match 2 * (n mod d) ?= d with
  | Lt => q
  | Eq => if Z.even q then q else q + 1
  | Gt => q + 1
  end.

Definition binary64 (negative : bool) (n d : Z) : number :=
  if n =? 0 then Int 0 else
  let l := Z.log2 n - Z.log2 d in
  let lg := let '(n1, d1) := scaled n d l in if d1 <=? n1 then l else l - 1 in
  let e := Z.max (lg - 52) (-1074) in
  let m := let '(n2, d2) := scaled n d e in nearest_even n2 d2 in
  if (0 <=? e) && (2 ^ 1024 <=? m * 2 ^ e) then Infinity negative
  else dyadic (if negative then - m else m) e.

(* ================================================================== *)
(** * Strings as numbers: StringToNumber *)
(* ================================================================== *)

(** A string is a sequence of characters with code below 256.
    [StringToNumber] follows the StringNumericLiteral grammar of
    ECMAScript: white space around an optional StrNumericLiteral; the empty
    literal is [0], a string that is not of the grammar is NaN. *)

Definition code (c : ascii) : Z := Z.of_nat (nat_of_ascii c).

(** StrWhiteSpaceChar: TAB, LF, VT, FF, CR, SP and NBSP. *)
Definition StrWhiteSpaceChar (c : ascii) : bool :=
  let n := code c in
  ((9 <=? n) && (n <=? 13)) || (n =? 32) || (n =? 160).

Fixpoint skip_white (l : list ascii) : list ascii :=
  match l with
  | c :: r => if StrWhiteSpaceChar c then skip_white r else l
  | [] => []
  end.

Definition trim (l : list ascii) : list ascii :=
  rev (skip_white (rev (skip_white l))).

Definition digit (base : Z) (c : ascii) : option Z :=
  let n := code c in
  let v := if (48 <=? n) && (n <=? 57) then n - 48
           else if (97 <=? n) && (n <=? 102) then n - 87
           else if (65 <=? n) && (n <=? 70) then n - 55
           else 16 in
  if v <? base then Some v else None.

(** The longest run of digits at the head of [l]: its value on top of
    [acc], the number of digits on top of [len], and what follows. *)
Fixpoint digits (base : Z) (l : list ascii) (acc len : Z) : Z * Z * list ascii :=
  match l with
  | c :: r =>
      match digit base c with
      | Some v => digits base r (acc * base + v) (len + 1)
      | None => (acc, len, l)
      end
  | [] => (acc, len, [])
  end.

(** ExponentPart, optional: [e] or [E], a sign, at least one digit. *)
Definition ExponentPart (l : list ascii) : option (Z * list ascii) :=
  match l with
  | c :: r =>
      if (code c =? 101) || (code c =? 69) then
        let '(neg, r1) :=
          match r with
          | s :: r' => if code s =? 45 then (true, r')
                       else if code s =? 43 then (false, r') else (false, r)
          | [] => (false, r)
          end in
        let '(x, len, rest) := digits 10 r1 0 0 in
        if len =? 0 then None else Some (if neg then - x else x, rest)
      else Some (0, l)
  | [] => Some (0, [])
  end.

(** StrUnsignedDecimalLiteral other than [Infinity]:
    [digits . digits? exp?], [. digits exp?] or [digits exp?]. *)
Definition StrUnsignedDecimalLiteral (negative : bool) (l : list ascii) : option number :=
  let '(i, ni, r1) := digits 10 l 0 0 in
  let '(m, nf, r2) :=
    match r1 with
    | c :: r => if code c =? 46 then digits 10 r i 0 else (i, 0, r1)
    | [] => (i, 0, r1)
    end in
  if ni + nf =? 0 then None else
  match ExponentPart r2 with
  | Some (x, []) =>
      let e := x - nf in
      Some (if 0 <=? e then binary64 negative (m * 10 ^ e) 1
            else binary64 negative m (10 ^ (- e)))
  | _ => None
  end.

(** StrDecimalLiteral: an optional sign, then [Infinity] or digits. *)
Definition StrDecimalLiteral (l : list ascii) : option number :=
  let '(neg, r) :=
    match l with
    | s :: r' => if code s =? 45 then (true, r')
                 else if code s =? 43 then (false, r') else (false, l)
    | [] => (false, l)
    end in
  if list_eq_dec ascii_dec r (list_ascii_of_string "Infinity") then Some (Infinity neg)
  else StrUnsignedDecimalLiteral neg r.

(** NonDecimalIntegerLiteral: [0b], [0o], [0x] (either case), no sign. *)
Definition NonDecimalIntegerLiteral (l : list ascii) : option (option number) :=
  match l with
  | z :: p :: r =>
      let base :=
        if negb (code z =? 48) then 0
        else if (code p =? 98) || (code p =? 66) then 2
        else if (code p =? 111) || (code p =? 79) then 8
        else if (code p =? 120) || (code p =? 88) then 16
        else 0 in
      if base =? 0 then None else
      Some (match digits base r 0 0 with
            | (x, len, []) => if len =? 0 then None else Some (binary64 false x 1)
            | _ => None
            end)
  | _ => None
  end.

(** StrNumericLiteral: [None] when [l] is not one. *)
Definition StrNumericLiteral (l : list ascii) : option number :=
  match NonDecimalIntegerLiteral l with
  | Some r => r
  | None => StrDecimalLiteral l
  end.

Definition StringToNumber (s : string) : number :=
  match trim (list_ascii_of_string s) with
  | [] => Int 0
  | l => match StrNumericLiteral l with
         | Some x => x
         | None => NaN
         end
  end.

(* ================================================================== *)
(** * JavaScript values *)
(* ================================================================== *)

(** The data the service handles is what [JSON.parse] returns: [null],
    booleans, numbers, strings, arrays and plain objects.  An object is the
    list of its own properties in enumeration order (the order
    [JSON.stringify] writes them in); a property is looked up by the first
    entry of its key.  [undefined] is not a JSON value: it only appears as
    the result of reading a property that is not there, so a value that may
    be [undefined] is an [option Json]. *)
#[local] Unset Elimination Schemes.
Inductive Json : Type :=
| JNull
| JBool (b : bool)
| JNum (n : number)
| JStr (s : string)
| JArr (elements : list Json)
| JObj (properties : list (string * Json)).
#[local] Set Elimination Schemes.

Definition undefined : option Json := None.

Section Json_induction.
Variable P : Json -> Prop.
Hypothesis Hnull : P JNull.
Hypothesis Hbool : forall b, P (JBool b).
Hypothesis Hnum : forall n, P (JNum n).
Hypothesis Hstr : forall s, P (JStr s).
Hypothesis Harr : forall l, Forall P l -> P (JArr l).
Hypothesis Hobj : forall l, Forall (fun kv => P (snd kv)) l -> P (JObj l).

Fixpoint Json_nested_ind (v : Json) : P v :=
  match v with
  | JNull => Hnull
  | JBool b => Hbool b
  | JNum n => Hnum n
  | JStr s => Hstr s
  | JArr l =>
      Harr l ((fix all (l : list Json) : Forall P l :=
                 match l with
                 | [] => Forall_nil _
                 | x :: r => Forall_cons x (Json_nested_ind x) (all r)
                 end) l)
  | JObj l =>
      Hobj l ((fix all (l : list (string * Json)) : Forall (fun kv => P (snd kv)) l :=
                 match l with
                 | [] => Forall_nil _
                 | kv :: r => Forall_cons kv (Json_nested_ind (snd kv)) (all r)
                 end) l)
  end.
End Json_induction.

(** Own property lookup. *)
Fixpoint lookup (key : string) (l : list (string * Json)) : option Json :=
  match l with
  | [] => None
  | (k, v) :: r => if String.eqb key k then Some v else lookup key r
  end.

(** [o?.key].  On [undefined] and [null] the optional chain gives
    [undefined]; on an object, the own property.  The keys the service reads
    are none of the properties that arrays, strings, numbers or booleans
    have or inherit, so reading them there gives [undefined] too. *)
Definition get (o : option Json) (key : string) : option Json :=
  match o with
  | Some (JObj l) => lookup key l
  | _ => None
  end.

(** [a ?? b] *)
Definition nullish (a b : option Json) : option Json :=
  match a with
  | None | Some JNull => b
  | Some _ => a
  end.

(** [a ?? d] for a [d] that is a literal, so that the result is a value. *)
Definition otherwise (a : option Json) (d : Json) : Json :=
  match a with
  | None | Some JNull => d
  | Some v => v
  end.

Infix "??" := nullish (at level 61, right associativity).
Infix "??!" := otherwise (at level 62, no associativity).

(** ToBoolean, for [filter(item => item)], [!info], [error && ...]. *)
Definition truthy (v : Json) : bool :=
  match v with
  | JNull => false
  | JBool b => b
  | JNum NaN => false
  | JNum (Int z) => negb (z =? 0)
  | JNum _ => true
  | JStr s => negb (String.eqb s "")
  | JArr _ | JObj _ => true
  end.

(** [Array.isArray(v)] *)
Definition Array_isArray (v : option Json) : bool :=
  match v with
  | Some (JArr _) => true
  | _ => false
  end.

Definition elements_of (v : option Json) : list Json :=
  match v with
  | Some (JArr l) => l
  | _ => []
  end.

(** ** Completions

    A built-in either returns or throws; the value thrown is an Error
    object, modelled as the object with its [message]. *)
Inductive completion (A : Type) : Type :=
| Normal (a : A)
| Throw (error : Json).
Arguments Normal {A} a.
Arguments Throw {A} error.

Definition bind {A B : Type} (c : completion A) (f : A -> completion B) : completion B :=
  match c with
  | Normal a => f a
  | Throw e => Throw e
  end.

Notation "x <- c ;; k" := (bind c (fun x => k))
  (at level 100, c at next level, right associativity).

Definition Error (message : string) : Json := JObj [("message", JStr message)].

Definition TypeError : Json := Error "Cannot convert object to primitive value".

(** ** Number(value)

    ToNumber: [undefined] is NaN, [null] is [0], [true] is [1], a string goes
    through [StringToNumber].  An array or object is first made a primitive:
    a plain object becomes the string ["[object Object]"], which is NaN; an
    array becomes the join of its elements with commas, where [null] counts
    as the empty string.  So the empty array is [0], an array of two or more
    elements holds a comma and is NaN, and an array of one element converts
    as the text of that element (a number prints to a numeral that reads
    back as itself).

    The conversion of an object to a primitive calls its [toString]; a JSON
    object with an own property of that name has a value there that cannot
    be called, and the conversion throws a TypeError.  This happens for the
    object itself and for every object the join of an array reaches. *)

Definition has_key (key : string) (l : list (string * Json)) : bool :=
  existsb (fun kv => String.eqb key (fst kv)) l.

Fixpoint ToPrimitive_throws (v : Json) : bool :=
  match v with
  | JObj l => has_key "toString" l
  | JArr l => existsb ToPrimitive_throws l
  | _ => false
  end.

Fixpoint ToNumber (v : Json) : number :=
  match v with
  | JNull => Int 0
  | JBool b => if b then Int 1 else Int 0
  | JNum n => n
  | JStr s => StringToNumber s
  | JArr [] => Int 0
  | JArr [e] =>
      match e with
      | JNull => Int 0
      | JBool _ => NaN
      | JNum n => n
      | JStr s => StringToNumber s
      | JArr _ => ToNumber e
      | JObj _ => NaN
      end
  | JArr _ => NaN
  | JObj _ => NaN
  end.

Definition Number (value : option Json) : completion number :=
  match value with
  | None => Normal NaN
  | Some v => if ToPrimitive_throws v then Throw TypeError else Normal (ToNumber v)
  end.

(* ================================================================== *)
(** * The stat normaliser *)
(* ================================================================== *)

(** [[
  private normalizeStat(value: any): number | null {
    const num = Number(value);
    if (!Number.isFinite(num)) {
      return null;
    }
    return Math.round(num);
  }
]] *)
Definition normalizeStat (value : option Json) : completion Json :=
  num <- Number value ;;
  if negb (Number_isFinite num) then Normal JNull
  else Normal (JNum (Math_round num)).

(** The object literals the normaliser builds, with their keys in the order
    of the source: the types [LeagueScoreboardPlayer], its [stats] and the
    elements of its [items].  The fields hold whatever the code puts there,
    which for [name], [champion], [team] and the fields of an item is the
    raw value as it came. *)
Definition LeagueScoreboardItem (name rawDisplay itemId count : Json) : Json :=
  JObj [ ("name", name); ("rawDisplay", rawDisplay);
         ("itemId", itemId); ("count", count) ].

Definition LeagueScoreboardStats
  (maxHealth attackDamage abilityPower armor magicResist : Json) : Json :=
  JObj [ ("maxHealth", maxHealth); ("attackDamage", attackDamage);
         ("abilityPower", abilityPower); ("armor", armor);
         ("magicResist", magicResist) ].

Definition LeagueScoreboardPlayer
  (name champion team level stats : Json) (items : list Json) : Json :=
  JObj [ ("name", name); ("champion", champion); ("team", team);
         ("level", level); ("stats", stats); ("items", JArr items) ].

(** The item mapper of [mapLeaguePlayer]:
[[
        .map(item => ({
          name: item?.displayName ?? 'Unknown Item',
          rawDisplay: item?.displayName ?? '',
          itemId: item?.itemID ?? 0,
          count: item?.count ?? 1,
        }))
]] *)
Definition mapItem (item : Json) : Json :=
  LeagueScoreboardItem
    (get (Some item) "displayName" ??! JStr "Unknown Item")
    (get (Some item) "displayName" ??! JStr "")
    (get (Some item) "itemID" ??! JNum (Int 0))
    (get (Some item) "count" ??! JNum (Int 1)).

(** [[
  private mapLeaguePlayer(player: any): LeagueScoreboardPlayer {
    const rawItems: any[] = Array.isArray(player?.items) ? player.items : [];
    const statsSource =
      player?.championStats ?? player?.champion_stats ??
      player?.stats ?? player?.rawStats ?? {};
    return {
      name: player?.summonerName ?? 'Unknown',
      champion: player?.championName ?? '',
      team: player?.team ?? 'ORDER',
      level: this.normalizeStat(player?.level ?? statsSource?.level),
      stats: {
        maxHealth: this.normalizeStat(statsSource?.maxHealth ?? statsSource?.hp),
        attackDamage: this.normalizeStat(statsSource?.attackDamage ?? statsSource?.ad),
        abilityPower: this.normalizeStat(statsSource?.abilityPower ?? statsSource?.ap),
        armor: this.normalizeStat(statsSource?.armor),
        magicResist: this.normalizeStat(
          statsSource?.magicResist ?? statsSource?.magicResistance ?? statsSource?.mr),
      },
      items: rawItems.filter(item => item).map(item => ({ ... })),
    };
  }
]] *)
Definition rawItems_of (player : option Json) : list Json :=
  if Array_isArray (get player "items") then elements_of (get player "items") else [].

Definition statsSource_of (player : option Json) : option Json :=
  get player "championStats" ?? get player "champion_stats" ??
  get player "stats" ?? get player "rawStats" ?? Some (JObj []).

Definition mapLeaguePlayer (player : option Json) : completion Json :=
  let rawItems := rawItems_of player in
  let statsSource := statsSource_of player in
  level <- normalizeStat (get player "level" ?? get statsSource "level") ;;
  maxHealth <- normalizeStat (get statsSource "maxHealth" ?? get statsSource "hp") ;;
  attackDamage <- normalizeStat (get statsSource "attackDamage" ?? get statsSource "ad") ;;
  abilityPower <- normalizeStat (get statsSource "abilityPower" ?? get statsSource "ap") ;;
  armor <- normalizeStat (get statsSource "armor") ;;
  magicResist <- normalizeStat (get statsSource "magicResist" ??
                                get statsSource "magicResistance" ?? get statsSource "mr") ;;
  Normal (LeagueScoreboardPlayer
            (get player "summonerName" ??! JStr "Unknown")
            (get player "championName" ??! JStr "")
            (get player "team" ??! JStr "ORDER")
            level
            (LeagueScoreboardStats maxHealth attackDamage abilityPower armor magicResist)
            (map mapItem (filter truthy rawItems))).

(** [players.map((player: any) => this.mapLeaguePlayer(player))]: the
    players in order; the first call that throws ends the map. *)
Fixpoint mapPlayers (players : list Json) : completion (list Json) :=
  match players with
  | [] => Normal []
  | player :: rest =>
      p <- mapLeaguePlayer (Some player) ;;
      ps <- mapPlayers rest ;;
      Normal (p :: ps)
  end.

(** [const scoreboard: LeagueScoreboard = { players: ... }] *)
Definition LeagueScoreboard (players : list Json) : Json :=
  JObj [("players", JArr players)].

(* ================================================================== *)
(** * The scoreboard differ: JSON.stringify *)
(* ================================================================== *)

(** The JSON text [JSON.stringify] writes, as the sequence of its lexical
    tokens.  A string token stands for the quoted, escaped text of its
    string and a number token for the numeral of its number; both texts
    determine the string and the number they were written from.  A number
    that is not finite is written [null]. *)
Inductive token : Type :=
| LBrace | RBrace | LBracket | RBracket | Comma | Colon
| TNull | TTrue | TFalse
| TString (s : string)
| TNumber (n : number).

Fixpoint JSON_stringify (v : Json) : list token :=
  match v with
  | JNull => [TNull]
  | JBool b => [if b then TTrue else TFalse]
  | JNum n => [if Number_isFinite n then TNumber n else TNull]
  | JStr s => [TString s]
  | JArr l =>
      LBracket ::
      match l with
      | [] => [RBracket]
      | x :: r =>
          JSON_stringify x ++
          (fix rest (r : list Json) : list token :=
             match r with
             | [] => [RBracket]
             | y :: r' => Comma :: JSON_stringify y ++ rest r'
             end) r
      end
  | JObj l =>
      LBrace ::
      match l with
      | [] => [RBrace]
      | (k, x) :: r =>
          TString k :: Colon :: JSON_stringify x ++
          (fix rest (r : list (string * Json)) : list token :=
             match r with
             | [] => [RBrace]
             | (k', y) :: r' => Comma :: TString k' :: Colon :: JSON_stringify y ++ rest r'
             end) r
      end
  end.

(** What follows the first element of an array, and the first property of
    an object, in the text. *)
Fixpoint array_rest (r : list Json) : list token :=
  match r with
  | [] => [RBracket]
  | y :: r' => Comma :: JSON_stringify y ++ array_rest r'
  end.

Fixpoint object_rest (r : list (string * Json)) : list token :=
  match r with
  | [] => [RBrace]
  | (k, y) :: r' => Comma :: TString k :: Colon :: JSON_stringify y ++ object_rest r'
  end.

Definition number_eq_dec (x y : number) : {x = y} + {x <> y}.
Proof.
  decide equality; auto using Z.eq_dec, Pos.eq_dec, bool_dec.
Defined.

Definition token_eq_dec (x y : token) : {x = y} + {x <> y}.
Proof.
  decide equality; auto using string_dec, number_eq_dec.
Defined.

(** [JSON.stringify(scoreboard) !== JSON.stringify(this.latestScoreboard)] *)
Definition changed (scoreboard latestScoreboard : Json) : bool :=
  if list_eq_dec token_eq_dec (JSON_stringify scoreboard) (JSON_stringify latestScoreboard)
  then false else true.

(** Every number in the value is finite. *)
Fixpoint finite_numbers (v : Json) : bool :=
  match v with
  | JNum n => Number_isFinite n
  | JArr l => forallb finite_numbers l
  | JObj l => forallb (fun kv => finite_numbers (snd kv)) l
  | _ => true
  end.

(** The same value up to the order in which objects list their keys: arrays
    agree element by element, objects have as many properties and agree on
    every key. *)
Fixpoint same_up_to_key_order (a b : Json) : bool :=
  match a, b with
  | JNull, JNull => true
  | JBool x, JBool y => Bool.eqb x y
  | JNum x, JNum y => if number_eq_dec x y then true else false
  | JStr x, JStr y => String.eqb x y
  | JArr l, JArr l' =>
      (fix all (l l' : list Json) : bool :=
         match l, l' with
         | [], [] => true
         | x :: r, y :: r' => same_up_to_key_order x y && all r r'
         | _, _ => false
         end) l l'
  | JObj l, JObj l' =>
      (List.length l =? List.length l')%nat &&
      forallb (fun kv => match lookup (fst kv) l' with
                         | Some y => same_up_to_key_order (snd kv) y
                         | None => false
                         end) l
  | _, _ => false
  end.

(* ================================================================== *)
(** * The service *)
(* ================================================================== *)

(** An interval timer is named by the order in which it was created. *)
Definition timer := nat.

(** What the service emits to its listeners.  A [log] event is kept by its
    first argument.  The listeners are outside the service and are taken to
    return: [emit] does not throw. *)
Inductive Event : Type :=
| log (what : string)
| ready
| scoreboard_update (scoreboard : Json)
| scoreboard_error (gameId : Z) (error : option Json).

(** What a handler does to the world outside the service object. *)
Inductive Effect : Type :=
| emit (e : Event)
| https_get                      (* the request of fetchLeagueLiveClientPlayers *)
| setInterval (t : timer)        (* setInterval(pollLeague, 2000) *)
| clearInterval (t : timer)
| enable (gameId : Z)            (* e.enable() *)
| setRequiredFeatures (gameId : Z) (features : option (list string))
| console_log (what : string)
| uncaught (error : Json).       (* an exception leaves the listener *)

(** The fields of [GameEventsService], and of the runtime the interval
    timers that are set and not cleared, the number of timers created so
    far, and the number of requests that have not settled. *)
Record Service : Type := {
  activeGame : Z;
  gepGamesId : list Z;
  latestScoreboard : Json;
  leaguePollingTimer : option timer;
  lastScoreboardErrorTs : Z;
  intervals : list timer;
  timers_created : nat;
  requests : nat
}.

Definition initial : Service :=
  {| activeGame := 0; gepGamesId := []; latestScoreboard := JNull;
     leaguePollingTimer := None; lastScoreboardErrorTs := 0;
     intervals := []; timers_created := 0; requests := 0 |}.

Definition set_activeGame (g : Z) (s : Service) : Service :=
  {| activeGame := g; gepGamesId := gepGamesId s;
     latestScoreboard := latestScoreboard s;
     leaguePollingTimer := leaguePollingTimer s;
     lastScoreboardErrorTs := lastScoreboardErrorTs s;
     intervals := intervals s; timers_created := timers_created s;
     requests := requests s |}.

Definition set_gepGamesId (ids : list Z) (s : Service) : Service :=
  {| activeGame := activeGame s; gepGamesId := ids;
     latestScoreboard := latestScoreboard s;
     leaguePollingTimer := leaguePollingTimer s;
     lastScoreboardErrorTs := lastScoreboardErrorTs s;
     intervals := intervals s; timers_created := timers_created s;
     requests := requests s |}.

Definition set_latestScoreboard (sb : Json) (s : Service) : Service :=
  {| activeGame := activeGame s; gepGamesId := gepGamesId s;
     latestScoreboard := sb;
     leaguePollingTimer := leaguePollingTimer s;
     lastScoreboardErrorTs := lastScoreboardErrorTs s;
     intervals := intervals s; timers_created := timers_created s;
     requests := requests s |}.

Definition set_lastScoreboardErrorTs (ts : Z) (s : Service) : Service :=
  {| activeGame := activeGame s; gepGamesId := gepGamesId s;
     latestScoreboard := latestScoreboard s;
     leaguePollingTimer := leaguePollingTimer s;
     lastScoreboardErrorTs := ts;
     intervals := intervals s; timers_created := timers_created s;
     requests := requests s |}.

Definition set_requests (n : nat) (s : Service) : Service :=
  {| activeGame := activeGame s; gepGamesId := gepGamesId s;
     latestScoreboard := latestScoreboard s;
     leaguePollingTimer := leaguePollingTimer s;
     lastScoreboardErrorTs := lastScoreboardErrorTs s;
     intervals := intervals s; timers_created := timers_created s;
     requests := n |}.

(** [this.leaguePollingTimer = setInterval(pollLeague, 2000)]: the runtime
    creates a timer, the service keeps it. *)
Definition new_interval (s : Service) : Service :=
  {| activeGame := activeGame s; gepGamesId := gepGamesId s;
     latestScoreboard := latestScoreboard s;
     leaguePollingTimer := Some (timers_created s);
     lastScoreboardErrorTs := lastScoreboardErrorTs s;
     intervals := timers_created s :: intervals s;
     timers_created := S (timers_created s);
     requests := requests s |}.

(** [clearInterval(this.leaguePollingTimer); this.leaguePollingTimer = null] *)
Definition clear_interval (t : timer) (s : Service) : Service :=
  {| activeGame := activeGame s; gepGamesId := gepGamesId s;
     latestScoreboard := latestScoreboard s;
     leaguePollingTimer := None;
     lastScoreboardErrorTs := lastScoreboardErrorTs s;
     intervals := remove Nat.eq_dec t (intervals s);
     timers_created := timers_created s;
     requests := requests s |}.

(** ** Actions: a handler takes the service to a new state and leaves a
    list of effects, in order. *)
Definition Action : Type := Service -> Service * list Effect.

Definition skip : Action := fun s => (s, []).

Definition seq (a b : Action) : Action :=
  fun s => let (s1, o1) := a s in let (s2, o2) := b s1 in (s2, o1 ++ o2).

Infix ">>" := seq (at level 65, right associativity).

Definition perform (e : Effect) : Action := fun s => (s, [e]).

Definition update (f : Service -> Service) : Action := fun s => (f s, []).

Definition when (b : bool) (a : Action) : Action := if b then a else skip.

Definition reading {A : Type} (field : Service -> A) (k : A -> Action) : Action :=
  fun s => k (field s) s.

Definition run (a : Action) (s : Service) : Service := fst (a s).
Definition effects (a : Action) (s : Service) : list Effect := snd (a s).

Section GameEventsService.

(** [kGameIds.LeagueofLegends], of the package
    [@overwolf/ow-electron-packages-types]. *)
Variable LeagueofLegends : Z.

(** [[
private getRequiredFeatures(gameId: number): string[] | null {
  if (gameId === kGameIds.LeagueofLegends) { return ['live_client_data']; }
  return null;
}
]] *)
Definition getRequiredFeatures (gameId : Z) : option (list string) :=
  if gameId =? LeagueofLegends then Some ["live_client_data"] else None.

(** The body of [pollLeague] up to its [await]: the guard and the request.
[[
  const pollLeague = async () => {
    if (this.activeGame !== kGameIds.LeagueofLegends) { return; }
    try {
      const players = await this.fetchLeagueLiveClientPlayers();
]] *)
Definition pollLeague : Action :=
  reading activeGame (fun active =>
  if negb (active =? LeagueofLegends) then skip
  else perform https_get >> update (fun s => set_requests (S (requests s)) s)).

(** [[
private startLeaguePolling(force = false) {
  if (this.leaguePollingTimer) { return; }
  if (!force && this.activeGame !== kGameIds.LeagueofLegends) { return; }
  const pollLeague = async () => { ... };
  pollLeague();
  this.leaguePollingTimer = setInterval(pollLeague, 2000);
}
]] *)
Definition startLeaguePolling (force : bool) : Action :=
  reading leaguePollingTimer (fun polling =>
  match polling with
  | Some _ => skip
  | None =>
      reading activeGame (fun active =>
      if negb force && negb (active =? LeagueofLegends) then skip
      else pollLeague >>
           (fun s => (new_interval s, [setInterval (timers_created s)])))
  end).

(** [[
private stopLeaguePolling() {
  if (this.leaguePollingTimer) {
    clearInterval(this.leaguePollingTimer);
    this.leaguePollingTimer = null;
  }
}
]] *)
Definition stopLeaguePolling : Action :=
  reading leaguePollingTimer (fun polling =>
  match polling with
  | Some t => perform (clearInterval t) >> update (clear_interval t)
  | None => skip
  end).

(** The [catch] block of [pollLeague]; [now] and [now'] are what the two
    calls of [Date.now()] return.
[[
    } catch (error) {
      this.emit('log', 'league-live-client-error', (error as Error)?.message ?? error);
      if (Date.now() - this.lastScoreboardErrorTs > 5000) {
        this.lastScoreboardErrorTs = Date.now();
        this.emit('scoreboard-error', {
          gameId: kGameIds.LeagueofLegends,
          error: (error as Error)?.message ?? error ?? 'league-live-client-error',
        });
      }
    }
]] *)
Definition pollLeague_catch (error : Json) (now now' : Z) : Action :=
  perform (emit (log "league-live-client-error")) >>
  reading lastScoreboardErrorTs (fun last =>
  when (5000 <? now - last)
    (update (set_lastScoreboardErrorTs now') >>
     perform (emit (scoreboard_error LeagueofLegends
       (Some (get (Some error) "message" ?? Some error
              ??! JStr "league-live-client-error")))))).

(** The [try] block of [pollLeague] from its [await] on, up to the point
    where nothing can throw any more: [players] is what the promise of
    [fetchLeagueLiveClientPlayers] resolved to, or the reason it was
    rejected with, which the [await] throws.
[[
      const players = await this.fetchLeagueLiveClientPlayers();
      if (!Array.isArray(players)) { throw new Error('Invalid live client response'); }
      const scoreboard: LeagueScoreboard = {
        players: players.map((player: any) => this.mapLeaguePlayer(player)),
      };
]] *)
Definition pollLeague_try (players : completion Json) : completion (list Json) :=
  players <- players ;;
  if negb (Array_isArray (Some players))
  then Throw (Error "Invalid live client response")
  else mapPlayers (elements_of (Some players)).

(** The rest of [pollLeague], once the request has settled.
[[
      const changed = JSON.stringify(scoreboard) !== JSON.stringify(this.latestScoreboard);
      this.latestScoreboard = scoreboard;
      if (changed) { this.emit('scoreboard-update', scoreboard); }
      this.lastScoreboardErrorTs = 0;
    } catch (error) { ... }
]] *)
Definition pollLeague_settled (players : completion Json) (now now' : Z) : Action :=
  match pollLeague_try players with
  | Throw error => pollLeague_catch error now now'
  | Normal mapped =>
      let scoreboard := LeagueScoreboard mapped in
      reading latestScoreboard (fun latest =>
      let changed := changed scoreboard latest in
      update (set_latestScoreboard scoreboard) >>
      when changed (perform (emit (scoreboard_update scoreboard))) >>
      update (set_lastScoreboardErrorTs 0))
  end.

(** [handleLiveClientResponse], at the end of the response: [body] is what
    [JSON.parse] makes of the text received.
[[
    if (response.statusCode && response.statusCode >= 400) {
      reject(new Error(`live client http ${response.statusCode}`));
      return;
    }
    try { const payload = JSON.parse(...); resolve(payload); }
    catch (error) { reject(error); }
]] *)
Definition handleLiveClientResponse (statusCode : option Z) (body : completion Json)
  : completion Json :=
  match statusCode with
  | Some status =>
      if negb (status =? 0) && (400 <=? status)
      then Throw (Error ("live client http " ++
                         NilZero.string_of_int (Z.to_int status))%string)
      else body
  | None => body
  end.

(** [[
private handleLeagueInfoUpdate(info: any) {
  if (!info) { return; }
  this.startLeaguePolling();
  const liveClientData = info.live_client_data ?? info.info?.live_client_data;
  const allPlayers = liveClientData?.allPlayers;
  if (!Array.isArray(allPlayers)) { return; }
  const scoreboard: LeagueScoreboard = {
    players: allPlayers.map((player: any) => this.mapLeaguePlayer(player)),
  };
  const changed = JSON.stringify(scoreboard) !== JSON.stringify(this.latestScoreboard);
  this.latestScoreboard = scoreboard;
  if (changed) { this.emit('scoreboard-update', scoreboard); }
}
]] *)
Definition allPlayers_of (info : option Json) : option Json :=
  let liveClientData :=
    get info "live_client_data" ?? get (get info "info") "live_client_data" in
  get liveClientData "allPlayers".

Definition handleLeagueInfoUpdate (info : option Json) : Action :=
  match info with
  | None => skip
  | Some i =>
      if negb (truthy i) then skip else
      startLeaguePolling false >>
      let allPlayers := allPlayers_of info in
      if negb (Array_isArray allPlayers) then skip else
      match mapPlayers (elements_of allPlayers) with
      | Throw error => perform (uncaught error)
      | Normal mapped =>
          let scoreboard := LeagueScoreboard mapped in
          reading latestScoreboard (fun latest =>
          let changed := changed scoreboard latest in
          update (set_latestScoreboard scoreboard) >>
          when changed (perform (emit (scoreboard_update scoreboard))))
      end
  end.

(** [[
public registerGames(gepGamesId: number[]) {
  this.emit('log', `register to game events for `, gepGamesId);
  this.gepGamesId = gepGamesId;
}
]] *)
Definition registerGames (ids : list Z) : Action :=
  perform (emit (log "register to game events for ")) >>
  update (set_gepGamesId ids).

(** [setRequiredFeaturesForAllSupportedGames]: every callback of the
    [map] runs up to its [await]. *)
Definition setRequiredFeaturesForAllSupportedGames : Action :=
  reading gepGamesId (fun ids =>
  fold_right (fun gameId rest =>
                perform (emit (log "set-required-feature for: ")) >>
                perform (setRequiredFeatures gameId (getRequiredFeatures gameId)) >>
                rest)
             skip ids).

(** The listener of the package manager's [ready]. *)
Definition on_ready (packageName : string) : Action :=
  if negb (String.eqb packageName "gep") then skip else
  perform (emit (log "gep package is ready: ")) >>
  setRequiredFeaturesForAllSupportedGames >>
  perform (emit ready).

(** [this.gepGamesId.includes(gameId)] *)
Definition includes (gameId : Z) (ids : list Z) : bool :=
  existsb (Z.eqb gameId) ids.

(** The listener of [game-detected]. *)
Definition on_game_detected (gameId : Z) : Action :=
  reading gepGamesId (fun ids =>
  if negb (includes gameId ids)
  then perform (emit (log "gep: skip game-detected"))
  else
    perform (emit (log "gep: register game-detected")) >>
    perform (enable gameId) >>
    update (set_activeGame gameId) >>
    when (gameId =? LeagueofLegends) (startLeaguePolling false) >>
    match getRequiredFeatures gameId with
    | Some features => perform (setRequiredFeatures gameId (Some features))
    | None => skip
    end).

(** The listener of [game-exit]. *)
Definition on_game_exit (gameId : Z) : Action :=
  perform (console_log "gep game exit") >>
  reading activeGame (fun active =>
    when (active =? gameId) (update (set_activeGame 0))) >>
  when (gameId =? LeagueofLegends)
    (stopLeaguePolling >> update (set_latestScoreboard JNull)).

(** The listener of [new-info-update]; [info] is [args[0]]. *)
Definition on_new_info_update (gameId : Z) (info : option Json) : Action :=
  perform (emit (log "info-update")) >>
  when (gameId =? LeagueofLegends) (handleLeagueInfoUpdate info).

(** [[
      const normalizedError =
        typeof error === 'object' && error && 'message' in error
          ? (error as any).message
          : error || 'unknown-error';
]] *)
Definition normalizedError (error : option Json) : option Json :=
  match error with
  | Some (JObj l) =>
      if has_key "message" l then lookup "message" l else error
  | Some e => if truthy e then error else Some (JStr "unknown-error")
  | None => Some (JStr "unknown-error")
  end.

(** The listener of the package's [error]. *)
Definition on_error (gameId : Z) (error : option Json) : Action :=
  perform (emit (log "gep-error")) >>
  when (gameId =? LeagueofLegends) (startLeaguePolling true) >>
  when (gameId =? LeagueofLegends)
    (perform (emit (scoreboard_error gameId (normalizedError error)))) >>
  reading activeGame (fun active =>
    when (active =? gameId) (update (set_activeGame 0))).

(** ** The callbacks the runtime and the host make *)
Inductive Callback : Type :=
| call_registerGames (ids : list Z)
| package_ready (packageName : string)
| game_detected (gameId : Z)
| game_exit (gameId : Z)
| elevated_privileges_required (gameId : Z)
| new_info_update (gameId : Z) (info : option Json)
| new_game_event (gameId : Z)
| gep_error (gameId : Z) (error : option Json)
| set_required_features_rejected (gameId : Z)
| interval_fires (t : timer)
| request_error (err : Json) (now now' : Z)
| response_end (statusCode : option Z) (body : completion Json) (now now' : Z).

(** A request settles once: the promise of a pending request is resolved
    or rejected, and [pollLeague] goes on from its [await]. *)
Definition settle (players : completion Json) (now now' : Z) : Action :=
  reading requests (fun pending =>
  match pending with
  | O => skip
  | S n => update (set_requests n) >> pollLeague_settled players now now'
  end).

Definition handle (c : Callback) : Action :=
  match c with
  | call_registerGames ids => registerGames ids
  | package_ready packageName => on_ready packageName
  | game_detected gameId => on_game_detected gameId
  | game_exit gameId => on_game_exit gameId
  | elevated_privileges_required gameId =>
      perform (emit (log "elevated-privileges-required"))
  | new_info_update gameId info => on_new_info_update gameId info
  | new_game_event gameId => perform (emit (log "new-event"))
  | gep_error gameId error => on_error gameId error
  | set_required_features_rejected gameId =>
      perform (emit (log "set-required-features-error"))
  | interval_fires t =>
      reading intervals (fun active =>
      if in_dec Nat.eq_dec t active then pollLeague else skip)
  | request_error err now now' => settle (Throw err) now now'
  | response_end statusCode body now now' =>
      settle (handleLiveClientResponse statusCode body) now now'
  end.

(** The states the service goes through. *)
Inductive reachable : Service -> Prop :=
| reachable_initial : reachable initial
| reachable_step : forall s c, reachable s -> reachable (run (handle c) s).

(** Running a list of callbacks one after the other. *)
Fixpoint handle_all (cs : list Callback) : Action :=
  match cs with
  | [] => skip
  | c :: rest => handle c >> handle_all rest
  end.

End GameEventsService.

(** The number of [scoreboard-error] events, and whether there is a
    [scoreboard-update] or a request, among the effects of a handler. *)
Definition is_scoreboard_error (e : Effect) : bool :=
  match e with emit (scoreboard_error _ _) => true | _ => false end.

Definition is_scoreboard_update (e : Effect) : bool :=
  match e with emit (scoreboard_update _) => true | _ => false end.

Definition is_log (e : Effect) : bool :=
  match e with emit (log _) => true | _ => false end.

Definition is_https_get (e : Effect) : bool :=
  match e with https_get => true | _ => false end.

Definition count (p : Effect -> bool) (out : list Effect) : nat :=
  List.length (filter p out).

(* ================================================================== *)
(** * Notions the properties are stated with *)
(* ================================================================== *)

(** A raw field is missing when reading it gives [undefined] or [null]. *)
Definition missing (v : option Json) : Prop := v = undefined \/ v = Some JNull.

(** [z] is the integer nearest to [q], the larger one of two equally near. *)
Definition rounds_to (q : Q) (z : Z) : Prop :=
  (inject_Z z - (1 # 2) <= q)%Q /\ (q < inject_Z z + (1 # 2))%Q.

(** The six values [mapLeaguePlayer] hands to [normalizeStat]. *)
Definition stat_values (player : option Json) : list (option Json) :=
  let statsSource := statsSource_of player in
  [ get player "level" ?? get statsSource "level";
    get statsSource "maxHealth" ?? get statsSource "hp";
    get statsSource "attackDamage" ?? get statsSource "ad";
    get statsSource "abilityPower" ?? get statsSource "ap";
    get statsSource "armor";
    get statsSource "magicResist" ?? get statsSource "magicResistance" ??
    get statsSource "mr" ].

(** [Number(value)] returns. *)
Definition converts (value : option Json) : bool :=
  match value with
  | Some v => negb (ToPrimitive_throws v)
  | None => true
  end.

(** Every stat of the raw player converts: no call of [Number] throws. *)
Definition stats_convert (player : option Json) : bool :=
  forallb converts (stat_values player).

(** A stat of a canonical player. *)
Definition stat (player : Json) (key : string) : option Json :=
  get (get (Some player) "stats") key.

(** The items of a canonical player. *)
Definition items_of (player : Json) : list Json :=
  elements_of (get (Some player) "items").

(** The count of an item is a number and at least one. *)
Definition count_at_least_one (item : Json) : Prop :=
  exists z, get (Some item) "count" = Some (JNum (Int z)) /\ 1 <= z.

(** A value [normalizeStat] may return: [null] or an integer. *)
Definition normalised (r : Json) : Prop := r = JNull \/ exists z, r = JNum (Int z).

(** The first token of a value is none of the closing and separating ones. *)
Definition opens_value (t : token) : bool :=
  match t with
  | RBrace | RBracket | Comma | Colon => false
  | _ => true
  end.

(** The text of a value with finite numbers determines the value, and where
    the text ends. *)
Definition determined (a : Json) : Prop :=
  finite_numbers a = true ->
  forall b r r', finite_numbers b = true ->
    JSON_stringify a ++ r = JSON_stringify b ++ r' -> a = b /\ r = r'.

(** The service holds the timers the runtime has: the one it keeps in
    [leaguePollingTimer], or none. *)
Definition one_timer (s : Service) : Prop :=
  intervals s = match leaguePollingTimer s with
                | Some t => [t]
                | None => []
                end.

(** The service is polling. *)
Definition polling (s : Service) : bool :=
  match leaguePollingTimer s with
  | Some _ => true
  | None => false
  end.

(** The stored error timestamp is zero: the next failed poll reports. *)
Definition error_window_open (s : Service) : Prop := lastScoreboardErrorTs s = 0.

(** An action keeps a property of the service. *)
Definition preserves (P : Service -> Prop) (a : Action) : Prop :=
  forall s, P s -> P (run a s).

(** The callback settles a request with a failure of the poll cycle. *)
Definition is_poll_failure (c : Callback) : bool :=
  match c with
  | request_error _ _ _ => true
  | response_end statusCode body _ _ =>
      match pollLeague_try (handleLiveClientResponse statusCode body) with
      | Throw _ => true
      | Normal _ => false
      end
  | _ => false
  end.

(** ** Data of the examples *)

(** The player of the scenario in the specification; [7.6] is the binary64
    number [4278419646001971 / 2^49]. *)
Definition Faker : Json :=
  JObj [ ("summonerName", JStr "Faker"); ("championName", JStr "Ahri");
         ("team", JStr "ORDER");
         ("championStats", JObj [("level", JNum (Frac 2139209823000985 49));
                                 ("hp", JStr "1200")]);
         ("items", JArr [JObj [("displayName", JStr "Boots");
                               ("itemID", JNum (Int 1001));
                               ("count", JNum (Int 2))]]) ].

Definition Boots : Json :=
  LeagueScoreboardItem (JStr "Boots") (JStr "Boots") (JNum (Int 1001)) (JNum (Int 1)).

Definition Ward : Json :=
  LeagueScoreboardItem (JStr "Ward") (JStr "Ward") (JNum (Int 3340)) (JNum (Int 1)).

Definition Ahri (items : list Json) : Json :=
  LeagueScoreboardPlayer (JStr "Faker") (JStr "Ahri") (JStr "ORDER") (JNum (Int 8))
    (LeagueScoreboardStats (JNum (Int 1200)) JNull JNull JNull JNull) items.

(** A raw player with a null entry, an item without a count, and an item
    with the count [2] among its items. *)
Definition three_entries : Json :=
  JObj [("items", JArr [ JNull;
                         JObj [("displayName", JStr "Boots")];
                         JObj [("count", JNum (Int 2))] ])].

(** A raw player with an item whose count is [0]. *)
Definition zero_count : Json :=
  JObj [("items", JArr [JObj [("displayName", JStr "Boots"); ("count", JNum (Int 0))]])].

(** Two raw players whose team is the same object with its keys in two
    orders. *)
Definition team_id_name : Json :=
  JObj [("team", JObj [("id", JNum (Int 100)); ("name", JStr "ORDER")])].

Definition team_name_id : Json :=
  JObj [("team", JObj [("name", JStr "ORDER"); ("id", JNum (Int 100))])].

(** The game id of League of Legends in the overwolf game list. *)
Definition League : Z := 5426.

(** The error of a refused connection. *)
Definition ECONNREFUSED : Json := Error "connect ECONNREFUSED 127.0.0.1:2999".

(** The service once League is registered and detected: it polls, and has
    one request under way. *)
Definition in_game : Service :=
  run (handle League (call_registerGames [League]) >> handle League (game_detected League))
      initial.

(** The request is refused, at a time when both readings of the clock give
    [now]. *)
Definition refused_at (now : Z) : Callback := request_error ECONNREFUSED now now.

(** An info update that carries the players [players]. *)
Definition info_with (players : list Json) : Json :=
  JObj [("live_client_data", JObj [("allPlayers", JArr players)])].

(* ================================================================== *)
(** * The renderer: escaping and initials *)
(* ================================================================== *)

(** The pure string helpers of the renderer that shows the scoreboard.
    [escapeAttribute] is taken at a string or a nullish value ([None]); a
    number would first be printed. *)

(** [s.replace(/c/g, by)] for a single character [c] and a replacement
    without [$]. *)
Fixpoint replace_all (c : ascii) (by_ : string) (s : string) : string :=
  match s with
  | EmptyString => EmptyString
  | String x rest =>
      if Ascii.eqb x c then (by_ ++ replace_all c by_ rest)%string
      else String x (replace_all c by_ rest)
  end.

(** The double quote, the character of code 34. *)
Definition quote : ascii := ascii_of_nat 34.

(** [escapeAttribute]: five replacements one after the other, the ampersand
    first; the second one is of the double quote, written QUOTE here.
[[
function escapeAttribute(value: string | number | null | undefined): string {
  return String(value ?? '')
    .replace(/&/g, '&amp;')
    .replace(/QUOTE/g, '&quot;')
    .replace(/'/g, '&#39;')
    .replace(/</g, '&lt;')
    .replace(/>/g, '&gt;');
}
]] *)
Definition escapeAttribute (value : option string) : string :=
  let s := match value with Some s => s | None => "" end in
  replace_all ">" "&gt;"
    (replace_all "<" "&lt;"
       (replace_all "'" "&#39;"
          (replace_all quote "&quot;"
             (replace_all "&" "&amp;" s)))).

(** [/[A-Za-z]/] *)
Definition is_letter (c : ascii) : bool :=
  let n := code c in
  ((65 <=? n) && (n <=? 90)) || ((97 <=? n) && (n <=? 122)).

(** [s.replace(/[^A-Za-z]/g, '')] *)
Fixpoint letters_of (s : string) : string :=
  match s with
  | EmptyString => EmptyString
  | String x rest => if is_letter x then String x (letters_of rest) else letters_of rest
  end.

(** [toUpperCase()] on a letter of [A-Za-z], which is all the code applies
    it to. *)
Definition upper (c : ascii) : ascii :=
  let n := code c in
  if (97 <=? n) && (n <=? 122) then ascii_of_nat (Z.to_nat (n - 32)) else c.

Fixpoint toUpperCase (s : string) : string :=
  match s with
  | EmptyString => EmptyString
  | String x rest => String (upper x) (toUpperCase rest)
  end.

(** [[
function getChampionInitials(championName: string): string {
  const letters = (championName ?? '').replace(/[^A-Za-z]/g, '').slice(0, 2);
  return letters ? letters.toUpperCase() : '??';
}
]]
    The champion of a canonical player is the raw value as it came: on a
    value that is neither nullish nor a string there is no [replace] to
    call, and the call throws a TypeError. *)
Definition getChampionInitials (championName : option Json) : completion string :=
  match championName ??! JStr "" with
  | JStr s =>
      let letters := substring 0 2 (letters_of s) in
      Normal (if String.eqb letters "" then "??" else toUpperCase letters)
  | _ => Throw (Error "replace is not a function")
  end.

(** The characters of a string. *)
Definition chars (s : string) : list ascii := list_ascii_of_string s.

(** What [escapeAttribute] makes of one character. *)
Definition escape_char (x : ascii) : string :=
  if Ascii.eqb x "&" then "&amp;"
  else if Ascii.eqb x quote then "&quot;"
  else if Ascii.eqb x "'" then "&#39;"
  else if Ascii.eqb x "<" then "&lt;"
  else if Ascii.eqb x ">" then "&gt;"
  else String x EmptyString.

Fixpoint escape_each (s : string) : string :=
  match s with
  | EmptyString => EmptyString
  | String x rest => (escape_char x ++ escape_each rest)%string
  end.

(** A character that would end or open markup inside a quoted attribute. *)
Definition breaks_attribute (x : ascii) : bool :=
  Ascii.eqb x quote || Ascii.eqb x "'" || Ascii.eqb x "<" || Ascii.eqb x ">".

(** An upper-case letter. *)
Definition is_upper (c : ascii) : bool := (65 <=? code c) && (code c <=? 90).

(* ================================================================== *)
(** * Notions of the further properties *)
(* ================================================================== *)

(** A raw field is present when reading it gives a value other than
    [null]. *)
Definition present (v : option Json) (j : Json) : Prop := v = Some j /\ j <> JNull.

(** The shape of what the normaliser returns: the keys of the three object
    literals in their order, a level and stats that are [null] or integers,
    and no [null] where a default applies. *)
Definition canonical_item (item : Json) : Prop :=
  exists name rawDisplay itemId count,
    item = LeagueScoreboardItem name rawDisplay itemId count /\
    name <> JNull /\ rawDisplay <> JNull /\ itemId <> JNull /\ count <> JNull.

Definition canonical_player (c : Json) : Prop :=
  exists name champion team level maxHealth attackDamage abilityPower armor magicResist items,
    c = LeagueScoreboardPlayer name champion team level
          (LeagueScoreboardStats maxHealth attackDamage abilityPower armor magicResist)
          items /\
    name <> JNull /\ champion <> JNull /\ team <> JNull /\
    normalised level /\ normalised maxHealth /\ normalised attackDamage /\
    normalised abilityPower /\ normalised armor /\ normalised magicResist /\
    Forall canonical_item items.

(** The snapshot is [null] or a scoreboard of canonical players. *)
Definition canonical_snapshot (v : Json) : Prop :=
  v = JNull \/
  exists players, v = LeagueScoreboard players /\ Forall canonical_player players.

(** The record of a player about whom nothing is known. *)
Definition unknown_player : Json :=
  LeagueScoreboardPlayer (JStr "Unknown") (JStr "") (JStr "ORDER") JNull
    (LeagueScoreboardStats JNull JNull JNull JNull JNull) [].

(** The calls of [setRequiredFeatures] among the effects, in order. *)
Definition feature_requests (out : list Effect) : list (Z * option (list string)) :=
  flat_map (fun e => match e with
                     | setRequiredFeatures gameId features => [(gameId, features)]
                     | _ => []
                     end) out.

Definition is_enable (e : Effect) : bool :=
  match e with enable _ => true | _ => false end.

(** An info update in the other shape: the data one level down, under
    [info]. *)
Definition info_nested (players : list Json) : Json :=
  JObj [("info", JObj [("live_client_data", JObj [("allPlayers", JArr players)])])].

(** A raw player with a [stats] object beside the [championStats] of the
    scenario, and the record it normalises to. *)
Definition two_sources : Json :=
  JObj [ ("championStats", JObj [("level", JNum (Frac 2139209823000985 49));
                                 ("hp", JStr "1200")]);
         ("stats", JObj [("hp", JNum (Int 1)); ("armor", JNum (Int 50))]) ].

Definition level_8_hp_1200 : Json :=
  LeagueScoreboardPlayer (JStr "Unknown") (JStr "") (JStr "ORDER") (JNum (Int 8))
    (LeagueScoreboardStats (JNum (Int 1200)) JNull JNull JNull JNull) [].

(** A raw player whose [maxHealth] is not a number and whose [hp] is. *)
Definition health_not_available : Json :=
  JObj [("stats", JObj [("maxHealth", JStr "n/a"); ("hp", JNum (Int 1200))])].

(** A raw player whose level does not convert to a number. *)
Definition level_throws : Json :=
  JObj [("level", JObj [("toString", JNum (Int 1))])].

(** While League is not the active game, the action makes no request and
    does not make League the active game. *)
Definition keeps_quiet (LeagueofLegends : Z) (a : Action) : Prop :=
  forall s, activeGame s <> LeagueofLegends ->
    count is_https_get (effects a s) = 0%nat /\
    activeGame (run a s) <> LeagueofLegends.


(** The action leaves the snapshot as it is or drops it, and reports no
    update. *)
Definition keeps_snapshot (a : Action) : Prop :=
  forall s,
    (latestScoreboard (run a s) = latestScoreboard s \/
     latestScoreboard (run a s) = JNull) /\
    filter is_scoreboard_update (effects a s) = [].

(** A value is falsy: [undefined], or a value that is not truthy. *)
Definition falsy (v : option Json) : Prop :=
  forall j, v = Some j -> truthy j = false.

(** Two raw players whose team is a number too large for a binary64:
    [JSON.parse] reads [1e400] as [Infinity] and [-1e400] as [-Infinity],
    and [JSON.stringify] writes both as [null]. *)
Definition team_1e400 : Json := JObj [("team", JNum (Infinity false))].

Definition team_minus_1e400 : Json := JObj [("team", JNum (Infinity true))].

(** The record of a player of whom only the team is known. *)
Definition of_team (team : Json) : Json :=
  LeagueScoreboardPlayer (JStr "Unknown") (JStr "") team JNull
    (LeagueScoreboardStats JNull JNull JNull JNull JNull) [].
(* ================================================================== *)
(** * The built-ins on known values *)
(* ================================================================== *)

Example Number_of_numeral : StringToNumber "1200" = Int 1200.
Proof. reflexivity. Qed.

Example Number_trims : StringToNumber "  12 " = Int 12.
Proof. reflexivity. Qed.

Example Number_of_empty : StringToNumber "" = Int 0.
Proof. reflexivity. Qed.

Example Number_of_letters : StringToNumber "abc" = NaN.
Proof. reflexivity. Qed.

Example Number_of_unit_suffix : StringToNumber "12px" = NaN.
Proof. reflexivity. Qed.

Example Number_of_hex : StringToNumber "0x1F" = Int 31.
Proof. reflexivity. Qed.

Example Number_of_exponent : StringToNumber "1.5e3" = Int 1500.
Proof. reflexivity. Qed.

(** [7.6] is the binary64 number [4278419646001971 / 2^49]. *)
Example Number_of_level : StringToNumber "7.6" = Frac 2139209823000985 49.
Proof. vm_compute. reflexivity. Qed.

Example normalizeStat_of_level : normalizeStat (Some (JStr "7.6")) = Normal (JNum (Int 8)).
Proof. vm_compute. reflexivity. Qed.

Example normalizeStat_of_white_space : normalizeStat (Some (JStr "  ")) = Normal (JNum (Int 0)).
Proof. reflexivity. Qed.

(** [0.1] is the binary64 number [3602879701896397 / 2^55]. *)
Example Number_of_tenth : StringToNumber "0.1" = Frac 1801439850948198 55.
Proof. vm_compute. reflexivity. Qed.

(** One more than [2^53] is a tie and goes to the even significand. *)
Example Number_ties_to_even : StringToNumber "9007199254740993" = Int 9007199254740992.
Proof. vm_compute. reflexivity. Qed.

Example Number_overflows : StringToNumber "1e400" = Infinity false.
Proof. vm_compute. reflexivity. Qed.

Example Number_underflows : StringToNumber "1e-400" = Int 0.
Proof. vm_compute. reflexivity. Qed.

Example Number_of_Infinity : StringToNumber "-Infinity" = Infinity true.
Proof. reflexivity. Qed.

Example Math_round_half_up : Math_round (Frac 2 1) = Int 3.
Proof. reflexivity. Qed.

Example Math_round_negative_half : Math_round (Frac (-3) 1) = Int (-2).
Proof. reflexivity. Qed.

Example Number_of_null : Number (Some JNull) = Normal (Int 0).
Proof. reflexivity. Qed.

Example Number_of_true : Number (Some (JBool true)) = Normal (Int 1).
Proof. reflexivity. Qed.

Example Number_of_empty_array : Number (Some (JArr [])) = Normal (Int 0).
Proof. reflexivity. Qed.

Example Number_of_singleton : Number (Some (JArr [JStr "12"])) = Normal (Int 12).
Proof. reflexivity. Qed.

Example Number_of_pair : Number (Some (JArr [JNum (Int 1); JNum (Int 2)])) = Normal NaN.
Proof. reflexivity. Qed.

Example Number_of_object : Number (Some (JObj [("hp", JNum (Int 1))])) = Normal NaN.
Proof. reflexivity. Qed.

Example Number_throws :
  Number (Some (JObj [("toString", JNum (Int 1))])) = Throw TypeError.
Proof. reflexivity. Qed.

Example stringify_scoreboard :
  JSON_stringify (LeagueScoreboard [JObj [("level", JNum (Int 8)); ("armor", JNull)]]) =
  [ LBrace; TString "players"; Colon; LBracket;
    LBrace; TString "level"; Colon; TNumber (Int 8); Comma;
            TString "armor"; Colon; TNull; RBrace;
    RBracket; RBrace ].
Proof. reflexivity. Qed.

(* ================================================================== *)
(** * Properties of the stat normaliser *)
(* ================================================================== *)

Lemma rounds_to_half_up (n p : Z) (d : positive) :
  Z.pos d = 2 * p -> rounds_to (n # d) ((n + p) / Z.pos d).
Proof.
  intros Hd.
  pose proof (Z.div_mod (n + p) (Z.pos d) ltac:(lia)) as Hdm.
  pose proof (Z.mod_pos_bound (n + p) (Z.pos d) ltac:(lia)) as Hb.
  revert Hdm Hb. generalize ((n + p) / Z.pos d) ((n + p) mod Z.pos d).
  intros z r Hdm Hb.
  unfold rounds_to, Qle, Qlt, Qminus, Qplus, Qopp, inject_Z; cbn [Qnum Qden].
  rewrite !Pos2Z.inj_mul. lia.
Qed.

(** [Math.round] of a finite number is the nearest integer. *)
Lemma Math_round_nearest x q :
  value x = Some q -> exists z, Math_round x = Int z /\ rounds_to q z.
Proof.
  destruct x as [| neg | z | h k]; cbn [value Math_round];
    intros H; inversion H; subst; clear H.
  - exists z. split; [reflexivity|].
    unfold rounds_to, Qle, Qlt, Qminus, Qplus, Qopp, inject_Z; cbn [Qnum Qden]. lia.
  - eexists. split; [reflexivity|].
    replace (2 ^ Z.pos k) with (Z.pos (2 ^ k)) by (rewrite Pos2Z.inj_pow; reflexivity).
    apply rounds_to_half_up.
    rewrite Pos2Z.inj_pow.
    replace (Z.pos k) with (1 + (Z.pos k - 1)) at 1 by lia.
    rewrite Z.pow_add_r by lia. reflexivity.
Qed.

Lemma finite_has_value x :
  Number_isFinite x = true -> exists q, value x = Some q.
Proof. destruct x; cbn; intros H; try discriminate; eauto. Qed.

Lemma normalizeStat_undefined : normalizeStat undefined = Normal JNull.
Proof. reflexivity. Qed.

Lemma normalizeStat_Int z : normalizeStat (Some (JNum (Int z))) = Normal (JNum (Int z)).
Proof. reflexivity. Qed.

Lemma normalizeStat_null : normalizeStat (Some JNull) = Normal (JNum (Int 0)).
Proof. reflexivity. Qed.

(** What [normalizeStat] returns is [null] or an integer. *)
Lemma normalizeStat_cases value r :
  normalizeStat value = Normal r -> r = JNull \/ exists z, r = JNum (Int z).
Proof.
  unfold normalizeStat. destruct (Number value) as [x|e]; cbn; [|discriminate].
  destruct (Number_isFinite x) eqn:Hf; cbn; intros H; inversion H; subst; auto.
  right. destruct (finite_has_value x Hf) as [q Hq].
  destruct (Math_round_nearest x q Hq) as (z & -> & _). eauto.
Qed.

(** [normalizeStat] returns whenever [Number] does. *)
Lemma normalizeStat_returns value :
  converts value = true -> exists r, normalizeStat value = Normal r.
Proof.
  unfold normalizeStat, converts, Number. destruct value as [v|]; cbn.
  - destruct (ToPrimitive_throws v); cbn; [discriminate|]. intros _.
    destruct (Number_isFinite (ToNumber v)); cbn; eauto.
  - eauto.
Qed.

(** A string converts without throwing. *)
Lemma Number_string s : Number (Some (JStr s)) = Normal (StringToNumber s).
Proof. reflexivity. Qed.

(** C5, as the code has it.  A value that is [undefined], or a string that
    after trimming is neither empty nor a numeric literal, normalises to
    [null], and so does every value whose numeric conversion is not finite;
    a value whose numeric conversion [x] is finite normalises to the integer
    nearest to [x], a half going up.  (The empty string and a string of white
    space convert to [0] and are not in the first case.) *)
Theorem normalizeStat_null_or_rounded (raw : option Json) :
  (raw = undefined -> normalizeStat raw = Normal JNull) /\
  (forall s, raw = Some (JStr s) ->
     trim (list_ascii_of_string s) <> [] ->
     StrNumericLiteral (trim (list_ascii_of_string s)) = None ->
     normalizeStat raw = Normal JNull) /\
  (forall x, Number raw = Normal x -> Number_isFinite x = false ->
     normalizeStat raw = Normal JNull) /\
  (forall x q, Number raw = Normal x -> value x = Some q ->
     exists z, normalizeStat raw = Normal (JNum (Int z)) /\ rounds_to q z).
Proof.
  split; [|split; [|split]].
  - intros ->. reflexivity.
  - intros s -> Hne Hlit. unfold normalizeStat. rewrite Number_string.
    unfold StringToNumber.
    destruct (trim (list_ascii_of_string s)) as [|c l] eqn:Ht; [congruence|].
    rewrite Hlit. reflexivity.
  - intros x Hx Hf. unfold normalizeStat. rewrite Hx. cbn [bind]. rewrite Hf. reflexivity.
  - intros x q Hx Hq. unfold normalizeStat. rewrite Hx. cbn [bind].
    destruct (Math_round_nearest x q Hq) as (z & Hz & Hr).
    assert (Hf : Number_isFinite x = true) by (destruct x; cbn in *; congruence).
    rewrite Hf, Hz. cbn. eauto.
Qed.

(** C5 at the string ["abc"], which is not a numeric literal and gives
    [null], at ["1e400"], which converts to infinity and gives [null], and at
    ["7.6"], which converts to a finite number and gives [8]. *)
Lemma normalizeStat_null_or_rounded_witness :
  normalizeStat (Some (JStr "abc")) = Normal JNull /\
  normalizeStat (Some (JStr "1e400")) = Normal JNull /\
  exists z, normalizeStat (Some (JStr "7.6")) = Normal (JNum (Int z)) /\
            rounds_to (4278419646001971 # 562949953421312) z.
Proof.
  split; [|split].
  - apply (proj1 (proj2 (normalizeStat_null_or_rounded (Some (JStr "abc")))) "abc").
    + reflexivity.
    + vm_compute. discriminate.
    + vm_compute. reflexivity.
  - apply (proj1 (proj2 (proj2 (normalizeStat_null_or_rounded (Some (JStr "1e400")))))
             (Infinity false)).
    + vm_compute. reflexivity.
    + reflexivity.
  - apply (proj2 (proj2 (proj2 (normalizeStat_null_or_rounded (Some (JStr "7.6")))))
             (Frac 2139209823000985 49) (4278419646001971 # 562949953421312)).
    + vm_compute. reflexivity.
    + reflexivity.
Defined.

(** C5 as stated fails on the empty string: it is not a numeric literal,
    and [normalizeStat] gives [0] for it, not [null]. *)
Lemma normalizeStat_empty_string_counterexample :
  StrNumericLiteral (list_ascii_of_string "") = None /\
  normalizeStat (Some (JStr "")) = Normal (JNum (Int 0)) /\
  normalizeStat (Some (JStr "")) <> Normal JNull.
Proof.
  split; [reflexivity|]. split; [reflexivity|]. discriminate.
Qed.
(* ================================================================== *)
(** * Properties of the player normaliser *)
(* ================================================================== *)

Lemma otherwise_missing a d : missing a -> a ??! d = d.
Proof. intros [-> | ->]; reflexivity. Qed.

Lemma otherwise_present v d : v <> JNull -> Some v ??! d = v.
Proof. destruct v; cbn; congruence. Qed.

Lemma otherwise_not_null a d : d <> JNull -> a ??! d <> JNull.
Proof. destruct a as [[]|]; cbn; congruence. Qed.

(** [mapLeaguePlayer] returns exactly when its six stats convert, and then
    with the record built from them. *)
Lemma mapLeaguePlayer_returns player :
  stats_convert player = true ->
  exists level maxHealth attackDamage abilityPower armor magicResist,
    let statsSource := statsSource_of player in
    normalizeStat (get player "level" ?? get statsSource "level") = Normal level /\
    normalizeStat (get statsSource "maxHealth" ?? get statsSource "hp") = Normal maxHealth /\
    normalizeStat (get statsSource "attackDamage" ?? get statsSource "ad")
      = Normal attackDamage /\
    normalizeStat (get statsSource "abilityPower" ?? get statsSource "ap")
      = Normal abilityPower /\
    normalizeStat (get statsSource "armor") = Normal armor /\
    normalizeStat (get statsSource "magicResist" ?? get statsSource "magicResistance" ??
                   get statsSource "mr") = Normal magicResist /\
    mapLeaguePlayer player =
      Normal (LeagueScoreboardPlayer
                (get player "summonerName" ??! JStr "Unknown")
                (get player "championName" ??! JStr "")
                (get player "team" ??! JStr "ORDER")
                level
                (LeagueScoreboardStats maxHealth attackDamage abilityPower armor magicResist)
                (map mapItem (filter truthy (rawItems_of player)))).
Proof.
  unfold stats_convert, stat_values. cbn [forallb].
  rewrite !andb_true_iff. intros (H1 & H2 & H3 & H4 & H5 & H6 & _).
  destruct (normalizeStat_returns _ H1) as [r1 E1].
  destruct (normalizeStat_returns _ H2) as [r2 E2].
  destruct (normalizeStat_returns _ H3) as [r3 E3].
  destruct (normalizeStat_returns _ H4) as [r4 E4].
  destruct (normalizeStat_returns _ H5) as [r5 E5].
  destruct (normalizeStat_returns _ H6) as [r6 E6].
  exists r1, r2, r3, r4, r5, r6. cbv zeta.
  repeat (split; [assumption|]).
  unfold mapLeaguePlayer. cbv zeta. rewrite E1, E2, E3, E4, E5, E6. reflexivity.
Qed.

Lemma normalizeStat_Normal_converts value r :
  normalizeStat value = Normal r -> converts value = true.
Proof.
  unfold normalizeStat, converts, Number. destruct value as [v|]; [|reflexivity].
  destruct (ToPrimitive_throws v); cbn; [discriminate|reflexivity].
Qed.

Lemma mapLeaguePlayer_Normal player c :
  mapLeaguePlayer player = Normal c -> stats_convert player = true.
Proof.
  unfold mapLeaguePlayer, stats_convert, stat_values. cbv zeta. cbn [forallb].
  repeat match goal with
  | |- context [bind (normalizeStat ?v) _] =>
      let E := fresh "E" in
      destruct (normalizeStat v) eqn:E; cbn [bind]; [|discriminate];
      apply normalizeStat_Normal_converts in E; rewrite E
  end.
  reflexivity.
Qed.

(** ** C7: the defaults of name, champion and team *)

(** C7, as the code has it.  For a raw player whose stats convert,
    [mapLeaguePlayer] returns a record whose name, champion and team are the
    raw [summonerName], [championName] and [team] when they are there, and
    the literals ["Unknown"], [""] and ["ORDER"] when they are missing.  The
    team is not checked against any set of tokens. *)
Theorem mapLeaguePlayer_defaults (player : option Json) :
  stats_convert player = true ->
  exists c, mapLeaguePlayer player = Normal c /\
    (missing (get player "summonerName") -> get (Some c) "name" = Some (JStr "Unknown")) /\
    (missing (get player "championName") -> get (Some c) "champion" = Some (JStr "")) /\
    (missing (get player "team") -> get (Some c) "team" = Some (JStr "ORDER")) /\
    (forall v, get player "summonerName" = Some v -> v <> JNull ->
               get (Some c) "name" = Some v) /\
    (forall v, get player "championName" = Some v -> v <> JNull ->
               get (Some c) "champion" = Some v) /\
    (forall v, get player "team" = Some v -> v <> JNull ->
               get (Some c) "team" = Some v).
Proof.
  intros H. destruct (mapLeaguePlayer_returns player H)
    as (r1 & r2 & r3 & r4 & r5 & r6 & _ & _ & _ & _ & _ & _ & ->).
  eexists. split; [reflexivity|].
  cbn [get LeagueScoreboardPlayer lookup String.eqb Ascii.eqb Bool.eqb].
  repeat split.
  - intros Hm. rewrite (otherwise_missing _ _ Hm). reflexivity.
  - intros Hm. rewrite (otherwise_missing _ _ Hm). reflexivity.
  - intros Hm. rewrite (otherwise_missing _ _ Hm). reflexivity.
  - intros v -> Hv. rewrite (otherwise_present _ _ Hv). reflexivity.
  - intros v -> Hv. rewrite (otherwise_present _ _ Hv). reflexivity.
  - intros v -> Hv. rewrite (otherwise_present _ _ Hv). reflexivity.
Qed.

(** C7 at a player with nothing but a team of its own. *)
Lemma mapLeaguePlayer_defaults_witness :
  exists c, mapLeaguePlayer (Some (JObj [("team", JStr "CHAOS")])) = Normal c /\
    get (Some c) "name" = Some (JStr "Unknown") /\
    get (Some c) "champion" = Some (JStr "") /\
    get (Some c) "team" = Some (JStr "CHAOS").
Proof.
  destruct (mapLeaguePlayer_defaults (Some (JObj [("team", JStr "CHAOS")])) eq_refl)
    as (c & Hc & Hn & Hch & _ & _ & _ & Ht).
  exists c. split; [exact Hc|]. split; [|split].
  - apply Hn. left. reflexivity.
  - apply Hch. left. reflexivity.
  - apply Ht; [reflexivity|discriminate].
Defined.

(** C7 as stated fails twice.  A player without a team gets the team
    ["ORDER"], which is not the literal ["A"]; and the team is whatever the
    raw record has, so three raw teams give three canonical teams and no two
    tokens hold them all. *)
Lemma mapLeaguePlayer_team_counterexample :
  (exists c, mapLeaguePlayer (Some (JObj [])) = Normal c /\
             get (Some c) "team" = Some (JStr "ORDER") /\
             get (Some c) "team" <> Some (JStr "A")) /\
  (exists c1 c2 c3,
     mapLeaguePlayer (Some (JObj [("team", JStr "ORDER")])) = Normal c1 /\
     mapLeaguePlayer (Some (JObj [("team", JStr "CHAOS")])) = Normal c2 /\
     mapLeaguePlayer (Some (JObj [("team", JStr "NEUTRAL")])) = Normal c3 /\
     get (Some c1) "team" = Some (JStr "ORDER") /\
     get (Some c2) "team" = Some (JStr "CHAOS") /\
     get (Some c3) "team" = Some (JStr "NEUTRAL")) /\
  ~ (exists a b : Json, forall player c,
       mapLeaguePlayer player = Normal c ->
       get (Some c) "team" = Some a \/ get (Some c) "team" = Some b).
Proof.
  split; [|split].
  - eexists. split; [reflexivity|]. split; [reflexivity|discriminate].
  - do 3 eexists. repeat split; reflexivity.
  - intros (a & b & H).
    pose proof (H (Some (JObj [("team", JStr "ORDER")])) _ eq_refl) as H1.
    pose proof (H (Some (JObj [("team", JStr "CHAOS")])) _ eq_refl) as H2.
    pose proof (H (Some (JObj [("team", JStr "NEUTRAL")])) _ eq_refl) as H3.
    cbn in H1, H2, H3.
    destruct H1 as [H1|H1], H2 as [H2|H2], H3 as [H3|H3]; congruence.
Qed.

(** ** C8: the items *)

Lemma mapItem_count_missing raw :
  missing (get (Some raw) "count") ->
  get (Some (mapItem raw)) "count" = Some (JNum (Int 1)).
Proof.
  intros Hm. unfold mapItem. rewrite (otherwise_missing _ (JNum (Int 1)) Hm). reflexivity.
Qed.

Lemma mapItem_count_present raw v :
  get (Some raw) "count" = Some v -> v <> JNull ->
  get (Some (mapItem raw)) "count" = Some v.
Proof.
  intros Hc Hv. unfold mapItem. rewrite Hc, (otherwise_present _ _ Hv). reflexivity.
Qed.

(** C8, as the code has it.  The items of the canonical record are the raw
    entries that are truthy, mapped in their order; the count of an item is
    [1] when the raw entry has none and the raw count, whatever it is,
    otherwise. *)
Theorem mapLeaguePlayer_items (player : option Json) :
  stats_convert player = true ->
  exists c, mapLeaguePlayer player = Normal c /\
    items_of c = map mapItem (filter truthy (rawItems_of player)) /\
    (forall raw, In raw (filter truthy (rawItems_of player)) ->
       In raw (rawItems_of player) /\ truthy raw = true) /\
    (forall raw, missing (get (Some raw) "count") ->
       get (Some (mapItem raw)) "count" = Some (JNum (Int 1))) /\
    (forall raw v, get (Some raw) "count" = Some v -> v <> JNull ->
       get (Some (mapItem raw)) "count" = Some v).
Proof.
  intros H. destruct (mapLeaguePlayer_returns player H)
    as (r1 & r2 & r3 & r4 & r5 & r6 & _ & _ & _ & _ & _ & _ & ->).
  eexists. split; [reflexivity|]. split; [reflexivity|]. split; [|split].
  - intros raw Hin. apply filter_In in Hin. exact Hin.
  - apply mapItem_count_missing.
  - apply mapItem_count_present.
Qed.

(** C8 at a player with a [null] entry, an item without a count and an
    item with the count [2]. *)
Lemma mapLeaguePlayer_items_witness :
  exists c,
    mapLeaguePlayer (Some three_entries) = Normal c /\
    items_of c =
      [ LeagueScoreboardItem (JStr "Boots") (JStr "Boots") (JNum (Int 0)) (JNum (Int 1));
        LeagueScoreboardItem (JStr "Unknown Item") (JStr "") (JNum (Int 0)) (JNum (Int 2)) ].
Proof.
  destruct (mapLeaguePlayer_items (Some three_entries) eq_refl) as (c & Hc & Hi & _).
  exists c. split; [exact Hc|]. rewrite Hi. reflexivity.
Defined.

(** C8 as stated fails on a raw item whose count is [0]: the canonical item
    has the count [0], which is not at least one. *)
Lemma mapLeaguePlayer_count_counterexample :
  exists c item,
    mapLeaguePlayer (Some zero_count) = Normal c /\
    items_of c = [item] /\
    get (Some item) "count" = Some (JNum (Int 0)) /\
    ~ count_at_least_one item.
Proof.
  do 2 eexists. split; [reflexivity|]. split; [reflexivity|]. split; [reflexivity|].
  intros (z & Hz & Hle). cbn in Hz. inversion Hz. subst. lia.
Qed.

(** ** C1: normalising a canonical record again *)

Lemma filter_truthy_mapItem raws :
  filter truthy (map mapItem raws) = map mapItem raws.
Proof. induction raws as [|x r IH]; cbn; [reflexivity|]. f_equal. exact IH. Qed.

Lemma mapItem_mapItem raw :
  mapItem (mapItem raw) =
  LeagueScoreboardItem (JStr "Unknown Item") (JStr "") (JNum (Int 0))
                       (get (Some raw) "count" ??! JNum (Int 1)).
Proof.
  unfold mapItem at 1. unfold mapItem.
  cbn [get LeagueScoreboardItem lookup String.eqb Ascii.eqb Bool.eqb].
  rewrite otherwise_present by (apply otherwise_not_null; discriminate).
  reflexivity.
Qed.

(** The record [mapLeaguePlayer] makes of a record it has made. *)
Lemma mapLeaguePlayer_canonical name champion team r1 r2 r3 r4 r5 r6 items :
  team <> JNull ->
  normalised r1 -> normalised r2 -> normalised r3 ->
  normalised r4 -> normalised r5 -> normalised r6 ->
  mapLeaguePlayer
    (Some (LeagueScoreboardPlayer name champion team r1
             (LeagueScoreboardStats r2 r3 r4 r5 r6) (map mapItem items))) =
  Normal (LeagueScoreboardPlayer (JStr "Unknown") (JStr "") team r1
            (LeagueScoreboardStats r2 r3 r4
               (match r5 with JNull => JNum (Int 0) | _ => r5 end) r6)
            (map mapItem (map mapItem items))).
Proof.
  intros Ht H1 H2 H3 H4 H5 H6.
  unfold mapLeaguePlayer, rawItems_of, statsSource_of. cbv zeta.
  cbn [get LeagueScoreboardPlayer LeagueScoreboardStats lookup String.eqb Ascii.eqb
       Bool.eqb nullish Array_isArray elements_of otherwise].
  rewrite filter_truthy_mapItem.
  destruct H1 as [-> | [z1 ->]], H2 as [-> | [z2 ->]], H3 as [-> | [z3 ->]],
           H4 as [-> | [z4 ->]], H5 as [-> | [z5 ->]], H6 as [-> | [z6 ->]];
    cbn [nullish]; rewrite ?normalizeStat_undefined, ?normalizeStat_Int, ?normalizeStat_null;
    cbn [bind]; destruct team; try congruence; reflexivity.
Qed.

(** C1, as the code has it.  Normalising a record the normaliser has made
    returns a record with the same team, level, maximum health, attack
    damage, ability power and magic resistance, the same armor when that is
    a number, and as many items with the same counts.  The name and the
    champion become ["Unknown"] and [""], and the name, raw display and id
    of every item become ["Unknown Item"], [""] and [0]: the canonical
    record does not have the raw keys they are read from. *)
Theorem mapLeaguePlayer_again (player : option Json) (c : Json) :
  mapLeaguePlayer player = Normal c ->
  exists c', mapLeaguePlayer (Some c) = Normal c' /\
    get (Some c') "team" = get (Some c) "team" /\
    get (Some c') "level" = get (Some c) "level" /\
    stat c' "maxHealth" = stat c "maxHealth" /\
    stat c' "attackDamage" = stat c "attackDamage" /\
    stat c' "abilityPower" = stat c "abilityPower" /\
    stat c' "magicResist" = stat c "magicResist" /\
    (stat c "armor" <> Some JNull -> stat c' "armor" = stat c "armor") /\
    map (fun item => get (Some item) "count") (items_of c') =
      map (fun item => get (Some item) "count") (items_of c) /\
    get (Some c') "name" = Some (JStr "Unknown") /\
    get (Some c') "champion" = Some (JStr "") /\
    Forall (fun item => get (Some item) "name" = Some (JStr "Unknown Item") /\
                        get (Some item) "rawDisplay" = Some (JStr "") /\
                        get (Some item) "itemId" = Some (JNum (Int 0)))
           (items_of c').
Proof.
  intros Hc. pose proof (mapLeaguePlayer_Normal _ _ Hc) as Hconv.
  destruct (mapLeaguePlayer_returns player Hconv)
    as (r1 & r2 & r3 & r4 & r5 & r6 & E1 & E2 & E3 & E4 & E5 & E6 & Heq).
  rewrite Heq in Hc. inversion Hc; subst c; clear Hc Heq.
  apply normalizeStat_cases in E1, E2, E3, E4, E5, E6.
  eexists. split.
  - apply mapLeaguePlayer_canonical; try assumption.
    apply otherwise_not_null. discriminate.
  - unfold stat, items_of.
    cbn [get LeagueScoreboardPlayer LeagueScoreboardStats lookup String.eqb Ascii.eqb
         Bool.eqb elements_of].
    repeat (split; [reflexivity|]).
    split; [|split; [|split; [reflexivity|split; [reflexivity|]]]].
    + intros Hnn. destruct r5; try reflexivity. congruence.
    + rewrite !map_map. apply map_ext. intros raw. rewrite mapItem_mapItem.
      unfold mapItem. reflexivity.
    + rewrite !Forall_map. apply Forall_forall. intros raw _.
      rewrite mapItem_mapItem. repeat split; reflexivity.
Qed.

(** The scenario of the specification. *)
Example mapLeaguePlayer_Faker :
  mapLeaguePlayer (Some Faker) =
  Normal (LeagueScoreboardPlayer (JStr "Faker") (JStr "Ahri") (JStr "ORDER") (JNum (Int 8))
            (LeagueScoreboardStats (JNum (Int 1200)) JNull JNull JNull JNull)
            [LeagueScoreboardItem (JStr "Boots") (JStr "Boots")
                                  (JNum (Int 1001)) (JNum (Int 2))]).
Proof. reflexivity. Qed.

(** C1 at the player of the scenario. *)
Lemma mapLeaguePlayer_again_witness :
  exists c c', mapLeaguePlayer (Some Faker) = Normal c /\
    mapLeaguePlayer (Some c) = Normal c' /\
    get (Some c') "team" = Some (JStr "ORDER") /\
    get (Some c') "level" = Some (JNum (Int 8)) /\
    stat c' "maxHealth" = Some (JNum (Int 1200)) /\
    get (Some c') "name" = Some (JStr "Unknown").
Proof.
  destruct (mapLeaguePlayer_again (Some Faker) _ mapLeaguePlayer_Faker)
    as (c' & Hc' & Ht & Hl & Hh & _ & _ & _ & _ & _ & Hn & _).
  eexists. exists c'. split; [exact mapLeaguePlayer_Faker|].
  split; [exact Hc'|]. split; [exact Ht|]. split; [exact Hl|].
  split; [exact Hh|exact Hn].
Defined.

(** C1 as stated fails on the player of the scenario: its canonical record,
    normalised again, has lost the name, the champion, the name and id of
    the item, and has the armor [0] where it had [null]. *)
Lemma mapLeaguePlayer_idempotence_counterexample :
  exists c c',
    mapLeaguePlayer (Some Faker) = Normal c /\
    mapLeaguePlayer (Some c) = Normal c' /\
    c' <> c /\
    get (Some c) "name" = Some (JStr "Faker") /\
    get (Some c') "name" = Some (JStr "Unknown") /\
    stat c "armor" = Some JNull /\
    stat c' "armor" = Some (JNum (Int 0)).
Proof.
  do 2 eexists. split; [reflexivity|]. split; [reflexivity|].
  split; [discriminate|]. repeat split; reflexivity.
Qed.

(* ================================================================== *)
(** * Properties of the differ *)
(* ================================================================== *)

Lemma stringify_array l :
  JSON_stringify (JArr l) =
  LBracket :: match l with
              | [] => [RBracket]
              | x :: r => JSON_stringify x ++ array_rest r
              end.
Proof.
  destruct l as [|x r]; reflexivity.
Qed.

Lemma stringify_object l :
  JSON_stringify (JObj l) =
  LBrace :: match l with
            | [] => [RBrace]
            | (k, x) :: r => TString k :: Colon :: JSON_stringify x ++ object_rest r
            end.
Proof.
  destruct l as [|[k x] r]; reflexivity.
Qed.

Lemma stringify_head v :
  exists t rest, JSON_stringify v = t :: rest /\ opens_value t = true.
Proof.
  destruct v as [| b | n | s | l | l].
  - do 2 eexists; split; reflexivity.
  - destruct b; do 2 eexists; split; reflexivity.
  - cbn. destruct (Number_isFinite n); do 2 eexists; split; reflexivity.
  - do 2 eexists; split; reflexivity.
  - rewrite stringify_array. do 2 eexists; split; reflexivity.
  - rewrite stringify_object. do 2 eexists; split; reflexivity.
Qed.

Ltac head_clash v H :=
  let t := fresh "t" in let rest := fresh "rest" in
  let E := fresh "E" in let O := fresh "O" in
  destruct (stringify_head v) as (t & rest & E & O);
  rewrite E in H; cbn in H; inversion H; subst; discriminate.

Lemma array_rest_determined l :
  Forall determined l -> forallb finite_numbers l = true ->
  forall l' r r', forallb finite_numbers l' = true ->
    array_rest l ++ r = array_rest l' ++ r' -> l = l' /\ r = r'.
Proof.
  induction 1 as [|x l Hx _ IH]; intros Hf l' r r' Hf' H.
  - destruct l' as [|y l']; cbn in H; inversion H; auto.
  - destruct l' as [|y l']; cbn in H; [inversion H|].
    cbn [forallb snd] in Hf, Hf'. apply andb_true_iff in Hf, Hf'.
    destruct Hf as [Hfx Hfl], Hf' as [Hfy Hfl'].
    inversion H as [H']. rewrite <- !app_assoc in H'.
    destruct (Hx Hfx _ _ _ Hfy H') as [-> H''].
    destruct (IH Hfl _ _ _ Hfl' H'') as [-> ->]. auto.
Qed.

Lemma object_rest_determined l :
  Forall (fun kv => determined (snd kv)) l ->
  forallb (fun kv => finite_numbers (snd kv)) l = true ->
  forall l' r r', forallb (fun kv => finite_numbers (snd kv)) l' = true ->
    object_rest l ++ r = object_rest l' ++ r' -> l = l' /\ r = r'.
Proof.
  induction 1 as [|[k x] l Hx _ IH]; intros Hf l' r r' Hf' H.
  - destruct l' as [|[k' y] l']; cbn in H; inversion H; auto.
  - destruct l' as [|[k' y] l']; cbn in H; [inversion H|].
    cbn [forallb snd] in Hf, Hf'. apply andb_true_iff in Hf, Hf'.
    destruct Hf as [Hfx Hfl], Hf' as [Hfy Hfl'].
    inversion H as [[Hk H']]. rewrite <- !app_assoc in H'. cbn [snd] in Hx.
    destruct (Hx Hfx _ _ _ Hfy H') as [-> H''].
    destruct (IH Hfl _ _ _ Hfl' H'') as [-> ->]. auto.
Qed.

Lemma stringify_determined a : determined a.
Proof.
  induction a as [| b | n | s | l IH | l IH] using Json_nested_ind;
    intros Hf b' r r' Hf' H.
  - destruct b' as [| b' | n' | s' | l' | l'];
      try rewrite stringify_array in H; try rewrite stringify_object in H;
      cbn in H, Hf'; try rewrite Hf' in H; try (destruct b');
      inversion H; auto.
  - destruct b' as [| b' | n' | s' | l' | l'];
      try rewrite stringify_array in H; try rewrite stringify_object in H;
      cbn in H, Hf'; try rewrite Hf' in H; destruct b; try (destruct b');
      inversion H; auto.
  - cbn in Hf.
    destruct b' as [| b' | n' | s' | l' | l'];
      try rewrite stringify_array in H; try rewrite stringify_object in H;
      cbn in H, Hf'; rewrite Hf in H; try rewrite Hf' in H; try (destruct b');
      inversion H; auto.
  - destruct b' as [| b' | n' | s' | l' | l'];
      try rewrite stringify_array in H; try rewrite stringify_object in H;
      cbn in H, Hf'; try rewrite Hf' in H; try (destruct b');
      inversion H; auto.
  - rewrite stringify_array in H.
    destruct b' as [| b' | n' | s' | l' | l'];
      try rewrite stringify_array in H; try rewrite stringify_object in H;
      cbn in H, Hf'; try (destruct (Number_isFinite n')); try (destruct b');
      try (inversion H; fail).
    inversion H as [H']. clear H. cbn in Hf.
    destruct l as [|x l], l' as [|y l'].
    + inversion H'. auto.
    + cbn in H'. head_clash y H'.
    + cbn in H'. head_clash x H'.
    + inversion IH as [|? ? Hx Hl]; subst.
      cbn [forallb snd] in Hf, Hf'. apply andb_true_iff in Hf, Hf'.
      destruct Hf as [Hfx Hfl], Hf' as [Hfy Hfl'].
      rewrite <- !app_assoc in H'.
      destruct (Hx Hfx _ _ _ Hfy H') as [-> H''].
      destruct (array_rest_determined l Hl Hfl _ _ _ Hfl' H'') as [-> ->]. auto.
  - rewrite stringify_object in H.
    destruct b' as [| b' | n' | s' | l' | l'];
      try rewrite stringify_array in H; try rewrite stringify_object in H;
      cbn in H, Hf'; try (destruct (Number_isFinite n')); try (destruct b');
      try (inversion H; fail).
    inversion H as [H']. clear H. cbn in Hf.
    destruct l as [|[k x] l], l' as [|[k' y] l'].
    + inversion H'. auto.
    + cbn in H'. inversion H'.
    + cbn in H'. inversion H'.
    + inversion IH as [|? ? Hx Hl]; subst. cbn [snd] in Hx.
      cbn [forallb snd] in Hf, Hf'. apply andb_true_iff in Hf, Hf'.
      destruct Hf as [Hfx Hfl], Hf' as [Hfy Hfl'].
      cbn in H'. inversion H' as [[Hk H'']]. rewrite <- !app_assoc in H''.
      destruct (Hx Hfx _ _ _ Hfy H'') as [-> H3].
      destruct (object_rest_determined l Hl Hfl _ _ _ Hfl' H3) as [-> ->]. auto.
Qed.

Lemma stringify_injective a b :
  finite_numbers a = true -> finite_numbers b = true ->
  JSON_stringify a = JSON_stringify b -> a = b.
Proof.
  intros Ha Hb H.
  apply (stringify_determined a Ha b [] [] Hb). rewrite !app_nil_r. exact H.
Qed.

Lemma changed_false_iff a b :
  changed a b = false <-> JSON_stringify a = JSON_stringify b.
Proof.
  unfold changed.
  destruct (list_eq_dec token_eq_dec (JSON_stringify a) (JSON_stringify b)); 
    split; intros; try assumption; try reflexivity; try discriminate; contradiction.
Qed.

Lemma changed_true_iff a b :
  changed a b = true <-> JSON_stringify a <> JSON_stringify b.
Proof.
  unfold changed.
  destruct (list_eq_dec token_eq_dec (JSON_stringify a) (JSON_stringify b));
    split; intros; try assumption; try reflexivity; try discriminate; contradiction.
Qed.

Lemma changed_refl a : changed a a = false.
Proof. apply changed_false_iff. reflexivity. Qed.

(** C2, as the code has it.  The differ compares the JSON texts.  It
    reports a scoreboard unchanged against itself; for scoreboards whose
    numbers are finite it reports unchanged exactly when the two are the
    same structure, with the same items in the same order and the same keys
    in the same order; so a scoreboard in which the items of one player are
    in another order is reported changed.  It is not insensitive to the
    order of keys: see the counterexample. *)
Theorem changed_structural :
  (forall a, changed a a = false) /\
  (forall a b, finite_numbers a = true -> finite_numbers b = true ->
     (changed a b = false <-> a = b)) /\
  (forall before after name champion team level stats items items',
     let scoreboard :=
       LeagueScoreboard
         (before ++ LeagueScoreboardPlayer name champion team level stats items :: after) in
     let scoreboard' :=
       LeagueScoreboard
         (before ++ LeagueScoreboardPlayer name champion team level stats items' :: after) in
     finite_numbers scoreboard = true -> finite_numbers scoreboard' = true ->
     items <> items' -> changed scoreboard scoreboard' = true).
Proof.
  split; [exact changed_refl|]. split.
  - intros a b Ha Hb. rewrite changed_false_iff. split.
    + apply stringify_injective; assumption.
    + intros ->. reflexivity.
  - intros before after name champion team level stats items items' sb sb' Hf Hf' Hne.
    apply changed_true_iff. intros H.
    apply (stringify_injective _ _ Hf Hf') in H.
    unfold sb, sb', LeagueScoreboard in H. inversion H as [H'].
    apply app_inv_head in H'. inversion H'. contradiction.
Qed.

(** C2 at a scoreboard of one player with two items, in one order and in
    the other. *)
Lemma changed_structural_witness :
  changed (LeagueScoreboard [Ahri [Boots; Ward]])
          (LeagueScoreboard [Ahri [Ward; Boots]]) = true /\
  changed (LeagueScoreboard [Ahri [Boots; Ward]])
          (LeagueScoreboard [Ahri [Boots; Ward]]) = false.
Proof.
  split.
  - apply (proj2 (proj2 changed_structural) [] [] (JStr "Faker") (JStr "Ahri")
             (JStr "ORDER") (JNum (Int 8))
             (LeagueScoreboardStats (JNum (Int 1200)) JNull JNull JNull JNull)
             [Boots; Ward] [Ward; Boots]).
    + reflexivity.
    + reflexivity.
    + discriminate.
  - apply (proj1 (proj2 changed_structural)
             (LeagueScoreboard [Ahri [Boots; Ward]])
             (LeagueScoreboard [Ahri [Boots; Ward]])); reflexivity.
Defined.

(** C2 as stated fails on the order of keys.  Two raw players that differ
    only in the order of the keys of the object they carry as team normalise
    to scoreboards that are the same up to the order of keys, and the differ
    reports a change; so it does for two scoreboards that list the keys of
    the player in different orders. *)
Lemma changed_key_order_counterexample :
  (exists players players',
     mapPlayers [team_id_name] = Normal players /\
     mapPlayers [team_name_id] = Normal players' /\
     same_up_to_key_order (LeagueScoreboard players) (LeagueScoreboard players') = true /\
     changed (LeagueScoreboard players) (LeagueScoreboard players') = true) /\
  same_up_to_key_order
    (LeagueScoreboard [JObj [("name", JStr "Faker"); ("champion", JStr "Ahri")]])
    (LeagueScoreboard [JObj [("champion", JStr "Ahri"); ("name", JStr "Faker")]]) = true /\
  changed
    (LeagueScoreboard [JObj [("name", JStr "Faker"); ("champion", JStr "Ahri")]])
    (LeagueScoreboard [JObj [("champion", JStr "Ahri"); ("name", JStr "Faker")]]) = true.
Proof.
  split.
  - do 2 eexists. repeat split; reflexivity.
  - split; reflexivity.
Qed.

(** ** The list of players *)

Lemma mapPlayers_cons player rest :
  mapPlayers (player :: rest) =
  (p <- mapLeaguePlayer (Some player) ;; ps <- mapPlayers rest ;; Normal (p :: ps)).
Proof. reflexivity. Qed.

Lemma mapPlayers_Forall2 players : forall mapped,
  mapPlayers players = Normal mapped ->
  Forall2 (fun player c => mapLeaguePlayer (Some player) = Normal c) players mapped.
Proof.
  induction players as [|player rest IH]; intros mapped.
  - cbn. intros H. inversion H. constructor.
  - rewrite mapPlayers_cons.
    destruct (mapLeaguePlayer (Some player)) as [c|e] eqn:Ec; cbn [bind]; [|discriminate].
    destruct (mapPlayers rest) as [cs|e] eqn:Er; cbn [bind]; [|discriminate].
    intros H. inversion H; subst. constructor; [exact Ec|]. apply IH. reflexivity.
Qed.

(* ================================================================== *)
(** * Properties of the poller *)
(* ================================================================== *)

Lemma run_seq a b s : run (a >> b) s = run b (run a s).
Proof.
  unfold run, seq. destruct (a s) as [s1 o1]. cbn. destruct (b s1) as [s2 o2]. reflexivity.
Qed.

Lemma effects_seq a b s :
  effects (a >> b) s = effects a s ++ effects b (run a s).
Proof.
  unfold effects, run, seq. destruct (a s) as [s1 o1]. cbn.
  destruct (b s1) as [s2 o2]. reflexivity.
Qed.

Lemma count_app p o1 o2 : count p (o1 ++ o2) = (count p o1 + count p o2)%nat.
Proof. unfold count. rewrite filter_app, length_app. reflexivity. Qed.

Section Poller.

Variable LeagueofLegends : Z.

(** ** C4: the gate of [startLeaguePolling] *)

Lemma start_while_polling force s :
  polling s = true -> startLeaguePolling LeagueofLegends force s = (s, []).
Proof.
  unfold polling, startLeaguePolling, reading.
  destruct (leaguePollingTimer s); [reflexivity|discriminate].
Qed.

Lemma start_gated s :
  polling s = false -> activeGame s <> LeagueofLegends ->
  startLeaguePolling LeagueofLegends false s = (s, []).
Proof.
  unfold polling, startLeaguePolling, reading. intros Hp Hg.
  destruct (leaguePollingTimer s); [discriminate|].
  apply Z.eqb_neq in Hg. rewrite Hg. reflexivity.
Qed.

Lemma start_forced s :
  polling (run (startLeaguePolling LeagueofLegends true) s) = true.
Proof.
  unfold polling, startLeaguePolling, reading, run.
  destruct (leaguePollingTimer s) eqn:Ht; cbn.
  - rewrite Ht. reflexivity.
  - unfold seq. destruct (pollLeague LeagueofLegends s). reflexivity.
Qed.

(** C4.  A call of [startLeaguePolling] while the timer is set changes
    nothing and has no effect; so does a call without [force] while the
    active game is not League, and in particular no request is made.  After
    a call with [force] the timer is set. *)
Theorem startLeaguePolling_gate (force : bool) (s : Service) :
  (polling s = true -> startLeaguePolling LeagueofLegends force s = (s, [])) /\
  (polling s = false -> force = false -> activeGame s <> LeagueofLegends ->
   startLeaguePolling LeagueofLegends force s = (s, []) /\
   count is_https_get (effects (startLeaguePolling LeagueofLegends force) s) = 0%nat) /\
  (force = true ->
   polling (run (startLeaguePolling LeagueofLegends force) s) = true).
Proof.
  split; [|split].
  - apply start_while_polling.
  - intros Hp -> Hg. unfold effects. rewrite (start_gated s Hp Hg). auto.
  - intros ->. apply start_forced.
Qed.

(** When the gate is open the poll runs once and the timer is created. *)
Lemma startLeaguePolling_proceeds force s :
  polling s = false -> force = true \/ activeGame s = LeagueofLegends ->
  startLeaguePolling LeagueofLegends force s =
  (new_interval (run (pollLeague LeagueofLegends) s),
   effects (pollLeague LeagueofLegends) s
   ++ [setInterval (timers_created (run (pollLeague LeagueofLegends) s))]).
Proof.
  unfold polling, startLeaguePolling, reading, run, effects. intros Hp Hg.
  destruct (leaguePollingTimer s); [discriminate|].
  assert (negb force && negb (activeGame s =? LeagueofLegends) = false) as ->.
  { destruct Hg as [-> | ->]; [reflexivity|]. rewrite Z.eqb_refl. apply andb_false_r. }
  unfold seq. destruct (pollLeague LeagueofLegends s). reflexivity.
Qed.

Lemma pollLeague_fields s :
  let s' := run (pollLeague LeagueofLegends) s in
  activeGame s' = activeGame s /\ leaguePollingTimer s' = leaguePollingTimer s /\
  intervals s' = intervals s /\ latestScoreboard s' = latestScoreboard s /\
  lastScoreboardErrorTs s' = lastScoreboardErrorTs s /\
  timers_created s' = timers_created s.
Proof.
  unfold pollLeague, reading, run.
  destruct (negb (activeGame s =? LeagueofLegends)); cbn; repeat split; reflexivity.
Qed.

(** ** Actions that keep a property *)

Lemma preserves_skip P : preserves P skip.
Proof. intros s H. exact H. Qed.

Lemma preserves_perform P e : preserves P (perform e).
Proof. intros s H. exact H. Qed.

Lemma preserves_seq P a b : preserves P a -> preserves P b -> preserves P (a >> b).
Proof. intros Ha Hb s H. rewrite run_seq. auto. Qed.

Lemma preserves_when P (c : bool) a : preserves P a -> preserves P (when c a).
Proof. destruct c; cbn; auto using preserves_skip. Qed.

Lemma preserves_reading P {A} (field : Service -> A) k :
  (forall x, preserves P (k x)) -> preserves P (reading field k).
Proof. intros Hk s H. exact (Hk (field s) s H). Qed.

Lemma preserves_update (P : Service -> Prop) f :
  (forall s, P s -> P (f s)) -> preserves P (update f).
Proof. intros Hf s H. exact (Hf s H). Qed.

Create HintDb service.
#[local] Hint Resolve preserves_skip preserves_perform preserves_seq preserves_when
  preserves_update : service.
#[local] Hint Extern 2 (preserves _ (reading _ _)) =>
  apply preserves_reading; intros : service.
#[local] Hint Extern 4 (preserves _ (match ?x with _ => _ end)) => destruct x : service.
#[local] Hint Extern 4 (preserves _ (if ?x then _ else _)) => destruct x : service.

(** ** C9: the timers *)

Lemma one_timer_pollLeague : preserves one_timer (pollLeague LeagueofLegends).
Proof. unfold pollLeague. auto 10 with service. Qed.

Lemma one_timer_start force : preserves one_timer (startLeaguePolling LeagueofLegends force).
Proof.
  intros s H. destruct (polling s) eqn:Hp.
  - unfold run. rewrite (start_while_polling force s Hp). exact H.
  - destruct (bool_dec force true) as [Hf | Hf];
      [| destruct (Z.eq_dec (activeGame s) LeagueofLegends) as [Hg | Hg]].
    + unfold run. rewrite startLeaguePolling_proceeds by auto. cbn [fst].
      apply one_timer_pollLeague in H. unfold one_timer in *.
      destruct (pollLeague_fields s) as (_ & Ht & _). cbn zeta in Ht.
      unfold polling in Hp. rewrite Ht in H. cbn.
      destruct (leaguePollingTimer s); [discriminate|]. rewrite H. reflexivity.
    + unfold run. rewrite startLeaguePolling_proceeds by auto. cbn [fst].
      apply one_timer_pollLeague in H. unfold one_timer in *.
      destruct (pollLeague_fields s) as (_ & Ht & _). cbn zeta in Ht.
      unfold polling in Hp. rewrite Ht in H. cbn.
      destruct (leaguePollingTimer s); [discriminate|]. rewrite H. reflexivity.
    + unfold run.
      assert (force = false) as -> by (destruct force; congruence).
      rewrite (start_gated s Hp Hg). exact H.
Qed.

Lemma stopLeaguePolling_stops s :
  one_timer s ->
  leaguePollingTimer (run (stopLeaguePolling) s) = None /\
  intervals (run (stopLeaguePolling) s) = [].
Proof.
  unfold one_timer, stopLeaguePolling, reading, run. intros H.
  destruct (leaguePollingTimer s) as [t|] eqn:Ht; cbn.
  - split; [reflexivity|]. rewrite H. cbn [remove].
    destruct (Nat.eq_dec t t); [reflexivity|contradiction].
  - rewrite Ht. auto.
Qed.

Lemma one_timer_stop : preserves one_timer stopLeaguePolling.
Proof.
  intros s H. destruct (stopLeaguePolling_stops s H) as [Ht Hi].
  unfold one_timer. rewrite Ht, Hi. reflexivity.
Qed.

#[local] Hint Resolve one_timer_pollLeague one_timer_start one_timer_stop : service.

Lemma one_timer_fold ids :
  preserves one_timer
    (fold_right (fun gameId rest =>
                   perform (emit (log "set-required-feature for: ")) >>
                   perform (setRequiredFeatures gameId
                              (getRequiredFeatures LeagueofLegends gameId)) >>
                   rest) skip ids).
Proof. induction ids; cbn; auto with service. Qed.

#[local] Hint Resolve one_timer_fold : service.

Lemma one_timer_handle c : preserves one_timer (handle LeagueofLegends c).
Proof.
  destruct c; cbn [handle];
    unfold registerGames, on_ready, setRequiredFeaturesForAllSupportedGames,
      on_game_detected, on_game_exit, on_new_info_update, handleLeagueInfoUpdate,
      on_error, settle, pollLeague_settled, pollLeague_catch;
    auto 12 with service.
Qed.

Lemma reachable_one_timer s : reachable LeagueofLegends s -> one_timer s.
Proof.
  induction 1 as [|s c _ IH]; [reflexivity|]. apply one_timer_handle. exact IH.
Qed.

(** C9, as the code has it.  In every state the service reaches there is at
    most one interval timer.  After two calls of [startLeaguePolling] with
    any [force] there is still at most one, and exactly one when the service
    was polling, or one of the calls was forced, or League is the active
    game; when none of these holds both calls are gated and there is no
    timer.  [stopLeaguePolling] leaves no timer, and a second call changes
    nothing. *)
Theorem one_polling_timer (s : Service) (force1 force2 : bool) :
  reachable LeagueofLegends s ->
  let twice := startLeaguePolling LeagueofLegends force1 >>
               startLeaguePolling LeagueofLegends force2 in
  let stopped := run stopLeaguePolling s in
  (List.length (intervals s) <= 1)%nat /\
  (List.length (intervals (run twice s)) <= 1)%nat /\
  (polling s = true \/ force1 = true \/ force2 = true \/
   activeGame s = LeagueofLegends ->
   List.length (intervals (run twice s)) = 1%nat /\ polling (run twice s) = true) /\
  (polling s = false -> force1 = false -> force2 = false ->
   activeGame s <> LeagueofLegends ->
   intervals (run twice s) = [] /\ polling (run twice s) = false) /\
  polling stopped = false /\ intervals stopped = [] /\
  stopLeaguePolling stopped = (stopped, []).
Proof.
  intros Hr twice stopped. apply reachable_one_timer in Hr.
  assert (Hlen : forall s', one_timer s' -> (List.length (intervals s') <= 1)%nat).
  { intros s' H'. rewrite H'. destruct (leaguePollingTimer s'); cbn; lia. }
  assert (Htw : one_timer (run twice s)).
  { unfold twice. rewrite run_seq. apply one_timer_start, one_timer_start, Hr. }
  assert (Hpol : forall s', one_timer s' -> polling s' = true ->
                            List.length (intervals s') = 1%nat).
  { intros s' H' Hp. rewrite H'. unfold polling in Hp.
    destruct (leaguePollingTimer s'); [reflexivity|discriminate]. }
  split; [auto|]. split; [auto|]. split; [|split].
  - intros Hc. assert (Hp : polling (run twice s) = true); [|auto].
    unfold twice. rewrite run_seq.
    set (s1 := run (startLeaguePolling LeagueofLegends force1) s).
    assert (Hs1 : polling s1 = true \/
                  (s1 = s /\ polling s = false /\
                   (force2 = true \/ activeGame s = LeagueofLegends))).
    { unfold s1. destruct (polling s) eqn:Hp.
      - left. unfold run.
        rewrite (start_while_polling force1 s Hp). exact Hp.
      - destruct force1.
        + left. apply start_forced.
        + destruct (Z.eq_dec (activeGame s) LeagueofLegends) as [Hg|Hg].
          * left. unfold run. rewrite startLeaguePolling_proceeds by auto. reflexivity.
          * right. unfold run.
            rewrite (start_gated s) by auto.
            repeat split; auto. destruct Hc as [Hc|[Hc|[Hc|Hc]]]; auto; congruence. }
    destruct Hs1 as [Hp1 | (-> & Hp0 & Hc')].
    + unfold run. rewrite (start_while_polling force2 s1 Hp1). exact Hp1.
    + unfold run. rewrite startLeaguePolling_proceeds by auto. reflexivity.
  - intros Hp -> -> Hg. unfold twice. rewrite run_seq. unfold run.
    rewrite (start_gated s) by auto. cbn [fst].
    rewrite (start_gated s) by auto. cbn [fst].
    rewrite Hr. unfold polling in *. destruct (leaguePollingTimer s); [discriminate|auto].
  - destruct (stopLeaguePolling_stops s Hr) as [Ht Hi]. fold stopped in Ht, Hi.
    unfold polling. rewrite Ht. repeat split; auto.
    unfold stopLeaguePolling, reading. rewrite Ht. reflexivity.
Qed.

(** ** C3 and C10: reporting a failed poll *)

Lemma pollLeague_catch_reports error now now' s :
  let out := effects (pollLeague_catch LeagueofLegends error now now') s in
  let s' := run (pollLeague_catch LeagueofLegends error now now') s in
  count is_log out = 1%nat /\
  count is_scoreboard_update out = 0%nat /\
  latestScoreboard s' = latestScoreboard s /\
  (5000 < now - lastScoreboardErrorTs s ->
   count is_scoreboard_error out = 1%nat /\ lastScoreboardErrorTs s' = now') /\
  (now - lastScoreboardErrorTs s <= 5000 ->
   count is_scoreboard_error out = 0%nat /\
   lastScoreboardErrorTs s' = lastScoreboardErrorTs s).
Proof.
  unfold pollLeague_catch, effects, run, seq, reading, perform, when.
  destruct (5000 <? now - lastScoreboardErrorTs s) eqn:Hlt; cbn;
    [apply Z.ltb_lt in Hlt | apply Z.ltb_ge in Hlt];
    repeat split; auto; intros; lia.
Qed.

(** C3, as the code has it.  A poll cycle that fails emits one log event and
    no update and keeps the snapshot; it emits a [scoreboard-error] exactly
    when the first reading of the clock is more than 5000 ms after the
    stored error timestamp, and then stores the second reading.  Hence of two
    failures, the second no more than 5000 ms after the first was stamped,
    only the first emits a [scoreboard-error], and a third failure more than
    5000 ms after that stamp emits a second one. *)
Theorem poll_failure_reporting :
  (forall players error now now' s,
     pollLeague_try players = Throw error ->
     let out := effects (pollLeague_settled LeagueofLegends players now now') s in
     let s' := run (pollLeague_settled LeagueofLegends players now now') s in
     count is_log out = 1%nat /\
     count is_scoreboard_update out = 0%nat /\
     latestScoreboard s' = latestScoreboard s /\
     (5000 < now - lastScoreboardErrorTs s ->
      count is_scoreboard_error out = 1%nat /\ lastScoreboardErrorTs s' = now') /\
     (now - lastScoreboardErrorTs s <= 5000 ->
      count is_scoreboard_error out = 0%nat /\
      lastScoreboardErrorTs s' = lastScoreboardErrorTs s)) /\
  (forall p1 p2 p3 e1 e2 e3 t1 t1' t2 t2' t3 t3' s,
     pollLeague_try p1 = Throw e1 ->
     pollLeague_try p2 = Throw e2 ->
     pollLeague_try p3 = Throw e3 ->
     5000 < t1 - lastScoreboardErrorTs s ->
     t2 - t1' <= 5000 ->
     5000 < t3 - t1' ->
     let first := pollLeague_settled LeagueofLegends p1 t1 t1' in
     let second := pollLeague_settled LeagueofLegends p2 t2 t2' in
     let third := pollLeague_settled LeagueofLegends p3 t3 t3' in
     count is_scoreboard_error (effects (first >> second) s) = 1%nat /\
     count is_scoreboard_error (effects (first >> second >> third) s) = 2%nat).
Proof.
  split.
  - intros players error now now' s Hf. unfold pollLeague_settled. rewrite Hf.
    apply pollLeague_catch_reports.
  - intros p1 p2 p3 e1 e2 e3 t1 t1' t2 t2' t3 t3' s H1 H2 H3 Ht1 Ht2 Ht3 first second third.
    unfold first, second, third, pollLeague_settled. rewrite H1, H2, H3.
    rewrite !effects_seq, !count_app, ?run_seq.
    destruct (pollLeague_catch_reports e1 t1 t1' s) as (_ & _ & _ & Ha & _).
    destruct (Ha Ht1) as [Hc1 Hs1]. clear Ha.
    set (s1 := run (pollLeague_catch LeagueofLegends e1 t1 t1') s) in *.
    destruct (pollLeague_catch_reports e2 t2 t2' s1) as (_ & _ & _ & _ & Hb).
    destruct (Hb ltac:(lia)) as [Hc2 Hs2]. clear Hb.
    set (s2 := run (pollLeague_catch LeagueofLegends e2 t2 t2') s1) in *.
    destruct (pollLeague_catch_reports e3 t3 t3' s2) as (_ & _ & _ & Hc & _).
    destruct (Hc ltac:(lia)) as [Hc3 Hs3].
    rewrite Hc1, Hc2, Hc3. auto.
Qed.

Lemma startLeaguePolling_fields force s :
  let s' := run (startLeaguePolling LeagueofLegends force) s in
  let out := effects (startLeaguePolling LeagueofLegends force) s in
  lastScoreboardErrorTs s' = lastScoreboardErrorTs s /\
  latestScoreboard s' = latestScoreboard s /\
  activeGame s' = activeGame s /\
  filter is_scoreboard_update out = [].
Proof.
  unfold startLeaguePolling, pollLeague, reading, run, effects, seq, perform, update, skip.
  destruct (leaguePollingTimer s); [cbn; auto|].
  destruct (negb force && negb (activeGame s =? LeagueofLegends)); [cbn; auto|].
  destruct (negb (activeGame s =? LeagueofLegends)); cbn; auto.
Qed.

Lemma stopLeaguePolling_fields s :
  lastScoreboardErrorTs (run stopLeaguePolling s) = lastScoreboardErrorTs s.
Proof.
  unfold stopLeaguePolling, reading, run. destruct (leaguePollingTimer s); reflexivity.
Qed.

Lemma window_start force :
  preserves error_window_open (startLeaguePolling LeagueofLegends force).
Proof.
  intros s H. unfold error_window_open in *.
  rewrite (proj1 (startLeaguePolling_fields force s)). exact H.
Qed.

Lemma window_stop : preserves error_window_open stopLeaguePolling.
Proof.
  intros s H. unfold error_window_open in *. rewrite stopLeaguePolling_fields. exact H.
Qed.

Lemma window_pollLeague : preserves error_window_open (pollLeague LeagueofLegends).
Proof. unfold pollLeague. auto 10 with service. Qed.

Lemma window_reset : preserves error_window_open (update (set_lastScoreboardErrorTs 0)).
Proof. intros s _. reflexivity. Qed.

#[local] Hint Resolve window_start window_stop window_pollLeague window_reset : service.

Lemma window_fold ids :
  preserves error_window_open
    (fold_right (fun gameId rest =>
                   perform (emit (log "set-required-feature for: ")) >>
                   perform (setRequiredFeatures gameId
                              (getRequiredFeatures LeagueofLegends gameId)) >>
                   rest) skip ids).
Proof. induction ids; cbn; auto with service. Qed.

#[local] Hint Resolve window_fold : service.

(** A callback that is not a failed poll leaves the error window open. *)
Lemma window_handle c :
  is_poll_failure c = false -> preserves error_window_open (handle LeagueofLegends c).
Proof.
  destruct c; cbn [handle is_poll_failure]; intros Hc; try discriminate;
    unfold registerGames, on_ready, setRequiredFeaturesForAllSupportedGames,
      on_game_detected, on_game_exit, on_new_info_update, handleLeagueInfoUpdate,
      on_error, settle, pollLeague_settled;
    try (destruct (pollLeague_try (handleLiveClientResponse statusCode body));
         [|discriminate]);
    auto 12 with service.
Qed.

Lemma window_handle_all cs :
  forallb (fun c => negb (is_poll_failure c)) cs = true ->
  preserves error_window_open (handle_all LeagueofLegends cs).
Proof.
  induction cs as [|c cs IH]; cbn [handle_all forallb]; [auto with service|].
  intros H. apply andb_true_iff in H. destruct H as [Hc Hcs].
  apply preserves_seq; [apply window_handle; destruct (is_poll_failure c); auto|auto].
Qed.

Lemma settled_success players mapped now now' s :
  pollLeague_try players = Normal mapped ->
  pollLeague_settled LeagueofLegends players now now' s =
  (set_lastScoreboardErrorTs 0 (set_latestScoreboard (LeagueScoreboard mapped) s),
   if changed (LeagueScoreboard mapped) (latestScoreboard s)
   then [emit (scoreboard_update (LeagueScoreboard mapped))] else []).
Proof.
  intros H. unfold pollLeague_settled. rewrite H.
  unfold reading, seq, update, when, perform, skip.
  destruct (changed (LeagueScoreboard mapped) (latestScoreboard s)); reflexivity.
Qed.

(** C10.  A poll cycle that succeeds sets the stored error timestamp to
    zero.  Whatever callbacks follow that are not failed polls, the next
    poll cycle that fails emits a [scoreboard-error], whenever the last one
    was emitted: the clock reads the milliseconds since 1970, more than
    5000. *)
Theorem success_reopens_error_window
  (players : completion Json) (mapped : list Json) (now now' : Z) (s : Service) :
  pollLeague_try players = Normal mapped ->
  let s1 := run (pollLeague_settled LeagueofLegends players now now') s in
  lastScoreboardErrorTs s1 = 0 /\
  forall cs players' error t t',
    forallb (fun c => negb (is_poll_failure c)) cs = true ->
    pollLeague_try players' = Throw error ->
    5000 < t ->
    let s2 := run (handle_all LeagueofLegends cs) s1 in
    count is_scoreboard_error
      (effects (pollLeague_settled LeagueofLegends players' t t') s2) = 1%nat /\
    lastScoreboardErrorTs
      (run (pollLeague_settled LeagueofLegends players' t t') s2) = t'.
Proof.
  intros Hok s1.
  assert (H1 : lastScoreboardErrorTs s1 = 0).
  { unfold s1, run. rewrite (settled_success _ _ _ _ _ Hok). reflexivity. }
  split; [exact H1|].
  intros cs players' error t t' Hcs Hfail Ht s2.
  assert (H2 : lastScoreboardErrorTs s2 = 0) by (apply window_handle_all; assumption).
  unfold pollLeague_settled. rewrite Hfail.
  destruct (pollLeague_catch_reports error t t' s2) as (_ & _ & _ & Ha & _).
  apply Ha. rewrite H2. lia.
Qed.

(** ** C6: the snapshot and the update *)

(** C6.  A poll cycle succeeds exactly when the response is an array of
    players that all normalise.  Then, and when an info update carries such
    an array, the snapshot becomes the object whose [players] are the
    normalised players, one for each raw player and in their order, changed
    or not; and the [scoreboard-update] events emitted are the one with the
    new scoreboard when the JSON text of the new scoreboard differs from
    that of the old snapshot, and none when it does not.  So an update is
    emitted only for a scoreboard that differs from the snapshot, and for
    scoreboards with finite numbers for every one that differs. *)
Theorem snapshot_replaced_update_when_changed :
  (forall players mapped,
     pollLeague_try players = Normal mapped <->
     exists raw, players = Normal (JArr raw) /\ mapPlayers raw = Normal mapped) /\
  (forall raw mapped now now' s,
     mapPlayers raw = Normal mapped ->
     let scoreboard := LeagueScoreboard mapped in
     let poll := pollLeague_settled LeagueofLegends (Normal (JArr raw)) now now' in
     latestScoreboard (run poll s) = scoreboard /\
     filter is_scoreboard_update (effects poll s) =
       (if changed scoreboard (latestScoreboard s)
        then [emit (scoreboard_update scoreboard)] else [])) /\
  (forall info raw mapped s,
     truthy info = true ->
     allPlayers_of (Some info) = Some (JArr raw) ->
     mapPlayers raw = Normal mapped ->
     let scoreboard := LeagueScoreboard mapped in
     let push := handleLeagueInfoUpdate LeagueofLegends (Some info) in
     latestScoreboard (run push s) = scoreboard /\
     filter is_scoreboard_update (effects push s) =
       (if changed scoreboard (latestScoreboard s)
        then [emit (scoreboard_update scoreboard)] else [])) /\
  (forall raw mapped,
     mapPlayers raw = Normal mapped ->
     LeagueScoreboard mapped = JObj [("players", JArr mapped)] /\
     Forall2 (fun player c => mapLeaguePlayer (Some player) = Normal c) raw mapped) /\
  (forall scoreboard latest,
     (changed scoreboard latest = true <->
      JSON_stringify scoreboard <> JSON_stringify latest) /\
     (changed scoreboard latest = true -> scoreboard <> latest) /\
     (finite_numbers scoreboard = true -> finite_numbers latest = true ->
      scoreboard <> latest -> changed scoreboard latest = true)).
Proof.
  assert (Htry : forall raw, pollLeague_try (Normal (JArr raw)) = mapPlayers raw)
    by reflexivity.
  split; [|split; [|split; [|split]]].
  - intros players mapped. split.
    + intros H. destruct players as [p|e]; [|discriminate H].
      destruct p as [| b | n | str | raw | l]; try discriminate H.
      exists raw. split; [reflexivity|]. rewrite <- Htry. exact H.
    + intros (raw & -> & H). rewrite Htry. exact H.
  - intros raw mapped now now' s H scoreboard poll.
    rewrite <- Htry in H.
    unfold poll, run, effects. rewrite (settled_success _ _ _ _ _ H). cbn [fst snd].
    split; [reflexivity|].
    fold scoreboard. destruct (changed scoreboard (latestScoreboard s)); reflexivity.
  - intros info raw mapped s Hi Ha Hm scoreboard push.
    unfold push, handleLeagueInfoUpdate. rewrite Hi, Ha. cbn [negb Array_isArray elements_of].
    rewrite Hm. fold scoreboard.
    destruct (startLeaguePolling_fields false s) as (_ & Hl & _ & Hu).
    cbn zeta in Hl, Hu.
    rewrite run_seq, effects_seq, filter_app, Hu. cbn [app].
    unfold reading, run, effects, seq, update, when, perform, skip.
    fold (run (startLeaguePolling LeagueofLegends false) s). rewrite Hl.
    destruct (changed scoreboard (latestScoreboard s)); split; reflexivity.
  - intros raw mapped Hm. split; [reflexivity|]. exact (mapPlayers_Forall2 _ _ Hm).
  - intros scoreboard latest. split; [apply changed_true_iff|]. split.
    + intros H E. rewrite E, changed_refl in H. discriminate H.
    + intros Hf Hf' H. apply changed_true_iff. intros E. apply H.
      apply stringify_injective; assumption.
Qed.

End Poller.

(* ================================================================== *)
(** * The poller at the game id of League *)
(* ================================================================== *)

Lemma reachable_in_game : reachable League in_game.
Proof.
  exact (reachable_step League _ (game_detected League)
           (reachable_step League _ (call_registerGames [League])
              (reachable_initial League))).
Qed.

(** C4 at the service in game, where the timer is set, and at the initial
    service, where no game is active. *)
Lemma startLeaguePolling_gate_witness :
  startLeaguePolling League false in_game = (in_game, []) /\
  startLeaguePolling League false initial = (initial, []) /\
  polling (run (startLeaguePolling League true) initial) = true.
Proof.
  split; [|split].
  - apply (proj1 (startLeaguePolling_gate League false in_game)). reflexivity.
  - apply (proj1 (proj2 (startLeaguePolling_gate League false initial)));
      [reflexivity | reflexivity | discriminate].
  - apply (proj2 (proj2 (startLeaguePolling_gate League true initial))). reflexivity.
Defined.

(** C9 at the service in game: a forced and an unforced start leave the one
    timer it has, and stopping leaves none. *)
Lemma one_polling_timer_witness :
  List.length (intervals (run (startLeaguePolling League true >>
                               startLeaguePolling League false) in_game)) = 1%nat /\
  intervals (run stopLeaguePolling in_game) = [].
Proof.
  destruct (one_polling_timer League in_game true false reachable_in_game)
    as (_ & _ & H1 & _ & _ & H2 & _).
  split; [|exact H2]. apply H1. left. reflexivity.
Defined.

(** C9 as stated fails at the initial service, where no game is active: two
    unforced starts are both gated and leave no timer, not one. *)
Lemma start_twice_counterexample :
  reachable League initial /\
  activeGame initial <> League /\
  intervals (run (startLeaguePolling League false >>
                  startLeaguePolling League false) initial) = [] /\
  List.length (intervals (run (startLeaguePolling League false >>
                               startLeaguePolling League false) initial)) <> 1%nat.
Proof.
  split; [apply reachable_initial|]. split; [discriminate|].
  split; [reflexivity|discriminate].
Qed.

(** C3 at the service in game: three refused requests, the second 3000 ms
    and the third 6000 ms after the first. *)
Lemma poll_failure_reporting_witness :
  count is_log
    (effects (pollLeague_settled League (Throw ECONNREFUSED) 1700000000000 1700000000000)
             in_game) = 1%nat /\
  count is_scoreboard_error
    (effects (pollLeague_settled League (Throw ECONNREFUSED) 1700000000000 1700000000000 >>
              pollLeague_settled League (Throw ECONNREFUSED) 1700000003000 1700000003000)
             in_game) = 1%nat /\
  count is_scoreboard_error
    (effects (pollLeague_settled League (Throw ECONNREFUSED) 1700000000000 1700000000000 >>
              pollLeague_settled League (Throw ECONNREFUSED) 1700000003000 1700000003000 >>
              pollLeague_settled League (Throw ECONNREFUSED) 1700000006000 1700000006000)
             in_game) = 2%nat.
Proof.
  split.
  - destruct (proj1 (poll_failure_reporting League) (Throw ECONNREFUSED) ECONNREFUSED
                1700000000000 1700000000000 in_game eq_refl) as [H _]. exact H.
  - apply (proj2 (poll_failure_reporting League)
             (Throw ECONNREFUSED) (Throw ECONNREFUSED) (Throw ECONNREFUSED)
             ECONNREFUSED ECONNREFUSED ECONNREFUSED
             1700000000000 1700000000000 1700000003000 1700000003000
             1700000006000 1700000006000 in_game);
      [reflexivity | reflexivity | reflexivity | | | ]; vm_compute; congruence.
Defined.

(** C3 as stated fails at the boundary.  In game, a request is refused and a
    [scoreboard-error] is emitted; the timer fires and the next request is
    refused exactly 5000 ms later: 5000 ms have elapsed since the last
    [scoreboard-error], and none is emitted. *)
Lemma poll_failure_boundary_counterexample :
  count is_scoreboard_error
    (effects (handle League (refused_at 1700000000000)) in_game) = 1%nat /\
  1700000005000 - 1700000000000 >= 5000 /\
  count is_log
    (effects (handle League (refused_at 1700000005000))
       (run (handle League (refused_at 1700000000000) >>
             handle League (interval_fires 0%nat)) in_game)) = 1%nat /\
  count is_scoreboard_error
    (effects (handle League (refused_at 1700000005000))
       (run (handle League (refused_at 1700000000000) >>
             handle League (interval_fires 0%nat)) in_game)) = 0%nat.
Proof.
  split; [reflexivity|]. split; [vm_compute; discriminate|]. split; reflexivity.
Qed.

(** C10 at the service in game: the endpoint answers, the timer fires, and
    the next request is refused one second after a [scoreboard-error] could
    have been emitted. *)
Lemma success_reopens_error_window_witness :
  lastScoreboardErrorTs
    (run (pollLeague_settled League (Normal (JArr [Faker])) 1700000001000 1700000001000)
         in_game) = 0 /\
  count is_scoreboard_error
    (effects (pollLeague_settled League (Throw ECONNREFUSED) 1700000002000 1700000002000)
       (run (handle_all League [interval_fires 0%nat])
          (run (pollLeague_settled League (Normal (JArr [Faker]))
                  1700000001000 1700000001000) in_game))) = 1%nat.
Proof.
  destruct (success_reopens_error_window League (Normal (JArr [Faker]))
              [Ahri [LeagueScoreboardItem (JStr "Boots") (JStr "Boots")
                       (JNum (Int 1001)) (JNum (Int 2))]]
              1700000001000 1700000001000 in_game eq_refl) as [H0 H].
  split; [exact H0|].
  apply (H [interval_fires 0%nat] (Throw ECONNREFUSED) ECONNREFUSED
           1700000002000 1700000002000); reflexivity.
Defined.

(** C6 at the service in game: the answer with the player of the scenario
    is stored and reported, the same answer again is not reported, and an
    info update with the same player stores the same scoreboard. *)
Lemma snapshot_replaced_update_when_changed_witness :
  latestScoreboard
    (run (pollLeague_settled League (Normal (JArr [Faker])) 1700000001000 1700000001000)
         in_game) =
  JObj [("players",
         JArr [Ahri [LeagueScoreboardItem (JStr "Boots") (JStr "Boots")
                       (JNum (Int 1001)) (JNum (Int 2))]])] /\
  filter is_scoreboard_update
    (effects (pollLeague_settled League (Normal (JArr [Faker])) 1700000001000 1700000001000)
             in_game) =
  [emit (scoreboard_update
           (JObj [("players",
                   JArr [Ahri [LeagueScoreboardItem (JStr "Boots") (JStr "Boots")
                                 (JNum (Int 1001)) (JNum (Int 2))]])]))] /\
  filter is_scoreboard_update
    (effects (pollLeague_settled League (Normal (JArr [Faker])) 1700000003000 1700000003000)
       (run (pollLeague_settled League (Normal (JArr [Faker])) 1700000001000 1700000001000)
            in_game)) = [] /\
  latestScoreboard
    (run (handleLeagueInfoUpdate League (Some (info_with [Faker]))) in_game) =
  JObj [("players",
         JArr [Ahri [LeagueScoreboardItem (JStr "Boots") (JStr "Boots")
                       (JNum (Int 1001)) (JNum (Int 2))]])].
Proof.
  assert (Hm : mapPlayers [Faker] =
               Normal [Ahri [LeagueScoreboardItem (JStr "Boots") (JStr "Boots")
                               (JNum (Int 1001)) (JNum (Int 2))]])
    by (vm_compute; reflexivity).
  assert (Ha : allPlayers_of (Some (info_with [Faker])) = Some (JArr [Faker]))
    by (vm_compute; reflexivity).
  pose proof (proj1 (proj2 (snapshot_replaced_update_when_changed League))) as Hpoll.
  pose proof (proj1 (proj2 (proj2 (snapshot_replaced_update_when_changed League))))
    as Hpush.
  destruct (Hpoll [Faker] _ 1700000001000 1700000001000 in_game Hm) as [H1 H2].
  destruct (Hpoll [Faker] _ 1700000003000 1700000003000
              (run (pollLeague_settled League (Normal (JArr [Faker]))
                      1700000001000 1700000001000) in_game) Hm) as [_ H3].
  destruct (Hpush (info_with [Faker]) [Faker] _ in_game eq_refl Ha Hm) as [H4 _].
  split; [exact H1|]. split; [|split; [|exact H4]].
  - rewrite H2. vm_compute. reflexivity.
  - rewrite H3, H1. vm_compute. reflexivity.
Defined.

(** C6 as stated fails on a number that is not finite.  In game, an answer
    brings a player whose team is [1e400], which is stored and reported;
    the next answer brings the player with the team [-1e400].  The new
    scoreboard differs from the snapshot and replaces it, and no
    [scoreboard-update] is emitted: both teams are written [null]. *)
Lemma snapshot_update_overflow_counterexample :
  mapPlayers [team_1e400] = Normal [of_team (JNum (Infinity false))] /\
  mapPlayers [team_minus_1e400] = Normal [of_team (JNum (Infinity true))] /\
  latestScoreboard
    (run (pollLeague_settled League (Normal (JArr [team_1e400]))
            1700000001000 1700000001000) in_game) =
  LeagueScoreboard [of_team (JNum (Infinity false))] /\
  LeagueScoreboard [of_team (JNum (Infinity true))] <>
  LeagueScoreboard [of_team (JNum (Infinity false))] /\
  latestScoreboard
    (run (pollLeague_settled League (Normal (JArr [team_minus_1e400]))
            1700000003000 1700000003000)
       (run (pollLeague_settled League (Normal (JArr [team_1e400]))
               1700000001000 1700000001000) in_game)) =
  LeagueScoreboard [of_team (JNum (Infinity true))] /\
  filter is_scoreboard_update
    (effects (pollLeague_settled League (Normal (JArr [team_minus_1e400]))
                1700000003000 1700000003000)
       (run (pollLeague_settled League (Normal (JArr [team_1e400]))
               1700000001000 1700000001000) in_game)) = [].
Proof.
  repeat split; try (vm_compute; reflexivity). discriminate.
Qed.

(** ** The scenarios of the specification *)

(** An empty list of players when the snapshot has no players: no update. *)
Example empty_list_twice :
  effects (handle League (response_end (Some 200) (Normal (JArr [])) 1700000003000 1700000003000))
    (run (handle League (response_end (Some 200) (Normal (JArr []))
                           1700000001000 1700000001000) >>
          handle League (interval_fires 0%nat)) in_game) = [].
Proof. reflexivity. Qed.

(** The endpoint answers 500: one log event, one [scoreboard-error], no
    update. *)
Example http_500 :
  effects (handle League (response_end (Some 500) (Normal (JArr [Faker]))
                            1700000001000 1700000001000)) in_game =
  [ emit (log "league-live-client-error");
    emit (scoreboard_error League (Some (JStr "live client http 500"))) ].
Proof. reflexivity. Qed.

(** The game exits while a request is under way: the timer is cleared and
    the snapshot dropped, and the answer that arrives later is still taken
    as the new snapshot. *)
Example answer_after_exit :
  latestScoreboard
    (run (handle League (game_exit League) >>
          handle League (response_end (Some 200) (Normal (JArr [])) 1700000001000 1700000001000))
         in_game) = LeagueScoreboard [] /\
  intervals (run (handle League (game_exit League)) in_game) = [].
Proof. split; reflexivity. Qed.

(* ================================================================== *)
(** * Further properties of the normaliser *)
(* ================================================================== *)

Lemma canonical_mapItem raw : canonical_item (mapItem raw).
Proof.
  unfold mapItem. do 4 eexists. split; [reflexivity|].
  repeat split; apply otherwise_not_null; discriminate.
Qed.

Lemma returned_is_canonical player c :
  mapLeaguePlayer player = Normal c -> canonical_player c.
Proof.
  intros Hc. pose proof (mapLeaguePlayer_Normal _ _ Hc) as Hconv.
  destruct (mapLeaguePlayer_returns player Hconv)
    as (r1 & r2 & r3 & r4 & r5 & r6 & E1 & E2 & E3 & E4 & E5 & E6 & Heq).
  rewrite Heq in Hc. inversion Hc; subst c; clear Hc Heq.
  apply normalizeStat_cases in E1, E2, E3, E4, E5, E6.
  do 10 eexists. split; [reflexivity|].
  repeat (split; [first [assumption | apply otherwise_not_null; discriminate]|]).
  rewrite Forall_map. apply Forall_forall. intros raw _. apply canonical_mapItem.
Qed.

(** X1.  Whatever the raw player, the record [mapLeaguePlayer] returns has
    the six keys of the type in their order, a name, champion and team that
    are not [null], a level and five stats that are each [null] or an
    integer, and items with their four keys, none of them [null]; and its
    level and stats are written by [JSON.stringify] as they are, being
    finite. *)
Theorem mapLeaguePlayer_shape (player : option Json) (c : Json) :
  mapLeaguePlayer player = Normal c ->
  canonical_player c /\
  (exists level stats,
     get (Some c) "level" = Some level /\ get (Some c) "stats" = Some stats /\
     finite_numbers level = true /\ finite_numbers stats = true).
Proof.
  intros Hc. split; [exact (returned_is_canonical _ _ Hc)|].
  destruct (returned_is_canonical _ _ Hc)
    as (name & champion & team & level & r2 & r3 & r4 & r5 & r6 & items & -> &
        _ & _ & _ & H1 & H2 & H3 & H4 & H5 & H6 & _).
  do 2 eexists. split; [reflexivity|]. split; [reflexivity|].
  destruct H1 as [-> | [z1 ->]], H2 as [-> | [z2 ->]], H3 as [-> | [z3 ->]],
           H4 as [-> | [z4 ->]], H5 as [-> | [z5 ->]], H6 as [-> | [z6 ->]];
    split; reflexivity.
Qed.

(** X1 at the player with an item of count [0]. *)
Lemma mapLeaguePlayer_shape_witness :
  canonical_player
    (LeagueScoreboardPlayer (JStr "Unknown") (JStr "") (JStr "ORDER") JNull
       (LeagueScoreboardStats JNull JNull JNull JNull JNull)
       [LeagueScoreboardItem (JStr "Boots") (JStr "Boots") (JNum (Int 0))
                             (JNum (Int 0))]).
Proof.
  apply (mapLeaguePlayer_shape (Some zero_count)). vm_compute. reflexivity.
Defined.

(** X2.  A player that is not an object, be it [undefined], [null], a
    number, a string, a boolean or an array, normalises to the record of
    defaults: name ["Unknown"], champion [""], team ["ORDER"], no level, no
    stats and no items. *)
Theorem mapLeaguePlayer_of_non_object (player : option Json) :
  (forall properties, player <> Some (JObj properties)) ->
  mapLeaguePlayer player = Normal unknown_player.
Proof.
  intros H. destruct player as [[| b | n | s | l | l]|]; try reflexivity.
  exfalso. apply (H l). reflexivity.
Qed.

(** X2 at an array and at [null]. *)
Lemma mapLeaguePlayer_of_non_object_witness :
  mapLeaguePlayer (Some (JArr [Faker])) = Normal unknown_player /\
  mapLeaguePlayer (Some JNull) = Normal unknown_player.
Proof.
  split.
  - apply mapLeaguePlayer_of_non_object. intros l H. discriminate H.
  - apply mapLeaguePlayer_of_non_object. intros l H. discriminate H.
Defined.

(** ** The list of players *)

(** X3.  [players.map(mapLeaguePlayer)] returns a list exactly when every
    player normalises, and the list then has the canonical record of each
    raw player at the place of that player: as many records, in the same
    order. *)
Theorem mapPlayers_pointwise (players mapped : list Json) :
  (mapPlayers players = Normal mapped <->
   Forall2 (fun player c => mapLeaguePlayer (Some player) = Normal c) players mapped) /\
  (mapPlayers players = Normal mapped -> List.length mapped = List.length players).
Proof.
  split; [split|].
  - apply mapPlayers_Forall2.
  - intros H. induction H as [|player c rest cs Hc _ IH]; [reflexivity|].
    rewrite mapPlayers_cons, Hc. cbn [bind]. rewrite IH. reflexivity.
  - intros H. apply mapPlayers_Forall2 in H. induction H; cbn; congruence.
Qed.

Lemma mapPlayers_canonical players mapped :
  mapPlayers players = Normal mapped -> Forall canonical_player mapped.
Proof.
  intros H. apply mapPlayers_Forall2 in H.
  induction H as [|p c ps cs Hc _ IH]; constructor; [|exact IH].
  exact (returned_is_canonical _ _ Hc).
Qed.

(** X4.  [players.map(mapLeaguePlayer)] throws exactly when some player has
    a stat whose conversion throws; one such player anywhere in the list
    loses the whole list. *)
Theorem mapPlayers_throws_iff (players : list Json) :
  (exists error, mapPlayers players = Throw error) <->
  Exists (fun player => stats_convert (Some player) = false) players.
Proof.
  induction players as [|player rest IH].
  - cbn. split; [intros [e H]; discriminate|intros H; inversion H].
  - rewrite mapPlayers_cons. split.
    + intros [e H].
      destruct (mapLeaguePlayer (Some player)) as [c|e'] eqn:Ec; cbn [bind] in H.
      * right. apply IH. destruct (mapPlayers rest) as [cs|e''] eqn:Er; cbn [bind] in H;
          [discriminate|eauto].
      * left. destruct (stats_convert (Some player)) eqn:Hs; [|reflexivity].
        destruct (mapLeaguePlayer_returns _ Hs)
          as (? & ? & ? & ? & ? & ? & _ & _ & _ & _ & _ & _ & Heq). congruence.
    + intros H. inversion H as [? ? Hp|? ? Hr]; subst.
      * destruct (mapLeaguePlayer (Some player)) as [c|e] eqn:Ec; cbn [bind].
        -- apply mapLeaguePlayer_Normal in Ec. congruence.
        -- eauto.
      * destruct (mapLeaguePlayer (Some player)) as [c|e] eqn:Ec; cbn [bind]; [|eauto].
        apply IH in Hr. destruct Hr as [e Hr]. rewrite Hr. cbn [bind]. eauto.
Qed.

(** X4 at a list whose second player has a level that does not convert. *)
Lemma mapPlayers_throws_iff_witness :
  exists error,
    mapPlayers [Faker; level_throws] = Throw error.
Proof.
  apply (proj2 (mapPlayers_throws_iff [Faker; level_throws])).
  right. left. vm_compute. reflexivity.
Defined.

(** X3 at the list of the one player of the scenario. *)
Lemma mapPlayers_pointwise_witness :
  exists c, mapPlayers [Faker] = Normal [c] /\ get (Some c) "name" = Some (JStr "Faker").
Proof.
  eexists. split.
  - apply (proj2 (proj1 (mapPlayers_pointwise [Faker] _))).
    constructor; [exact mapLeaguePlayer_Faker|constructor].
  - reflexivity.
Defined.

(** ** Where the stats are read from *)

Lemma nullish_present a b v : present a v -> a ?? b = Some v.
Proof. intros [-> Hv]. destruct v; cbn; congruence. Qed.

Lemma statsSource_championStats player src :
  present (get player "championStats") src -> statsSource_of player = Some src.
Proof. intros H. unfold statsSource_of. apply nullish_present. exact H. Qed.

Lemma stats_of_source player c :
  mapLeaguePlayer player = Normal c ->
  let src := statsSource_of player in
  exists maxHealth attackDamage abilityPower armor magicResist,
    normalizeStat (get src "maxHealth" ?? get src "hp") = Normal maxHealth /\
    normalizeStat (get src "attackDamage" ?? get src "ad") = Normal attackDamage /\
    normalizeStat (get src "abilityPower" ?? get src "ap") = Normal abilityPower /\
    normalizeStat (get src "armor") = Normal armor /\
    normalizeStat (get src "magicResist" ?? get src "magicResistance" ?? get src "mr")
      = Normal magicResist /\
    get (Some c) "stats" =
      Some (LeagueScoreboardStats maxHealth attackDamage abilityPower armor magicResist).
Proof.
  intros Hc src. pose proof (mapLeaguePlayer_Normal _ _ Hc) as Hconv.
  destruct (mapLeaguePlayer_returns player Hconv)
    as (r1 & r2 & r3 & r4 & r5 & r6 & E1 & E2 & E3 & E4 & E5 & E6 & Heq).
  rewrite Heq in Hc. inversion Hc; subst c.
  exists r2, r3, r4, r5, r6. repeat (split; [assumption|]). reflexivity.
Qed.

(** X5.  The stats are read from one object only, the first of
    [championStats], [champion_stats], [stats] and [rawStats] that is
    present: two raw players with the same [championStats] get the same
    stats, whatever else they carry, a [stats] object with other numbers
    included. *)
Theorem stats_from_first_source (player player' : option Json) (src c c' : Json) :
  present (get player "championStats") src ->
  present (get player' "championStats") src ->
  mapLeaguePlayer player = Normal c ->
  mapLeaguePlayer player' = Normal c' ->
  get (Some c) "stats" = get (Some c') "stats".
Proof.
  intros Hp Hp' Hc Hc'.
  destruct (stats_of_source _ _ Hc) as (a1 & a2 & a3 & a4 & a5 & A1 & A2 & A3 & A4 & A5 & ->).
  destruct (stats_of_source _ _ Hc') as (b1 & b2 & b3 & b4 & b5 & B1 & B2 & B3 & B4 & B5 & ->).
  rewrite (statsSource_championStats _ _ Hp) in A1, A2, A3, A4, A5.
  rewrite (statsSource_championStats _ _ Hp') in B1, B2, B3, B4, B5.
  congruence.
Qed.

(** X5 at the player of the scenario and the same player with a [stats]
    object beside its [championStats]. *)
Lemma stats_from_first_source_witness :
  mapLeaguePlayer (Some two_sources) = Normal level_8_hp_1200 /\
  get (Some (Ahri [LeagueScoreboardItem (JStr "Boots") (JStr "Boots")
                     (JNum (Int 1001)) (JNum (Int 2))])) "stats" =
  get (Some level_8_hp_1200) "stats".
Proof.
  assert (H' : mapLeaguePlayer (Some two_sources) = Normal level_8_hp_1200)
    by (vm_compute; reflexivity).
  split; [exact H'|].
  apply (stats_from_first_source (Some Faker) (Some two_sources)
           (JObj [("level", JNum (Frac 2139209823000985 49)); ("hp", JStr "1200")])
           _ _).
  - split; [vm_compute; reflexivity|discriminate].
  - split; [vm_compute; reflexivity|discriminate].
  - exact mapLeaguePlayer_Faker.
  - exact H'.
Defined.

(** X6.  A stat falls back to its second key by presence, not by value.
    When the first key of a stat is present in the source of the stats, the
    stat is [normalizeStat] of that value and the other keys are not looked
    at; so a first key that holds a string that is not a number gives
    [null], whatever number the second key holds. *)
Theorem stat_fallback_by_presence (player : option Json) (c v : Json) (canon : string) :
  mapLeaguePlayer player = Normal c ->
  In canon ["maxHealth"; "attackDamage"; "abilityPower"; "armor"; "magicResist"] ->
  present (get (statsSource_of player) canon) v ->
  (exists r, normalizeStat (Some v) = Normal r /\ stat c canon = Some r) /\
  (Number (Some v) = Normal NaN -> stat c canon = Some JNull).
Proof.
  intros Hc Hin Hv.
  destruct (stats_of_source _ _ Hc) as (a1 & a2 & a3 & a4 & a5 & A1 & A2 & A3 & A4 & A5 & Hs).
  assert (Hr : exists r, normalizeStat (Some v) = Normal r /\ stat c canon = Some r).
  { unfold stat. rewrite Hs.
    cbn [In] in Hin. destruct Hin as [<-|[<-|[<-|[<-|[<-|[]]]]]].
    - rewrite (nullish_present _ _ _ Hv) in A1. eauto.
    - rewrite (nullish_present _ _ _ Hv) in A2. eauto.
    - rewrite (nullish_present _ _ _ Hv) in A3. eauto.
    - destruct Hv as [Hv _]. rewrite Hv in A4. eauto.
    - rewrite (nullish_present _ _ _ Hv) in A5. eauto. }
  split; [exact Hr|].
  destruct Hr as (r & Hr & Hst). rewrite Hst.
  intros Hn. unfold normalizeStat in Hr. rewrite Hn in Hr. cbn in Hr. congruence.
Qed.

(** X6 at a source whose [maxHealth] is the string ["n/a"] and whose [hp]
    is [1200]. *)
Lemma stat_fallback_by_presence_witness :
  mapLeaguePlayer (Some health_not_available) = Normal unknown_player /\
  stat unknown_player "maxHealth" = Some JNull.
Proof.
  assert (H : mapLeaguePlayer (Some health_not_available) = Normal unknown_player)
    by (vm_compute; reflexivity).
  assert (Hp : present (get (statsSource_of (Some health_not_available)) "maxHealth")
                       (JStr "n/a"))
    by (split; [vm_compute; reflexivity | discriminate]).
  assert (Hin : In "maxHealth"
                   ["maxHealth"; "attackDamage"; "abilityPower"; "armor"; "magicResist"])
    by (left; reflexivity).
  split; [exact H|].
  apply (proj2 (stat_fallback_by_presence _ unknown_player (JStr "n/a") "maxHealth"
                  H Hin Hp)).
  vm_compute. reflexivity.
Defined.

(* ================================================================== *)
(** * Further properties of the service *)
(* ================================================================== *)

Lemma changed_from_null players : changed (LeagueScoreboard players) JNull = true.
Proof.
  apply changed_true_iff. unfold LeagueScoreboard. rewrite stringify_object.
  discriminate.
Qed.

Section Reconciler.

Variable LeagueofLegends : Z.

Create HintDb reconciler.
#[local] Hint Resolve preserves_skip preserves_perform preserves_seq preserves_when
  preserves_update : reconciler.
#[local] Hint Extern 2 (preserves _ (reading _ _)) =>
  apply preserves_reading; intros : reconciler.
#[local] Hint Extern 4 (preserves _ (match ?x with _ => _ end)) => destruct x : reconciler.
#[local] Hint Extern 4 (preserves _ (if ?x then _ else _)) => destruct x : reconciler.

(** ** What an info update does *)

Lemma info_update_success info players mapped s :
  truthy info = true ->
  allPlayers_of (Some info) = Some (JArr players) ->
  mapPlayers players = Normal mapped ->
  handleLeagueInfoUpdate LeagueofLegends (Some info) s =
  (set_latestScoreboard (LeagueScoreboard mapped)
     (run (startLeaguePolling LeagueofLegends false) s),
   effects (startLeaguePolling LeagueofLegends false) s ++
   if changed (LeagueScoreboard mapped) (latestScoreboard s)
   then [emit (scoreboard_update (LeagueScoreboard mapped))] else []).
Proof.
  intros Hi Ha Hm. unfold handleLeagueInfoUpdate. rewrite Hi, Ha.
  cbn [negb Array_isArray elements_of]. rewrite Hm.
  destruct (startLeaguePolling_fields LeagueofLegends false s) as (_ & Hl & _ & _).
  cbn zeta in Hl.
  unfold seq, reading, update, when, perform, skip, run, effects in *.
  destruct (startLeaguePolling LeagueofLegends false s) as [s1 o1]. cbn [fst snd] in *.
  rewrite Hl.
  destruct (changed (LeagueScoreboard mapped) (latestScoreboard s)); reflexivity.
Qed.

(** X7.  While the snapshot is [null], as it is at the start and after
    League exits, the first list of players that arrives, by either path,
    is reported with a [scoreboard-update], the empty list included. *)
Theorem first_scoreboard_is_reported (s : Service) :
  latestScoreboard s = JNull ->
  (forall players mapped now now',
     pollLeague_try players = Normal mapped ->
     effects (pollLeague_settled LeagueofLegends players now now') s =
     [emit (scoreboard_update (LeagueScoreboard mapped))]) /\
  (forall info players mapped,
     truthy info = true ->
     allPlayers_of (Some info) = Some (JArr players) ->
     mapPlayers players = Normal mapped ->
     filter is_scoreboard_update
       (effects (handleLeagueInfoUpdate LeagueofLegends (Some info)) s) =
     [emit (scoreboard_update (LeagueScoreboard mapped))]).
Proof.
  intros Hnull. split.
  - intros players mapped now now' H. unfold effects.
    rewrite (settled_success LeagueofLegends _ _ _ _ _ H). cbn [snd].
    rewrite Hnull, changed_from_null. reflexivity.
  - intros info players mapped Hi Ha Hm. unfold effects.
    rewrite (info_update_success _ _ _ _ Hi Ha Hm). cbn [snd].
    destruct (startLeaguePolling_fields LeagueofLegends false s) as (_ & _ & _ & Hu).
    cbn zeta in Hu. rewrite filter_app, Hu, Hnull, changed_from_null. reflexivity.
Qed.

(** X8.  The same list of players a second time is not reported: after a
    poll cycle or an info update has taken a list, a poll cycle and an info
    update that bring the same list emit no [scoreboard-update]. *)
Theorem same_players_are_not_reported_again
  (players mapped : list Json) (info : Json) (s : Service) (now1 now1' now2 now2' : Z) :
  mapPlayers players = Normal mapped ->
  truthy info = true ->
  allPlayers_of (Some info) = Some (JArr players) ->
  let poll now now' := pollLeague_settled LeagueofLegends (Normal (JArr players)) now now' in
  let push := handleLeagueInfoUpdate LeagueofLegends (Some info) in
  effects (poll now2 now2') (run (poll now1 now1') s) = [] /\
  effects (poll now2 now2') (run push s) = [] /\
  filter is_scoreboard_update (effects push (run (poll now1 now1') s)) = [] /\
  filter is_scoreboard_update (effects push (run push s)) = [].
Proof.
  intros Hm Hi Ha poll push.
  assert (Ht : pollLeague_try (Normal (JArr players)) = Normal mapped) by exact Hm.
  assert (Hpoll : forall t t' s0,
            latestScoreboard (run (poll t t') s0) = LeagueScoreboard mapped).
  { intros t t' s0. unfold poll, run. rewrite (settled_success _ _ _ _ _ _ Ht). reflexivity. }
  assert (Hpush : forall s0, latestScoreboard (run push s0) = LeagueScoreboard mapped).
  { intros s0. unfold push, run. rewrite (info_update_success _ _ _ _ Hi Ha Hm). reflexivity. }
  assert (Hquiet : forall t t' s0, latestScoreboard s0 = LeagueScoreboard mapped ->
            effects (poll t t') s0 = []).
  { intros t t' s0 H0. unfold poll, effects. rewrite (settled_success _ _ _ _ _ _ Ht).
    cbn [snd]. rewrite H0, changed_refl. reflexivity. }
  assert (Hquiet' : forall s0, latestScoreboard s0 = LeagueScoreboard mapped ->
            filter is_scoreboard_update (effects push s0) = []).
  { intros s0 H0. unfold push, effects. rewrite (info_update_success _ _ _ _ Hi Ha Hm).
    cbn [snd]. destruct (startLeaguePolling_fields LeagueofLegends false s0) as (_ & _ & _ & Hu).
    cbn zeta in Hu. rewrite filter_app, Hu, H0, changed_refl. reflexivity. }
  repeat split; auto.
Qed.

(** ** Requests *)

Lemma pollLeague_requests s :
  (activeGame s <> LeagueofLegends -> pollLeague LeagueofLegends s = (s, [])) /\
  (activeGame s = LeagueofLegends ->
   pollLeague LeagueofLegends s = (set_requests (S (requests s)) s, [https_get])).
Proof.
  unfold pollLeague, reading. split; intros H.
  - apply Z.eqb_neq in H. rewrite H. reflexivity.
  - apply Z.eqb_eq in H. rewrite H. reflexivity.
Qed.

(** X9.  When the gate of [startLeaguePolling] is open the poll runs at
    once and one timer is created.  With League active that is one request
    and the timer; a forced start while another game, or none, is active
    makes no request and still creates the timer. *)
Theorem start_polls_at_once (force : bool) (s : Service) :
  polling s = false ->
  (activeGame s = LeagueofLegends ->
   let s' := run (startLeaguePolling LeagueofLegends force) s in
   effects (startLeaguePolling LeagueofLegends force) s =
     [https_get; setInterval (timers_created s)] /\
   requests s' = S (requests s) /\
   leaguePollingTimer s' = Some (timers_created s) /\
   intervals s' = timers_created s :: intervals s) /\
  (activeGame s <> LeagueofLegends -> force = true ->
   let s' := run (startLeaguePolling LeagueofLegends force) s in
   effects (startLeaguePolling LeagueofLegends force) s = [setInterval (timers_created s)] /\
   requests s' = requests s /\
   leaguePollingTimer s' = Some (timers_created s) /\
   intervals s' = timers_created s :: intervals s).
Proof.
  intros Hp. split.
  - intros Hg s'. unfold s', effects, run.
    rewrite (startLeaguePolling_proceeds LeagueofLegends force s Hp (or_intror Hg)).
    unfold run, effects. rewrite (proj2 (pollLeague_requests s) Hg). repeat split.
  - intros Hg -> s'. unfold s', effects, run.
    rewrite (startLeaguePolling_proceeds LeagueofLegends true s Hp (or_introl eq_refl)).
    unfold run, effects. rewrite (proj1 (pollLeague_requests s) Hg). repeat split.
Qed.

(** X10.  A timer that has been cleared does not poll: once
    [stopLeaguePolling] has run in a state the service reaches, or League
    has exited, the firing of any timer does nothing. *)
Theorem no_poll_after_stop (s : Service) (t : timer) :
  reachable LeagueofLegends s ->
  handle LeagueofLegends (interval_fires t) (run stopLeaguePolling s) =
    (run stopLeaguePolling s, []) /\
  handle LeagueofLegends (interval_fires t)
    (run (handle LeagueofLegends (game_exit LeagueofLegends)) s) =
    (run (handle LeagueofLegends (game_exit LeagueofLegends)) s, []).
Proof.
  intros Hr. apply reachable_one_timer in Hr.
  destruct (stopLeaguePolling_stops s Hr) as [_ Hi].
  assert (Hno : forall s0, intervals s0 = [] ->
            handle LeagueofLegends (interval_fires t) s0 = (s0, [])).
  { intros s0 H0. cbn [handle]. unfold reading. rewrite H0. reflexivity. }
  split; [apply Hno; exact Hi|]. apply Hno.
  cbn [handle]. unfold on_game_exit. rewrite !run_seq. rewrite Z.eqb_refl. cbn [when].
  rewrite run_seq.
  assert (Ho : one_timer (run (reading activeGame (fun active =>
                 when (active =? LeagueofLegends) (update (set_activeGame 0))))
                 (run (perform (console_log "gep game exit")) s))).
  { unfold reading, run, perform, when, update, skip. cbn [fst].
    destruct (activeGame s =? LeagueofLegends); exact Hr. }
  destruct (stopLeaguePolling_stops _ Ho) as [_ Hi']. exact Hi'.
Qed.

Lemma settle_pending players now now' s :
  settle LeagueofLegends players now now' s =
  match requests s with
  | O => (s, [])
  | S n => (update (set_requests n) >>
            pollLeague_settled LeagueofLegends players now now') s
  end.
Proof. unfold settle, reading. destruct (requests s); reflexivity. Qed.

Lemma settled_requests players now now' s :
  requests (run (pollLeague_settled LeagueofLegends players now now') s) = requests s.
Proof.
  unfold pollLeague_settled. destruct (pollLeague_try players) as [mapped|error].
  - unfold reading, run, seq, update, when, perform, skip.
    destruct (changed (LeagueScoreboard mapped) (latestScoreboard s)); reflexivity.
  - unfold pollLeague_catch, reading, run, seq, update, when, perform, skip.
    destruct (5000 <? now - lastScoreboardErrorTs s); reflexivity.
Qed.

(** X11.  A response is taken once.  With no request pending, the end of a
    response and the error of a request do nothing; with requests pending
    they take one of them, whether the poll succeeds or fails. *)
Theorem response_taken_once (c : Callback) (s : Service) :
  (exists err now now', c = request_error err now now') \/
  (exists statusCode body now now', c = response_end statusCode body now now') ->
  (requests s = 0%nat -> handle LeagueofLegends c s = (s, [])) /\
  (forall n, requests s = S n -> requests (run (handle LeagueofLegends c) s) = n).
Proof.
  assert (Hs : forall players now now',
    (requests s = 0%nat -> settle LeagueofLegends players now now' s = (s, [])) /\
    (forall n, requests s = S n ->
       requests (run (settle LeagueofLegends players now now') s) = n)).
  { intros players now now'. split.
    - intros H0. rewrite settle_pending, H0. reflexivity.
    - intros n Hn. unfold run. rewrite settle_pending, Hn.
      fold (run (update (set_requests n) >>
                 pollLeague_settled LeagueofLegends players now now') s).
      rewrite run_seq, settled_requests. reflexivity. }
  intros [(err & now & now' & ->) | (statusCode & body & now & now' & ->)];
    cbn [handle]; apply Hs.
Qed.

(** X12.  The poll goes on from its [await] without looking at the active
    game or the timer again.  When League exits while a request is pending,
    the poller stops and the snapshot is dropped, but the request stays
    pending; the list of players it brings later becomes the snapshot and
    is reported. *)
Theorem answer_after_exit_is_taken
  (s : Service) (n : nat) (statusCode : option Z) (body : completion Json)
  (mapped : list Json) (now now' : Z) :
  requests s = S n ->
  pollLeague_try (handleLiveClientResponse statusCode body) = Normal mapped ->
  let exited := run (handle LeagueofLegends (game_exit LeagueofLegends)) s in
  let answer := handle LeagueofLegends (response_end statusCode body now now') in
  polling exited = false /\
  latestScoreboard exited = JNull /\
  requests exited = S n /\
  effects answer exited = [emit (scoreboard_update (LeagueScoreboard mapped))] /\
  latestScoreboard (run answer exited) = LeagueScoreboard mapped.
Proof.
  intros Hn Hok exited answer.
  assert (He : polling exited = false /\ latestScoreboard exited = JNull /\
               requests exited = S n).
  { unfold exited. cbn [handle]. unfold on_game_exit. rewrite Z.eqb_refl. cbn [when].
    unfold stopLeaguePolling, polling, reading, run, seq, perform, update, when, skip.
    destruct (activeGame s =? LeagueofLegends); cbn;
      destruct (leaguePollingTimer s) eqn:E; cbn; rewrite ?E; auto. }
  destruct He as (Hp & Hl & Hr). repeat (split; [assumption|]).
  unfold answer, effects, run. cbn [handle]. rewrite settle_pending, Hr.
  unfold seq, update. cbn beta iota.
  rewrite (settled_success LeagueofLegends _ _ _ _ _ Hok). cbn [fst snd app latestScoreboard set_requests].
  rewrite Hl, changed_from_null. split; reflexivity.
Qed.

(** X13.  A response with a status of 400 or more is a failed poll whatever
    its body: the snapshot stays, no update is emitted, one log event is, and
    the error carries the status.  A response with a lower status, a status
    of zero or no status is judged by its body alone. *)
Theorem http_error_status_fails (status : Z) (body : completion Json) :
  (400 <= status ->
   handleLiveClientResponse (Some status) body =
     Throw (Error ("live client http " ++ NilZero.string_of_int (Z.to_int status))%string) /\
   forall s n now now',
     requests s = S n ->
     let answer := handle LeagueofLegends (response_end (Some status) body now now') in
     latestScoreboard (run answer s) = latestScoreboard s /\
     count is_scoreboard_update (effects answer s) = 0%nat /\
     count is_log (effects answer s) = 1%nat) /\
  (status < 400 -> handleLiveClientResponse (Some status) body = body) /\
  handleLiveClientResponse None body = body.
Proof.
  split; [|split].
  - intros Hs.
    assert (Hh : handleLiveClientResponse (Some status) body =
                 Throw (Error ("live client http " ++
                               NilZero.string_of_int (Z.to_int status))%string)).
    { unfold handleLiveClientResponse.
      assert ((status =? 0) = false) as -> by (apply Z.eqb_neq; lia).
      assert ((400 <=? status) = true) as -> by (apply Z.leb_le; lia). reflexivity. }
    split; [exact Hh|].
    intros s n now now' Hn answer. unfold answer, effects, run. cbn [handle].
    rewrite settle_pending, Hn, Hh.
    unfold seq, update. cbn beta iota.
    unfold pollLeague_settled. cbn [pollLeague_try bind].
    destruct (pollLeague_catch_reports LeagueofLegends
                (Error ("live client http " ++
                        NilZero.string_of_int (Z.to_int status))%string)
                now now' (set_requests n s)) as (Hlog & Hup & Hl & _).
    unfold effects, run in Hlog, Hup, Hl.
    destruct (pollLeague_catch LeagueofLegends _ now now' (set_requests n s)) as [s' out].
    cbn [fst snd app] in *. auto.
  - intros Hs. unfold handleLiveClientResponse.
    assert ((400 <=? status) = false) as -> by (apply Z.leb_gt; lia).
    rewrite andb_false_r. reflexivity.
  - reflexivity.
Qed.

(** ** Requests are made for League only *)

Lemma quiet_skip : keeps_quiet LeagueofLegends skip.
Proof. intros s H. auto. Qed.

Lemma quiet_perform e : is_https_get e = false -> keeps_quiet LeagueofLegends (perform e).
Proof. intros He s H. unfold effects, run, perform, count. cbn. rewrite He. auto. Qed.

Lemma quiet_seq a b :
  keeps_quiet LeagueofLegends a -> keeps_quiet LeagueofLegends b ->
  keeps_quiet LeagueofLegends (a >> b).
Proof.
  intros Ha Hb s H. rewrite effects_seq, run_seq, count_app.
  destruct (Ha s H) as [Ha1 Ha2]. destruct (Hb _ Ha2) as [Hb1 Hb2].
  rewrite Ha1, Hb1. auto.
Qed.

Lemma quiet_when (c : bool) a :
  keeps_quiet LeagueofLegends a -> keeps_quiet LeagueofLegends (when c a).
Proof. destruct c; cbn; auto using quiet_skip. Qed.

Lemma quiet_reading {A} (field : Service -> A) k :
  (forall x, keeps_quiet LeagueofLegends (k x)) ->
  keeps_quiet LeagueofLegends (reading field k).
Proof. intros Hk s H. exact (Hk (field s) s H). Qed.

Lemma quiet_update f :
  (forall s, activeGame s <> LeagueofLegends -> activeGame (f s) <> LeagueofLegends) ->
  keeps_quiet LeagueofLegends (update f).
Proof. intros Hf s H. split; [reflexivity|]. exact (Hf s H). Qed.

Lemma quiet_clear : LeagueofLegends <> 0 -> keeps_quiet LeagueofLegends (update (set_activeGame 0)).
Proof. intros H0 s _. split; [reflexivity|]. cbn. congruence. Qed.

Lemma quiet_pollLeague : keeps_quiet LeagueofLegends (pollLeague LeagueofLegends).
Proof.
  intros s H. unfold effects, run. rewrite (proj1 (pollLeague_requests s) H). auto.
Qed.

Lemma quiet_start force : keeps_quiet LeagueofLegends (startLeaguePolling LeagueofLegends force).
Proof.
  intros s Hg. destruct (startLeaguePolling_fields LeagueofLegends force s) as (_ & _ & Ha & _).
  cbn zeta in Ha. rewrite Ha. split; [|exact Hg].
  destruct (polling s) eqn:Hp.
  - unfold effects. rewrite (start_while_polling LeagueofLegends force s Hp). reflexivity.
  - destruct force.
    + unfold effects.
      rewrite (startLeaguePolling_proceeds LeagueofLegends true s Hp (or_introl eq_refl)).
      unfold effects. rewrite (proj1 (pollLeague_requests s) Hg). reflexivity.
    + unfold effects. rewrite (start_gated LeagueofLegends s Hp Hg). reflexivity.
Qed.

Lemma quiet_stop : keeps_quiet LeagueofLegends stopLeaguePolling.
Proof.
  intros s H. unfold stopLeaguePolling, reading, effects, run.
  destruct (leaguePollingTimer s); cbn; auto.
Qed.

#[local] Hint Resolve quiet_skip quiet_seq quiet_when quiet_update quiet_clear
  quiet_pollLeague quiet_start quiet_stop : reconciler.
#[local] Hint Extern 1 (keeps_quiet _ (perform _)) =>
  apply quiet_perform; reflexivity : reconciler.
#[local] Hint Extern 2 (keeps_quiet _ (reading _ _)) =>
  apply quiet_reading; intros : reconciler.
#[local] Hint Extern 4 (keeps_quiet _ (match ?x with _ => _ end)) => destruct x : reconciler.
#[local] Hint Extern 4 (keeps_quiet _ (if ?x then _ else _)) => destruct x : reconciler.

Lemma quiet_features ids :
  keeps_quiet LeagueofLegends
    (fold_right (fun gameId rest =>
                   perform (emit (log "set-required-feature for: ")) >>
                   perform (setRequiredFeatures gameId
                              (getRequiredFeatures LeagueofLegends gameId)) >>
                   rest) skip ids).
Proof. induction ids; cbn [fold_right]; auto with reconciler. Qed.

#[local] Hint Resolve quiet_features : reconciler.

(** What a callback other than [game-detected] does while League is not
    the active game. *)
Lemma quiet_handle c :
  LeagueofLegends <> 0 ->
  (forall gameId, c <> game_detected gameId) ->
  keeps_quiet LeagueofLegends (handle LeagueofLegends c).
Proof.
  intros H0 Hc.
  destruct c; cbn [handle];
    try (exfalso; eapply Hc; reflexivity);
    unfold registerGames, on_ready, setRequiredFeaturesForAllSupportedGames,
      on_game_exit, on_new_info_update, handleLeagueInfoUpdate,
      on_error, settle, pollLeague_settled, pollLeague_catch;
    auto 14 with reconciler.
Qed.

Lemma quiet_handle_all cs :
  LeagueofLegends <> 0 ->
  (forall gameId, ~ In (game_detected gameId) cs) ->
  keeps_quiet LeagueofLegends (handle_all LeagueofLegends cs).
Proof.
  intros H0. induction cs as [|c cs IH]; intros Hc; cbn [handle_all].
  - apply quiet_skip.
  - apply quiet_seq.
    + apply quiet_handle; [exact H0|]. intros gameId ->. apply (Hc gameId). left. reflexivity.
    + apply IH. intros gameId Hin. apply (Hc gameId). right. exact Hin.
Qed.

(** X14.  A request to the live client is made only for League.  While
    League is not the active game, no callback other than [game-detected]
    makes a request or makes League active, however many follow one
    another: the timer may fire, info updates and errors may come, and
    nothing is fetched. *)
Theorem no_request_unless_League_is_active (cs : list Callback) (s : Service) :
  LeagueofLegends <> 0 ->
  activeGame s <> LeagueofLegends ->
  (forall gameId, ~ In (game_detected gameId) cs) ->
  count is_https_get (effects (handle_all LeagueofLegends cs) s) = 0%nat /\
  activeGame (run (handle_all LeagueofLegends cs) s) <> LeagueofLegends.
Proof.
  intros H0. revert s. induction cs as [|c cs IH]; intros s Hg Hc; cbn [handle_all].
  - split; [reflexivity|exact Hg].
  - rewrite effects_seq, run_seq, count_app.
    assert (Hq : keeps_quiet LeagueofLegends (handle LeagueofLegends c)).
    { apply quiet_handle; [exact H0|]. intros gameId ->. apply (Hc gameId). left. reflexivity. }
    destruct (Hq s Hg) as [H1 H2].
    destruct (IH _ H2) as [H3 H4].
    { intros gameId Hin. apply (Hc gameId). right. exact Hin. }
    rewrite H1, H3. auto.
Qed.

(** X15.  An error of the game event provider for League is always
    reported: one [scoreboard-error], whatever the stored error timestamp,
    which it leaves as it is.  The poller is then running, but League is no
    longer the active game: until [game-detected] comes again, whatever
    else comes, the timer fires without a request being made. *)
Theorem gep_error_leaves_an_idle_poller
  (error : option Json) (cs : list Callback) (s : Service) :
  LeagueofLegends <> 0 ->
  (forall gameId, ~ In (game_detected gameId) cs) ->
  let failed := handle LeagueofLegends (gep_error LeagueofLegends error) in
  count is_scoreboard_error (effects failed s) = 1%nat /\
  lastScoreboardErrorTs (run failed s) = lastScoreboardErrorTs s /\
  polling (run failed s) = true /\
  activeGame (run failed s) <> LeagueofLegends /\
  count is_https_get (effects (handle_all LeagueofLegends cs) (run failed s)) = 0%nat.
Proof.
  intros H0 Hc failed.
  assert (Hf : count is_scoreboard_error (effects failed s) = 1%nat /\
               lastScoreboardErrorTs (run failed s) = lastScoreboardErrorTs s /\
               polling (run failed s) = true /\
               activeGame (run failed s) <> LeagueofLegends).
  { unfold failed. cbn [handle]. unfold on_error. rewrite Z.eqb_refl. cbn [when].
    rewrite !effects_seq, !run_seq, !count_app.
    change (run (perform (emit (log "gep-error"))) s) with s.
    pose proof (start_forced LeagueofLegends s) as Hp.
    destruct (startLeaguePolling_fields LeagueofLegends true s) as (Hts & _ & Ha & _).
    cbn zeta in Hts, Ha.
    assert (Hnone : count is_scoreboard_error
                      (effects (startLeaguePolling LeagueofLegends true) s) = 0%nat).
    { destruct (polling s) eqn:Hpol.
      - unfold effects. rewrite (start_while_polling LeagueofLegends true s Hpol). reflexivity.
      - unfold effects.
        rewrite (startLeaguePolling_proceeds LeagueofLegends true s Hpol (or_introl eq_refl)).
        cbn [snd]. unfold pollLeague, reading, effects.
        destruct (negb (activeGame s =? LeagueofLegends)); reflexivity. }
    rewrite Hnone.
    set (s1 := run (startLeaguePolling LeagueofLegends true) s) in *.
    unfold reading, when, update, perform, skip, effects, run, polling in *.
    cbn [fst snd]. rewrite Ha.
    destruct (activeGame s =? LeagueofLegends) eqn:Hg; cbn.
    - repeat split; auto.
    - repeat split; auto. rewrite Ha. apply Z.eqb_neq. exact Hg. }
  destruct Hf as (H1 & H2 & H3 & H4). repeat (split; [assumption|]).
  apply (quiet_handle_all cs H0 Hc). exact H4.
Qed.

(** ** Detection and exit *)

Lemma run_reading {A} (f : Service -> A) (k : A -> Action) s :
  run (reading f k) s = run (k (f s)) s.
Proof. reflexivity. Qed.

Lemma effects_reading {A} (f : Service -> A) (k : A -> Action) s :
  effects (reading f k) s = effects (k (f s)) s.
Proof. reflexivity. Qed.

(** X16.  A game that is not registered is not enabled and changes
    nothing; a registered game becomes the active game, is enabled once, and
    has features requested only if it is League, and then the poller is
    running. *)
Theorem game_detected_tracks_registered_games (gameId : Z) (s : Service) :
  let detected := handle LeagueofLegends (game_detected gameId) in
  (includes gameId (gepGamesId s) = false ->
   run detected s = s /\
   count is_enable (effects detected s) = 0%nat /\
   feature_requests (effects detected s) = []) /\
  (includes gameId (gepGamesId s) = true ->
   activeGame (run detected s) = gameId /\
   filter is_enable (effects detected s) = [enable gameId] /\
   (gameId = LeagueofLegends ->
    polling (run detected s) = true /\
    feature_requests (effects detected s) =
      [(LeagueofLegends, Some ["live_client_data"])]) /\
   (gameId <> LeagueofLegends ->
    polling (run detected s) = polling s /\
    feature_requests (effects detected s) = [])).
Proof.
  intros detected. unfold detected. cbn [handle]. unfold on_game_detected.
  rewrite run_reading, effects_reading.
  split; intros Hi; rewrite Hi; cbn [negb].
  - repeat split.
  - rewrite !run_seq, !effects_seq, !filter_app.
    unfold feature_requests. rewrite !flat_map_app.
    change (run (perform (enable gameId))
                (run (perform (emit (log "gep: register game-detected"))) s)) with s.
    remember (run (update (set_activeGame gameId)) s) as s1 eqn:Es1.
    assert (Hs1 : activeGame s1 = gameId /\ leaguePollingTimer s1 = leaguePollingTimer s)
      by (subst s1; split; reflexivity).
    destruct Hs1 as [Ha1 Ht1]. clear Es1.
    assert (Hstart : forall force,
      filter is_enable (effects (startLeaguePolling LeagueofLegends force) s1) = [] /\
      flat_map (fun e => match e with
                         | setRequiredFeatures g f => [(g, f)]
                         | _ => []
                         end) (effects (startLeaguePolling LeagueofLegends force) s1) = [] /\
      activeGame (run (startLeaguePolling LeagueofLegends force) s1) = activeGame s1).
    { intros force.
      unfold startLeaguePolling, pollLeague, reading, run, effects, seq, perform, update, skip.
      destruct (leaguePollingTimer s1); [cbn; auto|].
      destruct (negb force && negb (activeGame s1 =? LeagueofLegends)); [cbn; auto|].
      destruct (negb (activeGame s1 =? LeagueofLegends)); cbn; auto. }
    unfold getRequiredFeatures.
    destruct (gameId =? LeagueofLegends) eqn:Hg; cbn [when].
    + apply Z.eqb_eq in Hg. clear detected. rewrite Hg in *. clear Hg gameId.
      destruct (Hstart false) as (He & Hf & Ha).
      rewrite He, Hf.
      change (run (perform (setRequiredFeatures LeagueofLegends (Some ["live_client_data"])))
                  (run (startLeaguePolling LeagueofLegends false) s1))
        with (run (startLeaguePolling LeagueofLegends false) s1).
      rewrite Ha. split; [exact Ha1|]. split; [reflexivity|]. split.
      * intros _. split; [|reflexivity].
        destruct (polling s1) eqn:Hp.
        -- unfold run. rewrite (start_while_polling LeagueofLegends false s1 Hp). exact Hp.
        -- unfold run.
           rewrite (startLeaguePolling_proceeds LeagueofLegends false s1 Hp (or_intror Ha1)).
           reflexivity.
      * intros Hne. congruence.
    + apply Z.eqb_neq in Hg.
      change (run skip (run skip s1)) with s1.
      split; [exact Ha1|]. split; [reflexivity|]. split.
      * intros He. congruence.
      * intros _. split; [|reflexivity]. unfold polling. rewrite Ht1. reflexivity.
Qed.

(** X17.  The exit of a game clears the active game only if it is that
    game.  The exit of League stops the poller and drops the snapshot even
    when another game is the active one; the exit of another game leaves
    poller and snapshot alone.  No exit touches the pending requests. *)
Theorem game_exit_clears (gameId : Z) (s : Service) :
  let s' := run (handle LeagueofLegends (game_exit gameId)) s in
  (activeGame s = gameId -> activeGame s' = 0) /\
  (activeGame s <> gameId -> activeGame s' = activeGame s) /\
  (gameId = LeagueofLegends ->
   polling s' = false /\ latestScoreboard s' = JNull /\
   (one_timer s -> intervals s' = [])) /\
  (gameId <> LeagueofLegends ->
   leaguePollingTimer s' = leaguePollingTimer s /\
   intervals s' = intervals s /\
   latestScoreboard s' = latestScoreboard s) /\
  requests s' = requests s /\
  lastScoreboardErrorTs s' = lastScoreboardErrorTs s.
Proof.
  intros s'. unfold s'. cbn [handle]. unfold on_game_exit.
  unfold stopLeaguePolling, polling, one_timer, reading, run, seq, perform, update, when, skip.
  destruct (activeGame s =? gameId) eqn:Ha; destruct (gameId =? LeagueofLegends) eqn:Hg;
    [apply Z.eqb_eq in Ha | apply Z.eqb_eq in Ha | apply Z.eqb_neq in Ha | apply Z.eqb_neq in Ha];
    [apply Z.eqb_eq in Hg | apply Z.eqb_neq in Hg | apply Z.eqb_eq in Hg | apply Z.eqb_neq in Hg];
    cbn; destruct (leaguePollingTimer s) as [t|] eqn:Et; cbn; rewrite ?Et;
    repeat split; try congruence; try reflexivity;
    intros; try congruence;
    match goal with
    | H : intervals s = (?t :: nil) |- _ => rewrite H; cbn [remove]; destruct (Nat.eq_dec t t) as [_|n]; [reflexivity|exfalso; apply n; reflexivity]
    | _ => idtac
    end; auto.
Qed.

(** ** The features asked for *)

Lemma run_perform e s : run (perform e) s = s.
Proof. reflexivity. Qed.

Lemma effects_perform e s : effects (perform e) s = [e].
Proof. reflexivity. Qed.

Lemma features_requested ids s :
  let a := fold_right (fun gameId rest =>
                         perform (emit (log "set-required-feature for: ")) >>
                         perform (setRequiredFeatures gameId
                                    (getRequiredFeatures LeagueofLegends gameId)) >>
                         rest) skip ids in
  run a s = s /\
  feature_requests (effects a s) =
    map (fun gameId => (gameId, getRequiredFeatures LeagueofLegends gameId)) ids.
Proof.
  induction ids as [|g ids [IH1 IH2]]; cbn [fold_right map].
  - split; reflexivity.
  - cbn zeta. rewrite !run_seq, !effects_seq, !run_perform, !effects_perform, IH1.
    split; [reflexivity|].
    unfold feature_requests in *. rewrite !flat_map_app, IH2. reflexivity.
Qed.

(** X18.  When the package [gep] is ready the service asks for features
    once for each registered game, in the order of registration:
    [live_client_data] for League and [null], the default, for every other
    game; then it emits [ready].  The service itself is left as it is.  The
    readiness of another package is ignored. *)
Theorem ready_requests_features_per_game (packageName : string) (s : Service) :
  let ready_ := handle LeagueofLegends (package_ready packageName) in
  run ready_ s = s /\
  (packageName <> "gep" -> effects ready_ s = []) /\
  (packageName = "gep" ->
   feature_requests (effects ready_ s) =
     map (fun gameId =>
            (gameId,
             if gameId =? LeagueofLegends then Some ["live_client_data"] else None))
         (gepGamesId s) /\
   exists before, effects ready_ s = before ++ [emit ready]).
Proof.
  intros ready_. unfold ready_. cbn [handle]. unfold on_ready.
  destruct (String.eqb packageName "gep") eqn:E; cbn [negb].
  - apply String.eqb_eq in E.
    unfold setRequiredFeaturesForAllSupportedGames.
    rewrite !run_seq, !effects_seq, !run_perform, !effects_perform,
      run_reading, effects_reading.
    destruct (features_requested (gepGamesId s) s) as [H1 H2]. cbn zeta in H1, H2.
    rewrite H1. split; [reflexivity|]. split; [intros Hn; contradiction|].
    intros _. split.
    + unfold feature_requests in *. rewrite !flat_map_app, H2. cbn [flat_map app].
      rewrite app_nil_r. reflexivity.
    + eexists. rewrite app_assoc. reflexivity.
  - apply String.eqb_neq in E. split; [reflexivity|]. split; [reflexivity|].
    intros Hp. contradiction.
Qed.

(** ** Updates without players *)

Lemma isArray_inv v : Array_isArray v = true -> exists l, v = Some (JArr l).
Proof. destruct v as [[]|]; try discriminate. intros _. eexists. reflexivity. Qed.

(** X19.  An info update for another game, or one whose info is falsy, does
    nothing but log.  An info update without an array of players neither
    replaces the snapshot nor reports an update; but if its info is truthy
    and League is the active game, the poller runs after it. *)
Theorem info_update_without_players (gameId : Z) (info : option Json) (s : Service) :
  let pushed := handle LeagueofLegends (new_info_update gameId info) in
  (gameId <> LeagueofLegends \/ falsy info ->
   pushed s = (s, [emit (log "info-update")])) /\
  (Array_isArray (allPlayers_of info) = false ->
   latestScoreboard (run pushed s) = latestScoreboard s /\
   count is_scoreboard_update (effects pushed s) = 0%nat) /\
  (gameId = LeagueofLegends -> ~ falsy info -> activeGame s = LeagueofLegends ->
   polling (run pushed s) = true).
Proof.
  intros pushed. unfold pushed. cbn [handle]. unfold on_new_info_update.
  split; [|split].
  - intros [Hg | Hf].
    + apply Z.eqb_neq in Hg. rewrite Hg. reflexivity.
    + destruct (gameId =? LeagueofLegends); [|reflexivity]. cbn [when].
      destruct info as [i|]; [|reflexivity].
      unfold handleLeagueInfoUpdate. rewrite (Hf i eq_refl). reflexivity.
  - intros Ha. rewrite run_seq, effects_seq, count_app, run_perform, effects_perform.
    destruct (gameId =? LeagueofLegends); cbn [when]; [|split; reflexivity].
    unfold handleLeagueInfoUpdate.
    destruct info as [i|]; [|split; reflexivity].
    destruct (truthy i); cbn [negb]; [|split; reflexivity].
    cbn zeta. rewrite Ha. cbn [negb].
    rewrite run_seq, effects_seq, count_app.
    destruct (startLeaguePolling_fields LeagueofLegends false s) as (_ & Hl & _ & Hn).
    cbn zeta in Hl, Hn. unfold count. rewrite Hn. split; [exact Hl|reflexivity].
  - intros -> Hf Hg. rewrite Z.eqb_refl. cbn [when]. rewrite run_seq, run_perform.
    destruct info as [i|]; [|exfalso; apply Hf; intros j Hj; discriminate].
    destruct (truthy i) eqn:Ht;
      [|exfalso; apply Hf; intros j Hj; inversion Hj; subst j; exact Ht].
    assert (Hp : polling (run (startLeaguePolling LeagueofLegends false) s) = true).
    { destruct (polling s) eqn:Hp.
      - unfold run. rewrite (start_while_polling LeagueofLegends false s Hp). exact Hp.
      - unfold run.
        rewrite (startLeaguePolling_proceeds LeagueofLegends false s Hp (or_intror Hg)).
        reflexivity. }
    unfold handleLeagueInfoUpdate. rewrite Ht. cbn [negb]. cbn zeta.
    rewrite run_seq.
    destruct (Array_isArray (allPlayers_of (Some i))); cbn [negb]; [|exact Hp].
    destruct (mapPlayers (elements_of (allPlayers_of (Some i)))) as [mapped|error];
      [|exact Hp].
    unfold reading, run, seq, update, when, perform, skip, polling in *.
    destruct (startLeaguePolling LeagueofLegends false s) as [s1 o1]. cbn [fst snd] in *.
    destruct (changed (LeagueScoreboard mapped) (latestScoreboard s1)); exact Hp.
Qed.

(** ** The snapshot *)

Lemma keeps_skip : keeps_snapshot skip.
Proof. intros s. split; [left|]; reflexivity. Qed.

Lemma keeps_perform e : is_scoreboard_update e = false -> keeps_snapshot (perform e).
Proof.
  intros He s. split; [left; reflexivity|].
  rewrite effects_perform. cbn [filter]. rewrite He. reflexivity.
Qed.

Lemma keeps_seq a b : keeps_snapshot a -> keeps_snapshot b -> keeps_snapshot (a >> b).
Proof.
  intros Ha Hb s. rewrite run_seq, effects_seq, filter_app.
  destruct (Ha s) as [Ha1 Ha2]. destruct (Hb (run a s)) as [Hb1 Hb2].
  rewrite Ha2, Hb2. split; [|reflexivity].
  destruct Hb1 as [-> | ->]; auto.
Qed.

Lemma keeps_when (c : bool) a : keeps_snapshot a -> keeps_snapshot (when c a).
Proof. destruct c; cbn; auto using keeps_skip. Qed.

Lemma keeps_reading {A} (field : Service -> A) k :
  (forall x, keeps_snapshot (k x)) -> keeps_snapshot (reading field k).
Proof. intros Hk s. exact (Hk (field s) s). Qed.

Lemma keeps_update f :
  (forall s, latestScoreboard (f s) = latestScoreboard s \/ latestScoreboard (f s) = JNull) ->
  keeps_snapshot (update f).
Proof. intros Hf s. split; [exact (Hf s)|reflexivity]. Qed.

Lemma keeps_pollLeague : keeps_snapshot (pollLeague LeagueofLegends).
Proof.
  intros s. destruct (pollLeague_fields LeagueofLegends s) as (_ & _ & _ & Hl & _).
  cbn zeta in Hl. split; [left; exact Hl|].
  unfold pollLeague, reading, effects.
  destruct (negb (activeGame s =? LeagueofLegends)); reflexivity.
Qed.

Lemma keeps_start force : keeps_snapshot (startLeaguePolling LeagueofLegends force).
Proof.
  intros s. destruct (startLeaguePolling_fields LeagueofLegends force s) as (_ & Hl & _ & Hn).
  cbn zeta in Hl, Hn. split; [left; exact Hl|exact Hn].
Qed.

Lemma keeps_stop : keeps_snapshot stopLeaguePolling.
Proof.
  intros s. unfold stopLeaguePolling, reading, effects, run.
  destruct (leaguePollingTimer s); cbn; auto.
Qed.

Lemma keeps_catch error now now' :
  keeps_snapshot (pollLeague_catch LeagueofLegends error now now').
Proof.
  intros s.
  destruct (pollLeague_catch_reports LeagueofLegends error now now' s)
    as (_ & Hn & Hl & _).
  cbn zeta in Hn, Hl. split; [left; exact Hl|].
  unfold count in Hn. apply length_zero_iff_nil. exact Hn.
Qed.

#[local] Hint Resolve keeps_skip keeps_seq keeps_when keeps_pollLeague keeps_start
  keeps_stop keeps_catch : reconciler.
#[local] Hint Extern 1 (keeps_snapshot (perform _)) =>
  apply keeps_perform; reflexivity : reconciler.
#[local] Hint Extern 1 (keeps_snapshot (update _)) =>
  apply keeps_update; intros; cbn; auto : reconciler.
#[local] Hint Extern 2 (keeps_snapshot (reading _ _)) =>
  apply keeps_reading; intros : reconciler.
#[local] Hint Extern 4 (keeps_snapshot (match ?x with _ => _ end)) => destruct x : reconciler.
#[local] Hint Extern 4 (keeps_snapshot (if ?x then _ else _)) => destruct x : reconciler.

Lemma keeps_features ids :
  keeps_snapshot
    (fold_right (fun gameId rest =>
                   perform (emit (log "set-required-feature for: ")) >>
                   perform (setRequiredFeatures gameId
                              (getRequiredFeatures LeagueofLegends gameId)) >>
                   rest) skip ids).
Proof. induction ids; cbn [fold_right]; auto with reconciler. Qed.

#[local] Hint Resolve keeps_features : reconciler.

(** What a handler does to the snapshot: it keeps or drops it and reports
    nothing, or it stores the normalised players of a list it was given,
    and reports them if their text differs from that of the snapshot. *)
Lemma info_snapshot info s :
  let a := handleLeagueInfoUpdate LeagueofLegends info in
  ((latestScoreboard (run a s) = latestScoreboard s \/
    latestScoreboard (run a s) = JNull) /\
   filter is_scoreboard_update (effects a s) = []) \/
  (exists players mapped,
     mapPlayers players = Normal mapped /\
     latestScoreboard (run a s) = LeagueScoreboard mapped /\
     filter is_scoreboard_update (effects a s) =
       if changed (LeagueScoreboard mapped) (latestScoreboard s)
       then [emit (scoreboard_update (LeagueScoreboard mapped))] else []).
Proof.
  cbn zeta.
  destruct info as [i|]; [|left; apply keeps_skip].
  destruct (truthy i) eqn:Ht.
  2: { left. unfold handleLeagueInfoUpdate. rewrite Ht. apply keeps_skip. }
  destruct (Array_isArray (allPlayers_of (Some i))) eqn:Ha.
  2: { left. unfold handleLeagueInfoUpdate. rewrite Ht. cbn zeta. rewrite Ha.
       cbn [negb]. apply keeps_seq; [apply keeps_start|apply keeps_skip]. }
  destruct (isArray_inv _ Ha) as [players Hp].
  destruct (mapPlayers players) as [mapped|error] eqn:Hm.
  - right. exists players, mapped. split; [exact Hm|].
    unfold run, effects. rewrite (info_update_success i players mapped s Ht Hp Hm).
    cbn [fst snd]. split; [reflexivity|].
    rewrite filter_app.
    rewrite (proj2 (keeps_start false s)).
    destruct (changed (LeagueScoreboard mapped) (latestScoreboard s)); reflexivity.
  - left. unfold handleLeagueInfoUpdate. rewrite Ht. cbn zeta. rewrite Hp.
    cbn [negb Array_isArray elements_of]. rewrite Hm.
    apply keeps_seq; [apply keeps_start|]. apply keeps_perform. reflexivity.
Qed.

Lemma settle_snapshot players now now' s :
  let a := settle LeagueofLegends players now now' in
  ((latestScoreboard (run a s) = latestScoreboard s \/
    latestScoreboard (run a s) = JNull) /\
   filter is_scoreboard_update (effects a s) = []) \/
  (exists players mapped,
     mapPlayers players = Normal mapped /\
     latestScoreboard (run a s) = LeagueScoreboard mapped /\
     filter is_scoreboard_update (effects a s) =
       if changed (LeagueScoreboard mapped) (latestScoreboard s)
       then [emit (scoreboard_update (LeagueScoreboard mapped))] else []).
Proof.
  cbn zeta. unfold run, effects. rewrite settle_pending.
  destruct (requests s) as [|n]; [left; split; [left|]; reflexivity|].
  destruct (pollLeague_try players) as [mapped|error] eqn:Ht.
  - right. unfold pollLeague_try in Ht. destruct players as [p|e]; [|discriminate].
    cbn [bind] in Ht.
    destruct (Array_isArray (Some p)) eqn:Ha; cbn [negb] in Ht; [|discriminate].
    exists (elements_of (Some p)), mapped. split; [exact Ht|].
    unfold seq, update.
    rewrite (settled_success LeagueofLegends (Normal p) mapped now now' (set_requests n s)).
    + cbn [fst snd app]. split; [reflexivity|].
      change (latestScoreboard (set_requests n s)) with (latestScoreboard s).
      destruct (changed (LeagueScoreboard mapped) (latestScoreboard s)); reflexivity.
    + unfold pollLeague_try. cbn [bind]. rewrite Ha. cbn [negb]. exact Ht.
  - left.
    assert (Hk : keeps_snapshot
                   (update (set_requests n) >>
                    pollLeague_settled LeagueofLegends players now now')).
    { unfold pollLeague_settled. rewrite Ht. auto with reconciler. }
    exact (Hk s).
Qed.

Lemma handle_snapshot c s :
  let a := handle LeagueofLegends c in
  ((latestScoreboard (run a s) = latestScoreboard s \/
    latestScoreboard (run a s) = JNull) /\
   filter is_scoreboard_update (effects a s) = []) \/
  (exists players mapped,
     mapPlayers players = Normal mapped /\
     latestScoreboard (run a s) = LeagueScoreboard mapped /\
     filter is_scoreboard_update (effects a s) =
       if changed (LeagueScoreboard mapped) (latestScoreboard s)
       then [emit (scoreboard_update (LeagueScoreboard mapped))] else []).
Proof.
  cbn zeta.
  destruct c as [ids|packageName|gameId|gameId|gameId|gameId info|gameId|gameId error
                |gameId|t|err now now'|statusCode body now now'];
    cbn [handle];
    try apply settle_snapshot;
    try (left;
         match goal with
         | |- (_ (run ?a s) = _ \/ _) /\ _ =>
             cut (keeps_snapshot a); [intros Hk; exact (Hk s)|]
         end;
         unfold registerGames, on_ready, setRequiredFeaturesForAllSupportedGames,
           on_game_detected, on_game_exit, on_error;
         auto 14 with reconciler; fail).
  unfold on_new_info_update.
  rewrite run_seq, effects_seq, run_perform, effects_perform.
  cbn [app filter is_scoreboard_update].
  destruct (gameId =? LeagueofLegends); cbn [when].
  - apply info_snapshot.
  - left. apply keeps_skip.
Qed.

(** X20.  In every state the service reaches, the snapshot is [null] or a
    scoreboard of canonical players: the keys of the three object literals
    in their order, a name, champion and team that are not [null], and a
    level and stats that are [null] or integers. *)
Theorem stored_snapshot_is_canonical (s : Service) :
  reachable LeagueofLegends s -> canonical_snapshot (latestScoreboard s).
Proof.
  induction 1 as [|s c _ IH]; [left; reflexivity|].
  destruct (handle_snapshot c s) as [[[H | H] _] | (players & mapped & Hm & Hl & _)];
    cbn zeta in *.
  - rewrite H. exact IH.
  - left. exact H.
  - right. exists mapped. split; [exact Hl|]. exact (mapPlayers_canonical _ _ Hm).
Qed.

(** X21.  A handler that emits [scoreboard-update] emits it once, and the
    scoreboard it carries is the snapshot the service then holds; it is not
    the snapshot held before, and its players are canonical. *)
Theorem update_reports_the_stored_snapshot (c : Callback) (s : Service) (sb : Json) :
  In (emit (scoreboard_update sb)) (effects (handle LeagueofLegends c) s) ->
  latestScoreboard (run (handle LeagueofLegends c) s) = sb /\
  sb <> latestScoreboard s /\
  (exists players, sb = LeagueScoreboard players /\ Forall canonical_player players) /\
  filter is_scoreboard_update (effects (handle LeagueofLegends c) s) =
    [emit (scoreboard_update sb)].
Proof.
  intros Hin.
  assert (Hf : In (emit (scoreboard_update sb))
                  (filter is_scoreboard_update (effects (handle LeagueofLegends c) s))).
  { apply filter_In. split; [exact Hin|reflexivity]. }
  destruct (handle_snapshot c s) as [[_ Hn] | (players & mapped & Hm & Hl & Hn)];
    cbn zeta in *; rewrite Hn in Hf.
  - destruct Hf.
  - destruct (changed (LeagueScoreboard mapped) (latestScoreboard s)) eqn:Hc;
      [|destruct Hf].
    destruct Hf as [Hf | []]. inversion Hf; subst sb; clear Hf.
    split; [exact Hl|]. split; [|split].
    + intros Heq. rewrite <- Heq, changed_refl in Hc. discriminate.
    + exists mapped. split; [reflexivity|]. exact (mapPlayers_canonical _ _ Hm).
    + exact Hn.
Qed.

End Reconciler.

(* ================================================================== *)
(** * The renderer *)
(* ================================================================== *)

Lemma append_assoc a b c : ((a ++ b) ++ c = a ++ (b ++ c))%string.
Proof. induction a as [|x a IH]; cbn; [reflexivity|]. rewrite IH. reflexivity. Qed.

Lemma append_empty a : (a ++ "" = a)%string.
Proof. induction a as [|x a IH]; cbn; [reflexivity|]. rewrite IH. reflexivity. Qed.

Lemma chars_append a b : chars (a ++ b)%string = chars a ++ chars b.
Proof. induction a as [|x a IH]; cbn; [reflexivity|]. unfold chars in IH. rewrite IH. reflexivity. Qed.

Lemma replace_all_append c by_ a b :
  replace_all c by_ (a ++ b)%string = (replace_all c by_ a ++ replace_all c by_ b)%string.
Proof.
  induction a as [|x a IH]; cbn; [reflexivity|].
  destruct (Ascii.eqb x c); rewrite IH; [rewrite append_assoc|]; reflexivity.
Qed.

Lemma escapeAttribute_cons x rest :
  escapeAttribute (Some (String x rest)) = (escape_char x ++ escapeAttribute (Some rest))%string.
Proof.
  unfold escapeAttribute, escape_char. cbn [replace_all].
  destruct (Ascii.eqb x "&") eqn:E1; [rewrite !replace_all_append; reflexivity|].
  cbn [replace_all].
  destruct (Ascii.eqb x quote) eqn:E2; [rewrite !replace_all_append; reflexivity|].
  cbn [replace_all].
  destruct (Ascii.eqb x "'") eqn:E3; [rewrite !replace_all_append; reflexivity|].
  cbn [replace_all].
  destruct (Ascii.eqb x "<") eqn:E4; [rewrite !replace_all_append; reflexivity|].
  cbn [replace_all].
  destruct (Ascii.eqb x ">") eqn:E5; reflexivity.
Qed.

(** The five replacements one after the other escape each character on its
    own. *)
Lemma escape_by_character s : escapeAttribute (Some s) = escape_each s.
Proof.
  induction s as [|x s IH]; [reflexivity|].
  rewrite escapeAttribute_cons, IH. reflexivity.
Qed.

Lemma escape_each_append a b : escape_each (a ++ b)%string = (escape_each a ++ escape_each b)%string.
Proof.
  induction a as [|x a IH]; cbn [escape_each append]; [reflexivity|].
  rewrite IH, append_assoc. reflexivity.
Qed.

(** X22.  The five replacements of [escapeAttribute] never work on each
    other's output: the result is each character escaped on its own, so the
    escape of a concatenation is the concatenation of the escapes, and a
    string with none of the five characters comes back as it is.  A nullish
    value gives the empty string. *)
Theorem escapeAttribute_by_character (a b : string) :
  escapeAttribute (Some a) = escape_each a /\
  escapeAttribute (Some (a ++ b)%string) =
    (escapeAttribute (Some a) ++ escapeAttribute (Some b))%string /\
  ((forall x, In x (chars a) -> x <> "&"%char /\ breaks_attribute x = false) ->
   escapeAttribute (Some a) = a) /\
  escapeAttribute None = "".
Proof.
  split; [apply escape_by_character|]. split; [|split; [|reflexivity]].
  - rewrite !escape_by_character. apply escape_each_append.
  - rewrite escape_by_character. induction a as [|x a IH]; [reflexivity|].
    intros H. cbn [escape_each].
    rewrite IH by (intros y Hy; apply H; right; exact Hy).
    destruct (H x (or_introl eq_refl)) as [Hx Hb].
    unfold breaks_attribute in Hb. apply orb_false_elim in Hb. destruct Hb as [Hb H4].
    apply orb_false_elim in Hb. destruct Hb as [Hb H3].
    apply orb_false_elim in Hb. destruct Hb as [H1 H2].
    apply Ascii.eqb_neq in Hx. unfold escape_char. rewrite Hx, H1, H2, H3, H4.
    reflexivity.
Qed.

Lemma escape_char_safe x y : In y (chars (escape_char x)) -> breaks_attribute y = false.
Proof.
  unfold escape_char.
  destruct (Ascii.eqb x "&") eqn:E1;
    [cbn; intros H; repeat (destruct H as [<- | H]; [reflexivity|]); destruct H|].
  destruct (Ascii.eqb x quote) eqn:E2;
    [cbn; intros H; repeat (destruct H as [<- | H]; [reflexivity|]); destruct H|].
  destruct (Ascii.eqb x "'") eqn:E3;
    [cbn; intros H; repeat (destruct H as [<- | H]; [reflexivity|]); destruct H|].
  destruct (Ascii.eqb x "<") eqn:E4;
    [cbn; intros H; repeat (destruct H as [<- | H]; [reflexivity|]); destruct H|].
  destruct (Ascii.eqb x ">") eqn:E5;
    [cbn; intros H; repeat (destruct H as [<- | H]; [reflexivity|]); destruct H|].
  cbn. intros [<- | []]. unfold breaks_attribute. rewrite E2, E3, E4, E5. reflexivity.
Qed.

(** X23.  The result of [escapeAttribute] has no double quote, no single
    quote, no [<] and no [>]: put between quotes it cannot end the
    attribute or open a tag. *)
Theorem escapeAttribute_is_safe (value : option string) (x : ascii) :
  In x (chars (escapeAttribute value)) -> breaks_attribute x = false.
Proof.
  destruct value as [s|]; [|intros []].
  rewrite escape_by_character.
  induction s as [|y s IH]; [intros []|].
  cbn [escape_each]. rewrite chars_append. intros H. apply in_app_or in H.
  destruct H as [H | H]; [exact (escape_char_safe _ _ H)|exact (IH H)].
Qed.

Lemma escape_each_injective a : forall b, escape_each a = escape_each b -> a = b.
Proof.
  assert (Hne : forall x s, escape_each (String x s) <> "").
  { intros x s. cbn [escape_each]. unfold escape_char.
    repeat match goal with
           | |- context [if Ascii.eqb ?u ?v then _ else _] => destruct (Ascii.eqb u v)
           end; discriminate. }
  induction a as [|x a IH]; intros [|y b] H.
  - reflexivity.
  - exfalso. symmetry in H. exact (Hne _ _ H).
  - exfalso. exact (Hne _ _ H).
  - cbn [escape_each] in H. unfold escape_char, quote in H.
    repeat match goal with
           | H : context [if Ascii.eqb ?u ?v then _ else _] |- _ =>
               destruct (Ascii.eqb u v) eqn:?
           end;
    repeat match goal with
           | E : Ascii.eqb _ _ = true |- _ => apply Ascii.eqb_eq in E; subst
           end;
    cbn in H; inversion H; subst;
    try (f_equal; apply IH; assumption);
    repeat match goal with
           | E : Ascii.eqb ?c ?c = false |- _ => rewrite Ascii.eqb_refl in E; discriminate E
           end.
Qed.

(** X24.  Escaping loses nothing: two strings with the same escape are the
    same string. *)
Theorem escapeAttribute_injective (a b : string) :
  escapeAttribute (Some a) = escapeAttribute (Some b) -> a = b.
Proof. rewrite !escape_by_character. apply escape_each_injective. Qed.

(** ** Initials *)

Lemma first_two L :
  substring 0 2 L =
  match L with
  | String a (String b _) => String a (String b "")
  | _ => L
  end.
Proof.
  destruct L as [|a [|b rest]]; cbn; try reflexivity. destruct rest; reflexivity.
Qed.

Lemma letters_are_letters s x : In x (chars (letters_of s)) -> is_letter x = true.
Proof.
  induction s as [|y s IH]; [intros []|]. cbn [letters_of].
  destruct (is_letter y) eqn:E; [|exact IH].
  cbn. intros [<- | H]; [exact E|exact (IH H)].
Qed.

Lemma upper_is_upper c : is_letter c = true -> is_upper (upper c) = true.
Proof.
  destruct c as [[] [] [] [] [] [] [] []]; vm_compute; intros H;
    first [reflexivity | discriminate H].
Qed.

(** X25.  The initials of a champion whose name has no letter of [A-Za-z],
    or is [null] or [undefined], are [??]; otherwise they are the first one
    or two letters of the name in upper case.  On a champion that is
    neither a string nor nullish the call throws. *)
Theorem getChampionInitials_cases (championName : option Json) :
  (missing championName -> getChampionInitials championName = Normal "??") /\
  (forall name, championName = Some (JStr name) ->
   exists r, getChampionInitials championName = Normal r /\
     (letters_of name = "" -> r = "??") /\
     (letters_of name <> "" ->
      (1 <= String.length r <= 2)%nat /\
      (forall x, In x (chars r) -> is_upper x = true) /\
      exists rest, (toUpperCase (letters_of name) = r ++ rest)%string)) /\
  (~ missing championName -> (forall name, championName <> Some (JStr name)) ->
   exists error, getChampionInitials championName = Throw error).
Proof.
  split; [|split].
  - intros [-> | ->]; reflexivity.
  - intros name ->. unfold getChampionInitials. cbn [otherwise].
    rewrite first_two.
    pose proof (letters_are_letters name) as Hl.
    destruct (letters_of name) as [|a [|b rest]].
    + eexists. split; [reflexivity|]. split; [reflexivity|]. intros H. congruence.
    + eexists. split; [reflexivity|]. split; [discriminate|]. intros _.
      cbn. split; [lia|]. split.
      * intros x [<- | []]. apply upper_is_upper. apply Hl. left. reflexivity.
      * exists "". reflexivity.
    + eexists. split; [reflexivity|]. split; [discriminate|]. intros _.
      cbn. split; [lia|]. split.
      * intros x [<- | [<- | []]]; apply upper_is_upper; apply Hl; cbn; auto.
      * exists (toUpperCase rest). reflexivity.
  - intros Hm Hs. destruct championName as [[| b | n | s | l | l]|].
    + exfalso. apply Hm. right. reflexivity.
    + eexists. reflexivity.
    + eexists. reflexivity.
    + exfalso. apply (Hs s). reflexivity.
    + eexists. reflexivity.
    + eexists. reflexivity.
    + exfalso. apply Hm. left. reflexivity.
Qed.

(* ================================================================== *)
(** * The further properties at the service in game *)
(* ================================================================== *)

Lemma League_not_zero : League <> 0.
Proof. discriminate. Qed.

(** X7 at the service in game, whose snapshot is [null]: an empty list of
    players is reported. *)
Lemma first_scoreboard_is_reported_witness :
  effects (pollLeague_settled League (Normal (JArr [])) 1700000001000 1700000001000)
          in_game =
  [emit (scoreboard_update (LeagueScoreboard []))].
Proof.
  apply (proj1 (first_scoreboard_is_reported League in_game eq_refl)). reflexivity.
Defined.

(** X8 with the player of the scenario: the second answer is not reported. *)
Lemma same_players_are_not_reported_again_witness :
  effects (pollLeague_settled League (Normal (JArr [Faker])) 1700000003000 1700000003000)
    (run (pollLeague_settled League (Normal (JArr [Faker])) 1700000001000 1700000001000)
         in_game) = [].
Proof.
  assert (Hm : mapPlayers [Faker] =
               Normal [Ahri [LeagueScoreboardItem (JStr "Boots") (JStr "Boots")
                               (JNum (Int 1001)) (JNum (Int 2))]])
    by (vm_compute; reflexivity).
  assert (Ha : allPlayers_of (Some (info_with [Faker])) = Some (JArr [Faker]))
    by (vm_compute; reflexivity).
  exact (proj1 (same_players_are_not_reported_again League [Faker] _ (info_with [Faker])
                  in_game 1700000001000 1700000001000 1700000003000 1700000003000
                  Hm eq_refl Ha)).
Defined.

(** X9 at the initial service: a forced start makes no request and creates
    the first timer; with League active it makes one request. *)
Lemma start_polls_at_once_witness :
  effects (startLeaguePolling League true) initial = [setInterval 0%nat] /\
  effects (startLeaguePolling League false) (set_activeGame League initial) =
    [https_get; setInterval 0%nat].
Proof.
  split.
  - destruct (proj2 (start_polls_at_once League true initial eq_refl)) as (H & _).
    + discriminate.
    + reflexivity.
    + exact H.
  - destruct (proj1 (start_polls_at_once League false (set_activeGame League initial)
                       eq_refl)) as (H & _).
    + reflexivity.
    + exact H.
Defined.

(** X10 at the service in game: after [stopLeaguePolling] the timer [0]
    fires for nothing. *)
Lemma no_poll_after_stop_witness :
  handle League (interval_fires 0%nat) (run stopLeaguePolling in_game) =
  (run stopLeaguePolling in_game, []).
Proof.
  exact (proj1 (no_poll_after_stop League in_game 0%nat reachable_in_game)).
Defined.

(** X11: a refused request at the initial service, where none is pending,
    and at the service in game, where one is. *)
Lemma response_taken_once_witness :
  handle League (refused_at 1700000001000) initial = (initial, []) /\
  requests (run (handle League (refused_at 1700000001000)) in_game) = 0%nat.
Proof.
  assert (Hc : (exists err now now', refused_at 1700000001000 = request_error err now now') \/
               (exists statusCode body now now',
                  refused_at 1700000001000 = response_end statusCode body now now')).
  { left. exists ECONNREFUSED, 1700000001000, 1700000001000. reflexivity. }
  split.
  - apply (proj1 (response_taken_once League _ initial Hc)). reflexivity.
  - apply (proj2 (response_taken_once League _ in_game Hc)). reflexivity.
Defined.

(** X12 at the service in game: League exits, and the answer with an empty
    list of players is reported all the same. *)
Lemma answer_after_exit_is_taken_witness :
  polling (run (handle League (game_exit League)) in_game) = false /\
  effects (handle League (response_end (Some 200) (Normal (JArr []))
                            1700000001000 1700000001000))
          (run (handle League (game_exit League)) in_game) =
  [emit (scoreboard_update (LeagueScoreboard []))].
Proof.
  pose proof (answer_after_exit_is_taken League in_game 0%nat (Some 200)
                (Normal (JArr [])) [] 1700000001000 1700000001000 eq_refl eq_refl) as H.
  cbn zeta in H. destruct H as (H1 & _ & _ & H4 & _). split; [exact H1|exact H4].
Defined.

(** X13 at the status 404. *)
Lemma http_error_status_fails_witness :
  handleLiveClientResponse (Some 404) (Normal (JArr [Faker])) =
  Throw (Error "live client http 404") /\
  handleLiveClientResponse (Some 200) (Normal (JArr [Faker])) = Normal (JArr [Faker]).
Proof.
  split.
  - destruct (proj1 (http_error_status_fails League 404 (Normal (JArr [Faker]))))
      as [H _]; [lia|exact H].
  - apply (proj1 (proj2 (http_error_status_fails League 200 (Normal (JArr [Faker]))))).
    lia.
Defined.

(** X14 at the initial service: an exit, a timer and an info update make
    no request. *)
Lemma no_request_unless_League_is_active_witness :
  count is_https_get
    (effects (handle_all League [game_exit League; interval_fires 0%nat;
                                 new_info_update League (Some (info_with [Faker]))])
             initial) = 0%nat.
Proof.
  apply (no_request_unless_League_is_active League
           [game_exit League; interval_fires 0%nat;
            new_info_update League (Some (info_with [Faker]))] initial).
  - discriminate.
  - discriminate.
  - intros gameId [H | [H | [H | []]]]; discriminate H.
Defined.

(** X15 at the service in game: the error is reported, the poller stays,
    and the timer then fires without a request. *)
Lemma gep_error_leaves_an_idle_poller_witness :
  count is_scoreboard_error (effects (handle League (gep_error League None)) in_game) = 1%nat /\
  polling (run (handle League (gep_error League None)) in_game) = true /\
  count is_https_get
    (effects (handle_all League [interval_fires 0%nat])
             (run (handle League (gep_error League None)) in_game)) = 0%nat.
Proof.
  assert (Hc : forall gameId, ~ In (game_detected gameId) [interval_fires 0%nat]).
  { intros gameId [H | []]. discriminate H. }
  pose proof (gep_error_leaves_an_idle_poller League None [interval_fires 0%nat] in_game
                League_not_zero Hc) as H.
  cbn zeta in H. destruct H as (H1 & _ & H3 & _ & H5).
  split; [exact H1|]. split; [exact H3|exact H5].
Defined.

(** X16: League detected once it is registered, and a game that is not
    registered. *)
Lemma game_detected_tracks_registered_games_witness :
  polling in_game = true /\
  run (handle League (game_detected 21216)) in_game = in_game.
Proof.
  split.
  - pose proof (proj2 (game_detected_tracks_registered_games League League
                         (run (handle League (call_registerGames [League])) initial))) as H.
    cbn zeta in H. destruct (H eq_refl) as (_ & _ & Hl & _).
    destruct (Hl eq_refl) as [Hp _]. exact Hp.
  - pose proof (proj1 (game_detected_tracks_registered_games League 21216 in_game)) as H.
    cbn zeta in H. destruct (H eq_refl) as [Hs _]. exact Hs.
Defined.

(** X17 at the service in game: the exit of League. *)
Lemma game_exit_clears_witness :
  activeGame (run (handle League (game_exit League)) in_game) = 0 /\
  polling (run (handle League (game_exit League)) in_game) = false /\
  intervals (run (handle League (game_exit League)) in_game) = [].
Proof.
  pose proof (game_exit_clears League League in_game) as H. cbn zeta in H.
  destruct H as (H1 & _ & H3 & _).
  destruct (H3 eq_refl) as (Hp & _ & Hi).
  split; [exact (H1 eq_refl)|]. split; [exact Hp|]. apply Hi. reflexivity.
Defined.

(** X18 with League and another game registered. *)
Lemma ready_requests_features_per_game_witness :
  feature_requests
    (effects (handle League (package_ready "gep"))
             (run (handle League (call_registerGames [League; 21216])) initial)) =
  [(League, Some ["live_client_data"]); (21216, None)] /\
  effects (handle League (package_ready "utility")) initial = [].
Proof.
  split.
  - pose proof (ready_requests_features_per_game League "gep"
                  (run (handle League (call_registerGames [League; 21216])) initial)) as H.
    cbn zeta in H. destruct H as (_ & _ & H). destruct (H eq_refl) as [Hf _]. exact Hf.
  - pose proof (ready_requests_features_per_game League "utility" initial) as H.
    cbn zeta in H. destruct H as (_ & H & _). apply H. discriminate.
Defined.

(** X19 at the service in game: an info update whose info is [null], and
    one whose info is an empty object. *)
Lemma info_update_without_players_witness :
  handle League (new_info_update League (Some JNull)) in_game =
    (in_game, [emit (log "info-update")]) /\
  latestScoreboard (run (handle League (new_info_update League (Some (JObj [])))) in_game) =
    latestScoreboard in_game /\
  polling (run (handle League (new_info_update League (Some (JObj []))))
               (set_activeGame League initial)) = true.
Proof.
  split; [|split].
  - pose proof (info_update_without_players League League (Some JNull) in_game) as H.
    cbn zeta in H. destruct H as (H & _). apply H. right.
    intros j Hj. inversion Hj. reflexivity.
  - pose proof (info_update_without_players League League (Some (JObj [])) in_game) as H.
    cbn zeta in H. destruct H as (_ & H & _). destruct (H eq_refl) as [Hl _]. exact Hl.
  - pose proof (info_update_without_players League League (Some (JObj []))
                  (set_activeGame League initial)) as H.
    cbn zeta in H. destruct H as (_ & _ & H). apply H.
    + reflexivity.
    + intros Hf. specialize (Hf (JObj []) eq_refl). discriminate Hf.
    + reflexivity.
Defined.

(** X20 after an info update with the player of the scenario. *)
Lemma stored_snapshot_is_canonical_witness :
  canonical_snapshot
    (latestScoreboard
       (run (handle League (new_info_update League (Some (info_with [Faker])))) in_game)).
Proof.
  apply (stored_snapshot_is_canonical League).
  apply reachable_step. exact reachable_in_game.
Defined.

(** X21 at the service in game: the answer with an empty list of players. *)
Lemma update_reports_the_stored_snapshot_witness :
  latestScoreboard
    (run (handle League (response_end (Some 200) (Normal (JArr []))
                           1700000001000 1700000001000)) in_game) =
  LeagueScoreboard [].
Proof.
  apply (update_reports_the_stored_snapshot League
           (response_end (Some 200) (Normal (JArr [])) 1700000001000 1700000001000)
           in_game (LeagueScoreboard [])).
  vm_compute. left. reflexivity.
Defined.

(** X22 at the name of an item. *)
Lemma escapeAttribute_by_character_witness :
  escapeAttribute (Some "Boots") = "Boots".
Proof.
  apply (proj1 (proj2 (proj2 (escapeAttribute_by_character "Boots" "")))).
  intros x H. cbn in H.
  repeat (destruct H as [<- | H]; [split; [discriminate|reflexivity]|]).
  destruct H.
Defined.

(** X23 at the escape of [<]. *)
Lemma escapeAttribute_is_safe_witness :
  In "&"%char (chars (escapeAttribute (Some "<"))) /\ breaks_attribute "&" = false.
Proof.
  assert (H : In "&"%char (chars (escapeAttribute (Some "<")))) by (left; reflexivity).
  split; [exact H|]. exact (escapeAttribute_is_safe (Some "<") "&" H).
Defined.

(** X24 at a string with a tag. *)
Lemma escapeAttribute_injective_witness :
  escapeAttribute (Some "<b>") = escapeAttribute (Some "<b>") /\ "<b>" = "<b>".
Proof.
  split; [reflexivity|]. apply escapeAttribute_injective. reflexivity.
Defined.

(** X25 at a name with an apostrophe, at no name, and at a number. *)
Lemma getChampionInitials_cases_witness :
  (exists r, getChampionInitials (Some (JStr "Kai'Sa")) = Normal r /\
             (1 <= String.length r <= 2)%nat) /\
  getChampionInitials None = Normal "??" /\
  exists error, getChampionInitials (Some (JNum (Int 5))) = Throw error.
Proof.
  split; [|split].
  - destruct (proj1 (proj2 (getChampionInitials_cases (Some (JStr "Kai'Sa"))))
                "Kai'Sa" eq_refl) as (r & Hr & _ & H).
    exists r. split; [exact Hr|]. apply H. discriminate.
  - apply (proj1 (getChampionInitials_cases None)). left. reflexivity.
  - apply (proj2 (proj2 (getChampionInitials_cases (Some (JNum (Int 5)))))).
    + intros [H | H]; discriminate H.
    + intros name H. discriminate H.
Defined.

(* ================================================================== *)
(** * What an error event carries *)
(* ================================================================== *)

Lemma nullish_missing a b : missing a -> a ?? b = b.
Proof. intros [-> | ->]; reflexivity. Qed.

Lemma start_reports_no_error LeagueofLegends force s e :
  In e (effects (startLeaguePolling LeagueofLegends force) s) -> is_scoreboard_error e = false.
Proof.
  unfold startLeaguePolling, pollLeague, reading, effects, seq, perform, update, skip.
  destruct (leaguePollingTimer s); [intros []|].
  destruct (negb force && negb (activeGame s =? LeagueofLegends)); [intros []|].
  destruct (negb (activeGame s =? LeagueofLegends)); cbn;
    intros H; repeat (destruct H as [<- | H]; [reflexivity|]); destruct H.
Qed.

(** X26.  The error a [scoreboard-error] carries.  From a failed poll it is
    never [null] or [undefined]: it is the message of what was thrown when
    that has one, and what was thrown when it has none and is not [null].
    From an error of the game event provider, which is reported for League
    only, it is a truthy value unless the error is an object with a
    [message] key: the error itself when that is truthy. *)
Theorem reported_error_payload
  (LeagueofLegends : Z) (s : Service) (gameId : Z) (payload : option Json) :
  (forall error now now',
     In (emit (scoreboard_error gameId payload))
        (effects (pollLeague_catch LeagueofLegends error now now') s) ->
     gameId = LeagueofLegends /\
     exists v, payload = Some v /\ v <> JNull /\
       (forall m, present (get (Some error) "message") m -> v = m) /\
       (missing (get (Some error) "message") -> error <> JNull -> v = error)) /\
  (forall g error,
     In (emit (scoreboard_error gameId payload))
        (effects (handle LeagueofLegends (gep_error g error)) s) ->
     gameId = LeagueofLegends /\ g = LeagueofLegends /\
     ((forall l, error = Some (JObj l) -> has_key "message" l = false) ->
      exists v, payload = Some v /\ truthy v = true /\
        (forall e, error = Some e -> truthy e = true -> v = e))).
Proof.
  split.
  - intros error now now'.
    unfold pollLeague_catch, effects, seq, reading, perform, when, update, skip.
    destruct (5000 <? now - lastScoreboardErrorTs s); cbn.
    + intros [H | [H | []]]; [discriminate H|]. inversion H; subst. split; [reflexivity|].
      eexists. split; [reflexivity|]. split; [|split].
      * apply otherwise_not_null. discriminate.
      * intros m Hm. rewrite (nullish_present _ _ _ Hm).
        apply otherwise_present. exact (proj2 Hm).
      * intros Hm He. rewrite (nullish_missing _ _ Hm). apply otherwise_present. exact He.
    + intros [H | []]. discriminate H.
  - intros g error. cbn [handle]. unfold on_error.
    rewrite !effects_seq. intros H.
    apply in_app_or in H. destruct H as [H | H];
      [destruct H as [H | []]; discriminate H|].
    apply in_app_or in H. destruct H as [H | H].
    { destruct (g =? LeagueofLegends); cbn [when] in H; [|destruct H].
      apply start_reports_no_error in H. discriminate H. }
    apply in_app_or in H. destruct H as [H | H].
    2: { unfold reading, effects in H.
         destruct (activeGame _ =? g); destruct H. }
    destruct (g =? LeagueofLegends) eqn:Hg; cbn [when] in H; [|destruct H].
    rewrite effects_perform in H. destruct H as [H | []].
    inversion H; subst. apply Z.eqb_eq in Hg.
    split; [exact Hg|]. split; [exact Hg|]. intros Hk.
    unfold normalizedError.
    destruct error as [[| b | n | str | l | l]|];
      try (destruct (truthy _) eqn:Ht;
           [eexists; split; [reflexivity|]; split; [exact Ht|];
            intros e He _; inversion He; reflexivity
           |eexists; split; [reflexivity|]; split; [reflexivity|];
            intros e He Hte; inversion He; subst e; congruence]).
    + rewrite (Hk l eq_refl). eexists. split; [reflexivity|].
      split; [reflexivity|]. intros e He _. inversion He. reflexivity.
    + eexists. split; [reflexivity|]. split; [reflexivity|].
      intros e He. discriminate He.
Qed.

(** X26 at the refused connection, and at an error of the provider that is
    the empty string. *)
Lemma reported_error_payload_witness :
  (exists v, Some (JStr "connect ECONNREFUSED 127.0.0.1:2999") = Some v /\ v <> JNull) /\
  (exists v, Some (JStr "unknown-error") = Some v /\ truthy v = true).
Proof.
  split.
  - destruct (proj1 (reported_error_payload League in_game League
                       (Some (JStr "connect ECONNREFUSED 127.0.0.1:2999")))
                ECONNREFUSED 1700000001000 1700000001000)
      as (_ & v & Hv & Hn & _).
    + vm_compute. right. left. reflexivity.
    + exists v. split; [exact Hv|exact Hn].
  - destruct (proj2 (reported_error_payload League in_game League
                       (Some (JStr "unknown-error")))
                League (Some (JStr "")))
      as (_ & _ & H).
    + vm_compute. right. left. reflexivity.
    + destruct H as (v & Hv & Ht & _).
      * intros l Hl. discriminate Hl.
      * exists v. split; [exact Hv|exact Ht].
Defined.
